(** * ebook-client: the client-side synchronisation layer, embedded in Rocq

    The storefront client is TypeScript/React.  This development embeds the
    parts of it that carry state-machine behaviour:

    - [JS]       the JavaScript values and coercions the code relies on
                 (truthiness, [||], [?.], [String(...)], [JSON.parse]);
    - [Numeric]  [Number(string)], as [cartApi.addToCart] applies it to the
                 book id;
    - [Gateway]  [fetchAPI] and [ApiError]            (src/services/api.ts);
    - [Auth]     the restore effect of [AuthProvider] (src/contexts/AuthContext.tsx);
    - [Cart]     [CartProvider]                       (src/contexts/CartContext.tsx);
    - [Chat]     [ChatWidget]                         (src/components/ChatWidget.tsx);
    - [Notifier] the notification socket effect of [AppContent] (src/App.tsx);
    - [Catalog]  [BookCatalog] filter state, [handleFilterChange],
                 [buildQueryString] and [normalizeBook]
                 (src/components/BookCatalog.tsx, src/App.tsx);
    - [Pagination] the client-side pages and the page buttons of
                 [BookCatalog];
    - [JSONText] [JSON.stringify];
    - [Session]  [signInWithEmail], [signUpWithEmail] and [signOut]
                 (src/contexts/AuthContext.tsx);
    - [Composer] [sendMessage] of [ChatWidget];
    - [Storefront] the cart handlers of [AppContent], [CartDrawer] and
                 [ProfilePage], and their checkout guards.

    Asynchronous functions are embedded as trees of effects ([Cart.Task]):
    every [await] of a remote call is a node whose continuation receives the
    settled promise, so that a function can be run to completion against a
    backend or interleaved with other in-flight calls. *)

From Stdlib Require Import ZArith Lia Bool Ascii String.
From stdpp Require Import base option list list_numbers strings pretty gmap sorting.

Set Warnings "-register-all".

(* ===================================================================== *)
(** * JavaScript values *)
(* ===================================================================== *)

Module JS.

(** Values as they come out of [JSON.parse] / [response.json()], plus
    [undefined].  Numbers are modelled at integer values. *)
Inductive JSValue : Type :=
| JUndefined
| JNull
| JBool (b : bool)
| JNum (n : Z)
| JStr (s : string)
| JArr (elems : list JSValue)
| JObj (fields : list (string * JSValue)).

(** Exceptions that the embedded code can raise or observe. *)
Inductive JSError : Type :=
| Error (message : string)                 (* new Error(message) *)
| TypeError                                (* property access on null/undefined *)
| SyntaxError                              (* JSON.parse on malformed text *)
| NetworkError                             (* fetch rejected: timeout, refused *)
| ApiError (status : Z) (statusText : string) (message : string).

(** [ToBoolean]. *)
Definition truthy (v : JSValue) : bool :=
  match v with
  | JUndefined | JNull => false
  | JBool b => b
  | JNum n => negb (n =? 0)%Z
  | JStr s => negb (String.eqb s EmptyString)
  | JArr _ | JObj _ => true
  end.

(** [a || b]. *)
Definition or (a b : JSValue) : JSValue := if truthy a then a else b.

(** Own-property lookup in an object literal. *)
Fixpoint lookup_field (k : string) (fields : list (string * JSValue)) : JSValue :=
  match fields with
  | [] => JUndefined
  | (k', v) :: rest => if String.eqb k k' then v else lookup_field k rest
  end.

(** [v.k] for a receiver that is neither [null] nor [undefined].  None of
    the keys that the program reads ([error], [message], [type], [payload],
    [category], [books], ...) is inherited from a prototype, so primitives
    and arrays answer [undefined]. *)
Definition get (v : JSValue) (k : string) : JSValue :=
  match v with
  | JObj fields => lookup_field k fields
  | _ => JUndefined
  end.

Definition nullish (v : JSValue) : bool :=
  match v with JUndefined | JNull => true | _ => false end.

(** [v?.k]. *)
Definition get_opt (v : JSValue) (k : string) : JSValue :=
  if nullish v then JUndefined else get v k.

(** [v.k], which throws on [null] and [undefined]. *)
Definition get_strict (v : JSValue) (k : string) : JSError + JSValue :=
  if nullish v then inl TypeError else inr (get v k).

(** [a === b] against a string literal. *)
Definition strict_eq_str (v : JSValue) (s : string) : bool :=
  match v with JStr s' => String.eqb s' s | _ => false end.

(** [typeof v]. *)
Definition typeof (v : JSValue) : string :=
  match v with
  | JUndefined => "undefined"
  | JNull => "object"
  | JBool _ => "boolean"
  | JNum _ => "number"
  | JStr _ => "string"
  | JArr _ | JObj _ => "object"
  end.

(** Truthiness of a [string | null], such as the session token: [null]
    and the empty string are falsy. *)
Definition present (s : option string) : bool :=
  match s with
  | Some s => negb (String.eqb s EmptyString)
  | None => false
  end.

Definition isArray (v : JSValue) : bool :=
  match v with JArr _ => true | _ => false end.

Fixpoint join (sep : string) (parts : list string) : string :=
  match parts with
  | [] => EmptyString
  | [p] => p
  | p :: rest => p +:+ sep +:+ join sep rest
  end.

(** [String(v)] (the abstract operation ToString).  Inside an array,
    [null] and [undefined] print as the empty string. *)
Fixpoint to_string (v : JSValue) : string :=
  match v with
  | JUndefined => "undefined"
  | JNull => "null"
  | JBool true => "true"
  | JBool false => "false"
  | JNum n => pretty n
  | JStr s => s
  | JArr elems =>
      join "," (map (fun e => if nullish e then EmptyString else to_string e) elems)
  | JObj _ => "[object Object]"
  end.

(** ** [JSON.parse]

    A recursive-descent reader for JSON text: literals, integer numbers,
    strings with the single-character escapes, arrays and objects.  [None]
    stands for the [SyntaxError] that [JSON.parse] throws.  Number literals
    with a fraction or an exponent and [\u] escapes denote values outside
    [JSValue] and are not accepted: the reader agrees with [JSON.parse] on
    every text that it reads and on every text that is not JSON, and it is
    evaluated on such texts only.  The two socket handlers, whose frames
    are arbitrary, and the chat history take the outcome of [JSON.parse]
    as their input instead of the text. *)

Definition is_ws (c : ascii) : bool :=
  match c with
  | " "%char | "009"%char | "010"%char | "013"%char => true
  | _ => false
  end.

Fixpoint skip_ws (l : list ascii) : list ascii :=
  match l with
  | c :: rest => if is_ws c then skip_ws rest else l
  | [] => []
  end.

Definition digit_of (c : ascii) : option Z :=
  let n := Z.of_nat (nat_of_ascii c) in
  if ((48 <=? n) && (n <=? 57))%Z then Some (n - 48)%Z else None.

Fixpoint parse_digits (acc : Z) (l : list ascii) : Z * list ascii :=
  match l with
  | c :: rest =>
      match digit_of c with
      | Some d => parse_digits (10 * acc + d)%Z rest
      | None => (acc, l)
      end
  | [] => (acc, [])
  end.

(** An unsigned integer literal: no leading zero, nothing fractional. *)
Definition parse_nat_lit (l : list ascii) : option (Z * list ascii) :=
  match l with
  | c :: rest =>
      match digit_of c with
      | Some d =>
          let '(n, rest') := if (d =? 0)%Z then (0%Z, rest) else parse_digits d rest in
          match rest' with
          | c' :: _ =>
              match digit_of c', c' with
              | Some _, _ => None
              | None, "."%char | None, "e"%char | None, "E"%char => None
              | None, _ => Some (n, rest')
              end
          | [] => Some (n, rest')
          end
      | None => None
      end
  | [] => None
  end.

Definition unescape (c : ascii) : option ascii :=
  match c with
  | "034"%char => Some "034"%char
  | "\"%char => Some "\"%char
  | "/"%char => Some "/"%char
  | "b"%char => Some "008"%char
  | "f"%char => Some "012"%char
  | "n"%char => Some "010"%char
  | "r"%char => Some "013"%char
  | "t"%char => Some "009"%char
  | _ => None
  end.

(** The characters of a string literal after its opening quote. *)
Fixpoint parse_chars (l : list ascii) : option (string * list ascii) :=
  match l with
  | [] => None
  | "034"%char :: rest => Some (EmptyString, rest)
  | "\"%char :: c :: rest =>
      match unescape c, parse_chars rest with
      | Some c', Some (s, rest') => Some (String c' s, rest')
      | _, _ => None
      end
  | c :: rest =>
      if (Z.of_nat (nat_of_ascii c) <? 32)%Z then None
      else match parse_chars rest with
           | Some (s, rest') => Some (String c s, rest')
           | None => None
           end
  end.

(** A later member with the same key replaces the earlier one. *)
Fixpoint set_field (k : string) (v : JSValue) (fields : list (string * JSValue))
  : list (string * JSValue) :=
  match fields with
  | [] => [(k, v)]
  | (k', v') :: rest =>
      if String.eqb k k' then (k, v) :: rest else (k', v') :: set_field k v rest
  end.

Fixpoint parse_value (fuel : nat) (l : list ascii) : option (JSValue * list ascii) :=
  match fuel with
  | O => None
  | S fuel' =>
      match skip_ws l with
      | "n"%char :: "u"%char :: "l"%char :: "l"%char :: rest => Some (JNull, rest)
      | "t"%char :: "r"%char :: "u"%char :: "e"%char :: rest => Some (JBool true, rest)
      | "f"%char :: "a"%char :: "l"%char :: "s"%char :: "e"%char :: rest =>
          Some (JBool false, rest)
      | "034"%char :: rest =>
          match parse_chars rest with
          | Some (s, rest') => Some (JStr s, rest')
          | None => None
          end
      | "["%char :: rest =>
          match skip_ws rest with
          | "]"%char :: rest' => Some (JArr [], rest')
          | _ =>
              match parse_elems fuel' rest with
              | Some (elems, rest') => Some (JArr elems, rest')
              | None => None
              end
          end
      | "{"%char :: rest =>
          match skip_ws rest with
          | "}"%char :: rest' => Some (JObj [], rest')
          | _ =>
              match parse_members fuel' [] rest with
              | Some (fields, rest') => Some (JObj fields, rest')
              | None => None
              end
          end
      | "-"%char :: rest =>
          match parse_nat_lit rest with
          | Some (n, rest') => Some (JNum (- n), rest')
          | None => None
          end
      | rest =>
          match parse_nat_lit rest with
          | Some (n, rest') => Some (JNum n, rest')
          | None => None
          end
      end
  end

with parse_elems (fuel : nat) (l : list ascii) : option (list JSValue * list ascii) :=
  match fuel with
  | O => None
  | S fuel' =>
      match parse_value fuel' l with
      | Some (v, rest) =>
          match skip_ws rest with
          | ","%char :: rest' =>
              match parse_elems fuel' rest' with
              | Some (vs, rest'') => Some (v :: vs, rest'')
              | None => None
              end
          | "]"%char :: rest' => Some ([v], rest')
          | _ => None
          end
      | None => None
      end
  end

with parse_members (fuel : nat) (acc : list (string * JSValue)) (l : list ascii)
  : option (list (string * JSValue) * list ascii) :=
  match fuel with
  | O => None
  | S fuel' =>
      match skip_ws l with
      | "034"%char :: rest =>
          match parse_chars rest with
          | Some (k, rest1) =>
              match skip_ws rest1 with
              | ":"%char :: rest2 =>
                  match parse_value fuel' rest2 with
                  | Some (v, rest3) =>
                      match skip_ws rest3 with
                      | ","%char :: rest4 => parse_members fuel' (set_field k v acc) rest4
                      | "}"%char :: rest4 => Some (set_field k v acc, rest4)
                      | _ => None
                      end
                  | None => None
                  end
              | _ => None
              end
          | None => None
          end
      | _ => None
      end
  end.

(** [JSON.parse(text)]: one value, surrounded by optional white space. *)
Definition JSON_parse (text : string) : option JSValue :=
  let l := String.list_ascii_of_string text in
  match parse_value (2 * length l + 2) l with
  | Some (v, rest) => match skip_ws rest with [] => Some v | _ => None end
  | None => None
  end.

(** Test data is written with single quotes standing for the double quotes
    of JSON text. *)
Fixpoint json_text (s : string) : string :=
  match s with
  | EmptyString => EmptyString
  | String c rest =>
      String (if Ascii.eqb c "'"%char then "034"%char else c) (json_text rest)
  end.

End JS.

(* ===================================================================== *)
(** * Remote Data Gateway (src/services/api.ts) *)
(* ===================================================================== *)

Module Gateway.
Import JS.

(** The [Response] object that [fetch] resolves to. *)
Record Response : Type := mkResponse {
  status : Z;
  statusText : string;
  body : string;
}.

(** [response.ok]. *)
Definition ok (r : Response) : bool :=
  ((200 <=? status r) && (status r <=? 299))%Z.

(** [new ApiError(status, statusText, message)]: the constructor hands
    [message] to [Error], which stores [String(message)] unless it is
    [undefined]. *)
Definition new_ApiError (st : Z) (stText : string) (message : JSValue) : JSError :=
  ApiError st stText
    (match message with JUndefined => EmptyString | v => to_string v end).

(** [(data?.error as string) || data?.message || 'An error occurred']. *)
Definition error_message (data : JSValue) : JSValue :=
  or (or (get_opt data "error") (get_opt data "message")) (JStr "An error occurred").

(** [fetchAPI], from the point where the [fetch] promise settles.
    [response.json().catch(() => null)] turns an unreadable body into
    [null]. *)
Definition fetchAPI (fetched : JSError + Response) : JSError + JSValue :=
  match fetched with
  | inl e => inl e
  | inr response =>
      let data := default JNull (JSON_parse (body response)) in
      if negb (ok response)
      then inl (new_ApiError (status response) (statusText response) (error_message data))
      else inr data
  end.

(** The error envelope of the API documentation,
    [{ "error": { "code": ..., "message": ... } }]. *)
Definition documented_error (code message : string) : string :=
  json_text ("{'error': {'code': '" +:+ code +:+ "', 'message': '" +:+ message +:+ "'}}").

Definition cart_item_not_found : Response :=
  mkResponse 404 "Not Found" (documented_error "NOT_FOUND" "Cart item not found").

End Gateway.

(* ===================================================================== *)
(** * Session/Auth Store (src/contexts/AuthContext.tsx) *)
(* ===================================================================== *)

Module Auth.
Import JS.

Definition TOKEN_KEY : string := "bookstore_token".
Definition USER_KEY : string := "bookstore_user".

(** [localStorage] is a [gmap string string]: [getItem] is the map lookup,
    with [None] for [null]. *)

(** The three [useState] cells of [AuthProvider]. *)
Record State : Type := mkState {
  user : JSValue;            (* User | null, whatever JSON.parse produced *)
  token : option string;
  loading : bool;
}.

Definition initial : State := mkState JNull None true.

Definition setToken (t : option string) (st : State) : State :=
  mkState (user st) t (loading st).
Definition setUser (u : JSValue) (st : State) : State :=
  mkState u (token st) (loading st).
Definition setLoading (b : bool) (st : State) : State :=
  mkState (user st) (token st) b.

(** The mount effect that restores the session.  The result pairs the
    exception that escaped the effect, if any, with the state left behind
    by the setters that ran before it. *)
Definition restore (storage : gmap string string) (st : State) : option JSError * State :=
  let storedToken := storage !! TOKEN_KEY in
  let storedUser := storage !! USER_KEY in
  if present storedToken && present storedUser then
    let st := setToken storedToken st in
    match JSON_parse (default EmptyString storedUser) with
    | None => (Some SyntaxError, st)
    | Some u => (None, setLoading false (setUser u st))
    end
  else (None, setLoading false st).

(** A token next to a user record that was cut off while being written. *)
Definition truncated_user : gmap string string :=
  <[USER_KEY := json_text "{'id': 1, 'email': "]> (<[TOKEN_KEY := "eyJhbGciOi"]> ∅).

Definition well_formed_session : gmap string string :=
  <[USER_KEY := json_text "{'id': 1, 'email': 'a@b.vn'}"]> (<[TOKEN_KEY := "eyJhbGciOi"]> ∅).

End Auth.

(* ===================================================================== *)
(** * Cart Synchronizer (src/contexts/CartContext.tsx) *)
(* ===================================================================== *)

Module Book.
(** The [book] summary embedded in a cart line. *)
Record t : Type := mk {
  id : string;
  title : string;
  author : string;
  price : Z;
  image_url : option string;
  stock : Z;
}.
End Book.

(* ===================================================================== *)
(** * Number(string) *)
(* ===================================================================== *)

Module Numeric.
Local Open Scope Z_scope.

(** What [Number(s)] yields, as far as a request body needs it:
    [JSON.stringify] writes [NaN] and the infinities as [null] and every
    other double as a number; [-0] is written [0]. *)
Inductive Value : Type :=
| NaN
| Infinity (negative : bool)
| Integer (z : Z)          (* a finite double that is a whole number *)
| Fraction.                (* any other finite double *)


(** [StrWhiteSpaceChar], by the bytes of its UTF-8 encoding: the ASCII
    white space TAB, LF, VT, FF, CR and SP, then U+00A0, U+1680,
    U+2000..U+200A, U+2028, U+2029, U+202F, U+205F, U+3000 and U+FEFF. *)
Definition ascii_space (c : ascii) : bool :=
  let n := nat_of_ascii c in
  ((9 <=? n) && (n <=? 13) || (n =? 32))%nat.

Definition wide_space2 (b1 b2 : nat) : bool := ((b1 =? 194) && (b2 =? 160))%nat.

Definition wide_space3 (b1 b2 b3 : nat) : bool :=
  ((b1 =? 225) && (b2 =? 154) && (b3 =? 128)
   || (b1 =? 226) && (b2 =? 128)
      && ((128 <=? b3) && (b3 <=? 138) || (b3 =? 168) || (b3 =? 169) || (b3 =? 175))
   || (b1 =? 226) && (b2 =? 129) && (b3 =? 159)
   || (b1 =? 227) && (b2 =? 128) && (b3 =? 128)
   || (b1 =? 239) && (b2 =? 187) && (b3 =? 191))%nat.

Fixpoint white_space_only (l : list ascii) : bool :=
  match l with
  | [] => true
  | c1 :: rest =>
      if ascii_space c1 then white_space_only rest
      else
        match rest with
        | c2 :: rest2 =>
            if wide_space2 (nat_of_ascii c1) (nat_of_ascii c2) then white_space_only rest2
            else
              match rest2 with
              | c3 :: rest3 =>
                  wide_space3 (nat_of_ascii c1) (nat_of_ascii c2) (nat_of_ascii c3)
                  && white_space_only rest3
              | [] => false
              end
        | [] => false
        end
  end.

Fixpoint strip_leading (l : list ascii) : list ascii :=
  match l with
  | [] => []
  | c1 :: rest =>
      if ascii_space c1 then strip_leading rest
      else
        match rest with
        | c2 :: rest2 =>
            if wide_space2 (nat_of_ascii c1) (nat_of_ascii c2) then strip_leading rest2
            else
              match rest2 with
              | c3 :: rest3 =>
                  if wide_space3 (nat_of_ascii c1) (nat_of_ascii c2) (nat_of_ascii c3)
                  then strip_leading rest3
                  else l
              | [] => l
              end
        | [] => l
        end
  end.

(** The value of a digit in the given base, letters in either case. *)
Definition digit_of (base : Z) (c : ascii) : option Z :=
  let n := Z.of_nat (nat_of_ascii c) in
  let v :=
    if (48 <=? n) && (n <=? 57) then Some (n - 48)
    else if (97 <=? n) && (n <=? 102) then Some (n - 87)
    else if (65 <=? n) && (n <=? 70) then Some (n - 55)
    else None in
  match v with
  | Some d => if d <? base then Some d else None
  | None => None
  end.

(** The longest run of digits at the head of [l], read onto [acc]: the
    value, the number of digits read and the rest. *)
Fixpoint digits (base acc count : Z) (l : list ascii) : Z * Z * list ascii :=
  match l with
  | c :: rest =>
      match digit_of base c with
      | Some d => digits base (acc * base + d) (count + 1) rest
      | None => (acc, count, l)
      end
  | [] => (acc, count, [])
  end.

Definition round_half_even (num den : Z) : Z :=
  let q := num / den in
  let r := num mod den in
  if 2 * r <? den then q
  else if den <? 2 * r then q + 1
  else if Z.even q then q else q + 1.

(** [(p / q) / 2 ^ e] as a fraction. *)
Definition scaled (p q e : Z) : Z * Z :=
  if 0 <=? e then (p, q * 2 ^ e) else (p * 2 ^ (- e), q).

(** The double nearest to [p / q], for [0 < p] and [0 < q], ties to even:
    the pair [(m, e)] stands for [m * 2 ^ e], with 53 bits of mantissa
    and the exponent of a subnormal at the bottom. *)
Definition nearest_double (p q : Z) : Z * Z :=
  let d := Z.log2 p - Z.log2 q in
  let '(num, den) := scaled p q d in
  let n := if den <=? num then d else d - 1 in
  let e := Z.max (n - 52) (-1074) in
  let '(num, den) := scaled p q e in
  (round_half_even num den, e).

(** The double nearest to [p / q] with the given sign. *)
Definition of_fraction (negative : bool) (p q : Z) : Value :=
  if p =? 0 then Integer 0
  else
    let '(m, e) := nearest_double p q in
    if m =? 0 then Integer 0
    else if 1024 <=? Z.log2 m + e then Infinity negative
    else
      let sign := if negative then -1 else 1 in
      if 0 <=? e then Integer (sign * (m * 2 ^ e))
      else if m mod 2 ^ (- e) =? 0 then Integer (sign * (m / 2 ^ (- e)))
      else Fraction.

Fixpoint strip_prefix (prefix l : list ascii) : option (list ascii) :=
  match prefix, l with
  | [], _ => Some l
  | p :: prefix', c :: rest => if Ascii.eqb p c then strip_prefix prefix' rest else None
  | _ :: _, [] => None
  end.

(** [ExponentPart], when there is one: its value and the rest.  [None]:
    an exponent indicator without digits. *)
Definition exponent (l : list ascii) : option (Z * list ascii) :=
  match l with
  | c :: rest =>
      if Ascii.eqb c "e" || Ascii.eqb c "E" then
        let '(negative, rest) :=
          match rest with
          | s :: rest' =>
              if Ascii.eqb s "+" then (false, rest')
              else if Ascii.eqb s "-" then (true, rest')
              else (false, rest)
          | [] => (false, rest)
          end in
        let '(v, count, rest) := digits 10 0 0 rest in
        if count =? 0 then None else Some (if negative then - v else v, rest)
      else Some (0, l)
  | [] => Some (0, [])
  end.

(** [StrUnsignedDecimalLiteral] followed by white space only. *)
Definition unsigned_decimal (negative : bool) (l : list ascii) : Value :=
  match strip_prefix (String.list_ascii_of_string "Infinity") l with
  | Some rest => if white_space_only rest then Infinity negative else NaN
  | None =>
      let '(int_part, int_count, rest) := digits 10 0 0 l in
      let '(mantissa, frac_count, rest) :=
        match rest with
        | c :: rest' =>
            if Ascii.eqb c "." then digits 10 int_part 0 rest' else (int_part, 0, rest)
        | [] => (int_part, 0, rest)
        end in
      if int_count + frac_count =? 0 then NaN
      else
        match exponent rest with
        | None => NaN
        | Some (e, rest) =>
            if white_space_only rest then
              let e10 := e - frac_count in
              if 0 <=? e10 then of_fraction negative (mantissa * 10 ^ e10) 1
              else of_fraction negative mantissa (10 ^ (- e10))
            else NaN
        end
  end.

(** [NonDecimalIntegerLiteral] after its prefix, followed by white space
    only. *)
Definition radix (base : Z) (l : list ascii) : Value :=
  let '(v, count, rest) := digits base 0 0 l in
  if (count =? 0) || negb (white_space_only rest) then NaN else of_fraction false v 1.

(** [Number(s)] for a string ([StringToNumber]): white space is stripped
    at both ends, the empty string is [0], a string that is not a
    [StrNumericLiteral] is [NaN]. *)
Definition Number (s : string) : Value :=
  match strip_leading (String.list_ascii_of_string s) with
  | [] => Integer 0
  | c :: rest =>
      let prefixed :=
        match rest with
        | k :: rest' =>
            if Ascii.eqb c "0" then
              if Ascii.eqb k "x" || Ascii.eqb k "X" then Some (radix 16 rest')
              else if Ascii.eqb k "o" || Ascii.eqb k "O" then Some (radix 8 rest')
              else if Ascii.eqb k "b" || Ascii.eqb k "B" then Some (radix 2 rest')
              else None
            else None
        | [] => None
        end in
      match prefixed with
      | Some v => v
      | None =>
          if Ascii.eqb c "+" then unsigned_decimal false rest
          else if Ascii.eqb c "-" then unsigned_decimal true rest
          else unsigned_decimal false (c :: rest)
      end
  end.

End Numeric.

Module cartApi.
(** The calls of [cartApi] (src/services/api.ts) that the provider makes,
    with their arguments. *)
Inductive Call : Type :=
| getCart (token : string)
| addToCart (bookId : string) (quantity : Z) (token : string)
| updateCart (itemId : string) (quantity : Z) (token : string)
| removeFromCart (itemId : string) (token : string).

(** The [bookId] member that [addToCart] puts in the body of POST
    /cart/add: [JSON.stringify({ bookId: Number(bookId), quantity })]. *)
Definition body_bookId (bookId : string) : Numeric.Value := Numeric.Number bookId.
End cartApi.

Module Cart.
Import JS.
Local Open Scope Z_scope.

Record CartItem : Type := mkCartItem {
  id : string;
  book_id : string;
  quantity : Z;
  book : Book.t;
}.

(** [type CartAPIResponse = { cart?: { items: CartItem[] } } | { items: CartItem[] }].
    A value of the union is read through two optional members. *)
Record CartObject : Type := mkCartObject { cart_items : list CartItem }.
Record CartAPIResponse : Type := mkResponse {
  cart : option CartObject;
  items : option (list CartItem);
}.

(** [a || b] on [CartItem[] | undefined]: an array, even an empty one, is
    truthy, so only [undefined] falls through. *)
Definition or_else {X : Type} (a b : option (list X)) : option (list X) :=
  match a with
  | Some l => Some l
  | None => b
  end.

(** [response.cart?.items || response.items || []]. *)
Definition normalizeCart (response : CartAPIResponse) : list CartItem :=
  default [] (or_else (cart_items <$> cart response) (items response)).

(** The [useState] cells of [CartProvider]. *)
Record State : Type := mkState {
  cartItems : list CartItem;
  loading : bool;
}.

(** What the closures created by one render see: the session from
    [useAuth()] and the cells as they were when the component rendered. *)
Record Render : Type := mkRender {
  user : JSValue;
  token : option string;
  seen : State;
}.

(** A settled promise of a [cartApi] call.  The resolved value of the
    mutating calls is never read. *)
Definition Settled : Type := JSError + CartAPIResponse.

(** ** Async functions as effect trees *)

Inductive Task (A : Type) : Type :=
| Return (a : A)
| Throw (e : JSError)
| SetCartItems (l : list CartItem) (k : Task A)
| SetLoading (b : bool) (k : Task A)
| ConsoleError (label : string) (e : JSError) (k : Task A)
| Await (c : cartApi.Call) (k : Settled -> Task A).

Arguments Return {A} a.
Arguments Throw {A} e.
Arguments SetCartItems {A} l k.
Arguments SetLoading {A} b k.
Arguments ConsoleError {A} label e k.
Arguments Await {A} c k.

Fixpoint bind {A B : Type} (t : Task A) (f : A -> Task B) : Task B :=
  match t with
  | Return a => f a
  | Throw e => Throw e
  | SetCartItems l k => SetCartItems l (bind k f)
  | SetLoading b k => SetLoading b (bind k f)
  | ConsoleError label e k => ConsoleError label e (bind k f)
  | Await c k => Await c (fun r => bind (k r) f)
  end.

#[export] Instance Task_ret : MRet Task := @Return.
#[export] Instance Task_bind : MBind Task := fun A B f t => bind t f.

(** [try { t } catch (e) { h e }]. *)
Fixpoint try_catch {A : Type} (t : Task A) (h : JSError -> Task A) : Task A :=
  match t with
  | Return a => Return a
  | Throw e => h e
  | SetCartItems l k => SetCartItems l (try_catch k h)
  | SetLoading b k => SetLoading b (try_catch k h)
  | ConsoleError label e k => ConsoleError label e (try_catch k h)
  | Await c k => Await c (fun r => try_catch (k r) h)
  end.

(** [try { t } finally { fin }]. *)
Fixpoint try_finally {A : Type} (t : Task A) (fin : Task unit) : Task A :=
  match t with
  | Return a => bind fin (fun _ => Return a)
  | Throw e => bind fin (fun _ => Throw e)
  | SetCartItems l k => SetCartItems l (try_finally k fin)
  | SetLoading b k => SetLoading b (try_finally k fin)
  | ConsoleError label e k => ConsoleError label e (try_finally k fin)
  | Await c k => Await c (fun r => try_finally (k r) fin)
  end.

(** [await cartApi.f(...)]: a rejection is rethrown at the [await]. *)
Definition await (c : cartApi.Call) : Task CartAPIResponse :=
  Await c (fun r => match r with inl e => Throw e | inr v => Return v end).

Definition setCartItems (l : list CartItem) : Task unit := SetCartItems l (Return tt).
Definition setLoading (b : bool) : Task unit := SetLoading b (Return tt).
Definition console_error (label : string) (e : JSError) : Task unit :=
  ConsoleError label e (Return tt).

(** The token once the guard [!token] has passed. *)
Definition the (s : option string) : string := default EmptyString s.

(** ** The provider's functions *)

Definition refreshCart (r : Render) : Task unit :=
  if negb (truthy (user r)) || negb (present (token r)) then
    setCartItems []
  else
    setLoading true;;
    try_finally
      (try_catch
         (response ← await (cartApi.getCart (the (token r)));
          setCartItems (normalizeCart response))
         (fun error => console_error "Error fetching cart:" error))
      (setLoading false).

Definition removeFromCart (r : Render) (itemId : string) : Task unit :=
  if negb (present (token r)) then Throw (Error "Must be logged in")
  else
    try_catch
      (await (cartApi.removeFromCart itemId (the (token r)));;
       refreshCart r)
      (fun error => console_error "Error removing from cart:" error;; Throw error).

Definition updateQuantity (r : Render) (itemId : string) (quantity : Z) : Task unit :=
  if negb (present (token r)) then Throw (Error "Must be logged in")
  else if quantity <=? 0 then
    removeFromCart r itemId
  else
    try_catch
      (await (cartApi.updateCart itemId quantity (the (token r)));;
       refreshCart r)
      (fun error => console_error "Error updating cart:" error;; Throw error).

(** [cartItems.find(item => item.book_id === bookId)]. *)
Definition find_line (bookId : string) (l : list CartItem) : option CartItem :=
  List.find (fun item => String.eqb (book_id item) bookId) l.

Definition addToCart (r : Render) (bookId : string) : Task unit :=
  if negb (truthy (user r)) || negb (present (token r)) then
    Throw (Error "Must be logged in")
  else
    match find_line bookId (cartItems (seen r)) with
    | Some existingItem =>
        updateQuantity r (id existingItem) (quantity existingItem + 1)
    | None =>
        try_catch
          (await (cartApi.addToCart bookId 1 (the (token r)));;
           refreshCart r)
          (fun error => console_error "Error adding to cart:" error;; Throw error)
    end.

(** [cartItems.reduce((sum, item) => sum + item.quantity, 0)]. *)
Definition cartCount (l : list CartItem) : Z :=
  foldl (fun sum item => sum + quantity item) 0 l.

(** ** Running a task to completion

    [serve] is the remote service: it answers one call and moves to its next
    state.  [run] performs the calls of a task one after the other, each
    promise settling before anything else happens. *)

Record World (S : Type) : Type := mkWorld {
  state : State;
  backend : S;
  wire : list cartApi.Call;          (* calls sent so far, oldest first *)
}.
Arguments mkWorld {S} state backend wire.
Arguments state {S} w.
Arguments backend {S} w.
Arguments wire {S} w.

Section Run.
Context {S : Type} (serve : cartApi.Call -> S -> Settled * S).

Fixpoint run {A : Type} (t : Task A) (w : World S) : (JSError + A) * World S :=
  match t with
  | Return a => (inr a, w)
  | Throw e => (inl e, w)
  | SetCartItems l k =>
      run k (mkWorld (mkState l (loading (state w))) (backend w) (wire w))
  | SetLoading b k =>
      run k (mkWorld (mkState (cartItems (state w)) b) (backend w) (wire w))
  | ConsoleError _ _ k => run k w
  | Await c k =>
      let '(reply, s') := serve c (backend w) in
      run (k reply) (mkWorld (state w) s' (wire w ++ [c]))
  end.

(** The component re-renders after every state change, so a handler that is
    invoked once the previous call has completed closes over the current
    cells. *)
Definition render (u : JSValue) (tok : option string) (w : World S) : Render :=
  mkRender u tok (state w).

Definition invoke (u : JSValue) (tok : option string)
    (f : Render -> Task unit) (w : World S) : (JSError + unit) * World S :=
  run (f (render u tok w)) w.

End Run.

(** ** Calls a task can issue

    [issues P t]: on some path through [t], whatever the replies, a call
    satisfying [P] is sent. *)
Inductive issues {A : Type} (P : cartApi.Call -> Prop) : Task A -> Prop :=
| issues_here c k : P c -> issues P (Await c k)
| issues_after c k reply : issues P (k reply) -> issues P (Await c k)
| issues_SetCartItems l k : issues P k -> issues P (SetCartItems l k)
| issues_SetLoading b k : issues P k -> issues P (SetLoading b k)
| issues_ConsoleError label e k : issues P k -> issues P (ConsoleError label e k).


(** A call that would store a quantity of zero or less on a line. *)
Definition sends_nonpositive (c : cartApi.Call) : Prop :=
  match c with
  | cartApi.addToCart _ q _ | cartApi.updateCart _ q _ => q <= 0
  | _ => False
  end.

(** ** Overlapping calls

    The UI thread runs one callback at a time; a task that reaches an
    [await] leaves its continuation behind and returns to the event loop.
    Requests and responses travel independently, so the service may answer a
    request long before the promise settles. *)

Inductive Flight : Type :=
| Sent (c : cartApi.Call) (k : Settled -> Task unit)      (* request not yet served *)
| Answered (reply : Settled) (k : Settled -> Task unit)   (* response on its way back *)
| Finished (outcome : JSError + unit).

(** The synchronous stretch of a task, up to its next [await]. *)
Fixpoint advance (t : Task unit) (st : State) : Flight * State :=
  match t with
  | Return a => (Finished (inr a), st)
  | Throw e => (Finished (inl e), st)
  | SetCartItems l k => advance k (mkState l (loading st))
  | SetLoading b k => advance k (mkState (cartItems st) b)
  | ConsoleError _ _ k => advance k st
  | Await c k => (Sent c k, st)
  end.

Inductive Event : Type :=
| Invoke (f : Render -> Task unit)   (* the UI calls a function of the current render *)
| Serve (i : nat)                    (* the service processes the request of flight [i] *)
| Settle (i : nat).                  (* the promise of flight [i] settles *)

Record System (S : Type) : Type := mkSystem {
  cells : State;
  remote : S;
  flights : list Flight;
}.
Arguments mkSystem {S} cells remote flights.
Arguments cells {S} s.
Arguments remote {S} s.
Arguments flights {S} s.

Section EventLoop.
Context {S : Type} (serve : cartApi.Call -> S -> Settled * S).
Context (u : JSValue) (tok : option string).

Definition step (sys : System S) (e : Event) : System S :=
  match e with
  | Invoke f =>
      let '(fl, st) := advance (f (mkRender u tok (cells sys))) (cells sys) in
      mkSystem st (remote sys) (flights sys ++ [fl])
  | Serve i =>
      match flights sys !! i with
      | Some (Sent c k) =>
          let '(reply, s') := serve c (remote sys) in
          mkSystem (cells sys) s' (<[i := Answered reply k]> (flights sys))
      | _ => sys
      end
  | Settle i =>
      match flights sys !! i with
      | Some (Answered reply k) =>
          let '(fl, st) := advance (k reply) (cells sys) in
          mkSystem st (remote sys) (<[i := fl]> (flights sys))
      | _ => sys
      end
  end.

Definition play (events : list Event) (sys : System S) : System S :=
  foldl step sys events.

End EventLoop.

(** The response that flight [i] is carrying back, if it has been served. *)
Definition answered {S : Type} (i : nat) (sys : System S) : option Settled :=
  match flights sys !! i with
  | Some (Answered reply _) => Some reply
  | _ => None
  end.

End Cart.

(* ===================================================================== *)
(** * A reference backend (cart routes of BACKEND_EXAMPLE.md) *)
(* ===================================================================== *)

Module Backend.
Import JS Cart.
Local Open Scope Z_scope.

(** What varies between deployments: the books table, whether POST
    /cart/add folds a repeated book into its existing row (the documented
    route does) or inserts a row per call, and which envelope GET /cart
    uses.  The client sends the book as a number, so the books table is
    keyed by whole numbers, written in decimal; a row gives its [book_id]
    back as that decimal string, the type that [CartItem] declares.  (With
    the UUID keys of BACKEND_SETUP.md no number is a key.) *)
Record Config : Type := mkConfig {
  catalog : string -> option Book.t;
  merge_on_add : bool;
  nested_envelope : bool;
}.

Record Server : Type := mkServer {
  rows : list CartItem;        (* cart_items of the user, newest first *)
  next_id : Z;                 (* the serial that numbers the next row *)
  session : string;            (* the token that authMiddleware accepts *)
}.

(** An error response in the documented envelope, as [fetchAPI] reports it. *)
Definition reject (st : Z) (text code message : string) : JSError :=
  Gateway.new_ApiError st text
    (Gateway.error_message
       (JObj [("error", JObj [("code", JStr code); ("message", JStr message)])])).

(** The body of a successful mutation carries neither [cart] nor [items]. *)
Definition done : CartAPIResponse := mkResponse None None.

Definition envelope (cfg : Config) (l : list CartItem) : CartAPIResponse :=
  if nested_envelope cfg then mkResponse (Some (mkCartObject l)) None
  else mkResponse None (Some l).

Definition has_id (i : string) (r : CartItem) : bool := String.eqb (id r) i.
Definition has_book (b : string) (r : CartItem) : bool := String.eqb (book_id r) b.
Definition set_quantity (q : Z) (r : CartItem) : CartItem :=
  mkCartItem (id r) (book_id r) q (book r).

Definition with_rows (l : list CartItem) (s : Server) : Server :=
  mkServer l (next_id s) (session s).

Definition route (cfg : Config) (c : cartApi.Call) (s : Server) : Settled * Server :=
  match c with
  | cartApi.getCart _ => (inr (envelope cfg (rows s)), s)
  | cartApi.addToCart bookId q _ =>
      match cartApi.body_bookId bookId with
      | Numeric.Integer z =>
          let b := pretty z in
          if merge_on_add cfg && existsb (has_book b) (rows s) then
            (inr done,
             with_rows (map (fun r => if has_book b r then set_quantity (quantity r + q) r
                                      else r)
                            (rows s)) s)
          else
            match catalog cfg b with
            | Some bk =>
                (inr done,
                 mkServer (mkCartItem (pretty (next_id s)) b q bk :: rows s)
                          (next_id s + 1) (session s))
            | None =>
                (inl (reject 500 "Internal Server Error" "SERVER_ERROR" "no such book"), s)
            end
      | _ =>
          (* [null] or a fraction: the insert fails on the [book_id] column *)
          (inl (reject 500 "Internal Server Error" "SERVER_ERROR" "no such book"), s)
      end
  | cartApi.updateCart i q _ =>
      if q <=? 0 then
        (inr done, with_rows (List.filter (fun r => negb (has_id i r)) (rows s)) s)
      else if existsb (has_id i) (rows s) then
        (inr done,
         with_rows (map (fun r => if has_id i r then set_quantity q r else r) (rows s)) s)
      else (inl (reject 404 "Not Found" "NOT_FOUND" "Cart item not found"), s)
  | cartApi.removeFromCart i _ =>
      if existsb (has_id i) (rows s) then
        (inr done, with_rows (List.filter (fun r => negb (has_id i r)) (rows s)) s)
      else (inl (reject 404 "Not Found" "NOT_FOUND" "Cart item not found"), s)
  end.

Definition token_of (c : cartApi.Call) : string :=
  match c with
  | cartApi.getCart t | cartApi.addToCart _ _ t
  | cartApi.updateCart _ _ t | cartApi.removeFromCart _ t => t
  end.

(** [authMiddleware] in front of the cart routes. *)
Definition serve (cfg : Config) (c : cartApi.Call) (s : Server) : Settled * Server :=
  if String.eqb (token_of c) (session s) then route cfg c s
  else (inl (reject 401 "Unauthorized" "INVALID_TOKEN" "Invalid or expired token"), s).

End Backend.

(* ===================================================================== *)
(** * Chat widget (src/components/ChatWidget.tsx) *)
(* ===================================================================== *)

Module Chat.
Import JS.

(** A [WebSocket] created by the widget.  [armed] tells whether its
    [onclose] handler is still installed ([onclose = null] disarms it). *)
Record Socket : Type := mkSocket {
  armed : bool;
  closed : bool;
}.

(** The widget between two callbacks.  [sockets] lists every socket that
    [new WebSocket] has created, oldest first, so its length counts the
    connection attempts; [current] is [socketRef.current]; [timers] counts
    the reconnect timeouts that are scheduled. *)
Record State : Type := mkState {
  messages : list JSValue;
  isConnected : bool;
  sockets : list Socket;
  current : option nat;
  timers : nat;
  fetching : nat;              (* history requests in flight *)
}.

Definition initial : State := mkState [] false [] None 0 0.

(** The session values captured by the widget's closures. *)
Record Session : Type := mkSession {
  user : JSValue;
  token : option string;
}.

Definition setMessages (f : list JSValue -> list JSValue) (st : State) : State :=
  mkState (f (messages st)) (isConnected st) (sockets st) (current st) (timers st)
          (fetching st).
Definition setIsConnected (b : bool) (st : State) : State :=
  mkState (messages st) b (sockets st) (current st) (timers st) (fetching st).

(** [socketRef.current.onclose = null; socketRef.current.close()]. *)
Definition disarm_and_close (st : State) : State :=
  match current st with
  | Some i =>
      mkState (messages st) (isConnected st)
              (<[i := mkSocket false true]> (sockets st)) (current st) (timers st)
              (fetching st)
  | None => st
  end.

Definition connectWebSocket (se : Session) (st : State) : State :=
  if negb (present (token se)) then st
  else
    let st := disarm_and_close st in
    mkState (messages st) (isConnected st)
            (sockets st ++ [mkSocket true false])
            (Some (length (sockets st))) (timers st) (fetching st).

(** [fetchHistory] up to its first [await]. *)
Definition fetchHistory (se : Session) (st : State) : State :=
  if negb (present (token se)) then st
  else mkState (messages st) (isConnected st) (sockets st) (current st) (timers st)
               (S (fetching st)).

(** The rest of [fetchHistory]: [fetched] is what [await fetch(...)]
    followed by [await res.json()] settles to, the value that the body
    parses to or the rejection of either.  Any rejection is caught and
    logged. *)
Definition history_settled (fetched : JSError + JSValue) (st : State) : State :=
  let st := mkState (messages st) (isConnected st) (sockets st) (current st) (timers st)
                    (pred (fetching st)) in
  match fetched with
  | inr (JArr data) => setMessages (fun _ => data) st
  | _ => st
  end.

(** [ws.onmessage]; [parsed] is the outcome of [JSON.parse(event.data)]:
    the value, or the error that it throws and the handler catches. *)
Definition onmessage (parsed : JSError + JSValue) (st : State) : State :=
  match parsed with
  | inl _ => st
  | inr d =>
      match get_strict d "type" with
      | inl _ => st
      | inr t =>
          if strict_eq_str t "chat"
          then setMessages (fun prev => prev ++ [get d "payload"]) st
          else st
      end
  end.

(** [ws.onclose], while installed: note the disconnect and schedule a
    reconnect 3 s later. *)
Definition onclose (st : State) : State :=
  let st := setIsConnected false st in
  mkState (messages st) (isConnected st) (sockets st) (current st) (S (timers st))
          (fetching st).

Inductive Event : Type :=
| Mount                                   (* the effect on [token, user] runs *)
| Open (i : nat)                          (* socket [i] connected *)
| Message (i : nat) (parsed : JSError + JSValue)
                                          (* a frame on socket [i], as [JSON.parse] reads it *)
| Error (i : nat)                         (* error event on socket [i] *)
| Close (i : nat)                         (* close event on socket [i] *)
| Timeout                                 (* a reconnect timer fires *)
| History (fetched : JSError + JSValue)   (* the history request settles *)
| Unmount.                                (* the effect's cleanup runs *)

Definition live (i : nat) (st : State) : bool :=
  match sockets st !! i with
  | Some s => negb (closed s)
  | None => false
  end.

Definition mark_closed (i : nat) (st : State) : State :=
  match sockets st !! i with
  | Some s =>
      mkState (messages st) (isConnected st) (<[i := mkSocket (armed s) true]> (sockets st))
              (current st) (timers st) (fetching st)
  | None => st
  end.

Definition step (se : Session) (st : State) (e : Event) : State :=
  match e with
  | Mount =>
      if present (token se) && truthy (user se)
      then fetchHistory se (connectWebSocket se st)
      else st
  | Open i => if live i st then setIsConnected true st else st
  | Message i parsed => if live i st then onmessage parsed st else st
  | Error i => st
  | Close i =>
      match sockets st !! i with
      | Some s =>
          if closed s then st
          else if armed s then onclose (mark_closed i st) else mark_closed i st
      | None => st
      end
  | Timeout =>
      match timers st with
      | O => st
      | S n =>
          let st := mkState (messages st) (isConnected st) (sockets st) (current st) n
                            (fetching st) in
          if truthy (user se) && present (token se) then connectWebSocket se st else st
      end
  | History fetched =>
      match fetching st with
      | O => st
      | S _ => history_settled fetched st
      end
  | Unmount => disarm_and_close st
  end.

Definition play (se : Session) (events : list Event) (st : State) : State :=
  foldl (step se) st events.

(** Number of [new WebSocket] calls so far. *)
Definition attempts (st : State) : nat := length (sockets st).

(** A handshake that the server refuses surfaces in the browser as an error
    event followed by a close event on that socket. *)
Definition rejected (i : nat) : list Event := [Error i; Close i].

(** [n] refused handshakes in a row, each followed by the 3 s timer. *)
Fixpoint refusals (first n : nat) : list Event :=
  match n with
  | O => []
  | S n' => rejected first ++ [Timeout] ++ refusals (S first) n'
  end.

(** ** What the merge of history and live frames is expected to produce *)

Definition msg_id (m : JSValue) : JSValue := get m "id".
Definition created_at (m : JSValue) : Z :=
  match get m "created_at" with JNum t => t | _ => 0%Z end.

Definition same_id (a b : JSValue) : bool :=
  match msg_id a, msg_id b with
  | JNum x, JNum y => (x =? y)%Z
  | _, _ => false
  end.

Definition occurrences (m : JSValue) (l : list JSValue) : nat :=
  length (List.filter (same_id m) l).

Fixpoint ordered (l : list JSValue) : bool :=
  match l with
  | a :: ((b :: _) as rest) => (created_at a <=? created_at b)%Z && ordered rest
  | _ => true
  end.

(** Every delivered message occurs exactly once and the list is in
    timestamp order. *)
Definition merged (delivered final : list JSValue) : Prop :=
  (forall m, In m delivered -> occurrences m final = 1%nat) /\ ordered final = true.

(** The payload that a frame appends, if it is a chat frame. *)
Definition chat_payload (parsed : JSError + JSValue) : option JSValue :=
  match parsed with
  | inr d =>
      match get_strict d "type" with
      | inr t => if strict_eq_str t "chat" then Some (get d "payload") else None
      | inl _ => None
      end
  | inl _ => None
  end.

(** The array that a settled history request installs, if any. *)
Definition history_payload (fetched : JSError + JSValue) : option (list JSValue) :=
  match fetched with
  | inr (JArr data) => Some data
  | _ => None
  end.

End Chat.

(* ===================================================================== *)
(** * Notification socket of [AppContent] (src/App.tsx) *)
(* ===================================================================== *)

Module Notifier.
Import JS.

(** The two refs, the [ws] cell, the cleanup that the last effect run
    returned, and the number of [new WebSocket] calls so far.  Sockets are
    named by their creation index. *)
Record State : Type := mkState {
  wsUnauthorizedRef : bool;
  wsConnectingRef : bool;
  ws : option nat;
  cleanup : option nat;
  toast : option string;
  attempts : nat;
}.

Definition initial : State := mkState false false None None None 0.

(** The cleanup of the previous run: [socket?.close(); setWs(null)]. *)
Definition run_cleanup (st : State) : State :=
  match cleanup st with
  | Some _ =>
      mkState (wsUnauthorizedRef st) (wsConnectingRef st) None None (toast st) (attempts st)
  | None => st
  end.

(** One run of the effect on [token, ws].  [rendered_ws] is the [ws] that
    the render saw; [url_ok] tells whether [new WebSocket(url)] accepts the
    URL or throws. *)
Definition effect (token : option string) (url_ok : bool) (st : State) : State :=
  let rendered_ws := ws st in
  let st := run_cleanup st in
  if negb (present token) || wsUnauthorizedRef st || wsConnectingRef st then
    if negb (present token) && bool_decide (is_Some rendered_ws) then
      mkState (wsUnauthorizedRef st) (wsConnectingRef st) None None (toast st) (attempts st)
    else st
  else if url_ok then
    let socket := attempts st in
    mkState (wsUnauthorizedRef st) true (Some socket) (Some socket) (toast st)
            (S (attempts st))
  else
    mkState (wsUnauthorizedRef st) false (ws st) None (toast st) (attempts st).

(** [socket.onmessage]; [parsed] is the outcome of [JSON.parse(evt.data)]:
    the value, or the error that it throws and the handler catches. *)
Definition onmessage (parsed : JSError + JSValue) (st : State) : State :=
  match parsed with
  | inr d =>
      match get_opt d "message" with
      | JStr m =>
          mkState (wsUnauthorizedRef st) (wsConnectingRef st) (ws st) (cleanup st) (Some m)
                  (attempts st)
      | _ => st
      end
  | inl _ => st
  end.

Inductive Event : Type :=
| Effect (token : option string) (url_ok : bool)   (* React runs the effect *)
| Open                                             (* socket.onopen *)
| Message (parsed : JSError + JSValue)              (* socket.onmessage *)
| Error                                            (* socket.onerror *)
| Close.                                           (* socket.onclose *)

Definition step (st : State) (e : Event) : State :=
  match e with
  | Effect token url_ok => effect token url_ok st
  | Open =>
      mkState (wsUnauthorizedRef st) false (ws st) (cleanup st) (toast st) (attempts st)
  | Message parsed => onmessage parsed st
  | Error => mkState true false (ws st) (cleanup st) (toast st) (attempts st)
  | Close =>
      mkState (wsUnauthorizedRef st) false (ws st) (cleanup st) (toast st) (attempts st)
  end.

Definition play (events : list Event) (st : State) : State := foldl step st events.

End Notifier.

(* ===================================================================== *)
(** * Catalog query pipeline
      (src/components/BookCatalog.tsx, src/App.tsx) *)
(* ===================================================================== *)

Module Catalog.
Import JS.
Local Open Scope Z_scope.

Inductive SortOption : Type := newest | price_asc | price_desc | rating | bestseller.

(** [interface FilterParams]: every member is optional. *)
Record FilterParams : Type := mkFilterParams {
  categories : option (list string);
  minPrice : option Z;
  maxPrice : option Z;
  minRating : option Z;
  sortBy : option SortOption;
  search : option string;
  page : option Z;
  limit : option Z;
}.

(** ** [BookCatalog] *)

Inductive ViewMode : Type := grid | list_view.

(** The [useState] cells of [BookCatalog]. *)
Record View : Type := mkView {
  viewMode : ViewMode;
  view_sortBy : SortOption;
  selectedCategories : list string;
  priceRange : Z * Z;
  view_minRating : Z;
  selectedLetter : string;
  showFilters : bool;
  currentPage : Z;
}.

Definition ITEMS_PER_PAGE : Z := 12.

Definition initial_view : View :=
  mkView grid newest [] (0, 500000) 0 EmptyString false 1.

Definition setSortBy (v : SortOption) (s : View) : View :=
  mkView (viewMode s) v (selectedCategories s) (priceRange s) (view_minRating s)
         (selectedLetter s) (showFilters s) (currentPage s).
Definition setSelectedCategories (v : list string) (s : View) : View :=
  mkView (viewMode s) (view_sortBy s) v (priceRange s) (view_minRating s)
         (selectedLetter s) (showFilters s) (currentPage s).
Definition setPriceRange (v : Z * Z) (s : View) : View :=
  mkView (viewMode s) (view_sortBy s) (selectedCategories s) v (view_minRating s)
         (selectedLetter s) (showFilters s) (currentPage s).
Definition setMinRating (v : Z) (s : View) : View :=
  mkView (viewMode s) (view_sortBy s) (selectedCategories s) (priceRange s) v
         (selectedLetter s) (showFilters s) (currentPage s).
Definition setSelectedLetter (v : string) (s : View) : View :=
  mkView (viewMode s) (view_sortBy s) (selectedCategories s) (priceRange s)
         (view_minRating s) v (showFilters s) (currentPage s).
Definition setCurrentPage (v : Z) (s : View) : View :=
  mkView (viewMode s) (view_sortBy s) (selectedCategories s) (priceRange s)
         (view_minRating s) (selectedLetter s) (showFilters s) v.

Definition handleClearFilters (s : View) : View :=
  setCurrentPage 1
    (setSortBy newest
       (setSelectedLetter EmptyString
          (setMinRating 0 (setPriceRange (0, 500000) (setSelectedCategories [] s))))).

Definition handleSortChange (value : SortOption) (s : View) : View :=
  setCurrentPage 1 (setSortBy value s).

Definition handleCategoryChange (cats : list string) (s : View) : View :=
  setCurrentPage 1 (setSelectedCategories cats s).

Definition handlePriceChange (range : Z * Z) (s : View) : View :=
  setCurrentPage 1 (setPriceRange range s).

Definition handleRatingChange (r : Z) (s : View) : View :=
  setCurrentPage 1 (setMinRating r s).

Definition handleLetterChange (letter : string) (s : View) : View :=
  setCurrentPage 1 (setSelectedLetter letter s).

Definition handlePageChange (p : Z) (s : View) : View := setCurrentPage p s.

(** The [filterParams] that the filter-change effect hands to
    [onFilterChange]; [searchQuery] is a prop. *)
Definition filterParams (s : View) (searchQuery : string) : FilterParams :=
  mkFilterParams
    (if (0 <? Z.of_nat (length (selectedCategories s)))
     then Some (selectedCategories s) else None)
    (Some (fst (priceRange s)))
    (Some (snd (priceRange s)))
    (if 0 <? view_minRating s then Some (view_minRating s) else None)
    (Some (view_sortBy s))
    (Some searchQuery)
    (Some (currentPage s))
    (Some ITEMS_PER_PAGE).

(** ** [AppContent] *)

(** [interface FilterState]. *)
Record FilterState : Type := mkFilterState {
  fs_categories : list string;
  fs_minPrice : Z;
  fs_maxPrice : Z;
  fs_minRating : Z;
  fs_sortBy : SortOption;
  fs_search : string;
  fs_page : Z;
  fs_limit : Z;
}.

Definition initial_filters : FilterState :=
  mkFilterState [] 0 500000 0 newest EmptyString 1 12.

(** [n || d] on [number | undefined]: zero is falsy. *)
Definition num_or (n : option Z) (d : Z) : Z :=
  match n with
  | Some v => if v =? 0 then d else v
  | None => d
  end.

(** [x ?? d]. *)
Definition nullish_or {X : Type} (x : option X) (d : X) : X := default d x.

Definition handleFilterChange (fp : FilterParams) (prev : FilterState) : FilterState :=
  mkFilterState
    (default [] (categories fp))
    (nullish_or (minPrice fp) (fs_minPrice prev))
    (nullish_or (maxPrice fp) (fs_maxPrice prev))
    (nullish_or (minRating fp) (fs_minRating prev))
    (default (fs_sortBy prev) (sortBy fp))
    (nullish_or (search fp) (fs_search prev))
    (num_or (page fp) 1)
    (num_or (limit fp) (fs_limit prev)).

(** The [(sort_by, sort_order)] pair chosen by the [switch]. *)
Definition sort_clause (s : SortOption) : string * string :=
  match s with
  | price_asc => ("price", "asc")
  | price_desc => ("price", "desc")
  | rating => ("rating_avg", "desc")
  | bestseller => ("sold", "desc")
  | newest => ("created_at", "desc")
  end.

Definition append_if (c : bool) (k v : string) (q : list (string * string))
  : list (string * string) :=
  if c then q ++ [(k, v)] else q.

(** [n?.toString() || d]: the decimal form of a number is never empty. *)
Definition num_text_or (n : option Z) (d : string) : string :=
  match n with Some v => pretty v | None => d end.

(** [buildQueryString]: the entries appended to the [URLSearchParams], in
    order; [query.toString()] serialises them as they stand. *)
Definition buildQueryString (params : FilterParams) : list (string * string) :=
  let query := [("page", num_text_or (page params) "1");
                ("limit", num_text_or (limit params) "20")] in
  let query :=
    match categories params with
    | Some cats => append_if (0 <? Z.of_nat (length cats)) "categories" (join "," cats) query
    | None => query
    end in
  let query :=
    match minPrice params with
    | Some v => query ++ [("min_price", pretty v)]
    | None => query
    end in
  let query :=
    match maxPrice params with
    | Some v => query ++ [("max_price", pretty v)]
    | None => query
    end in
  let query :=
    match minRating params with
    | Some v => append_if (0 <? v) "min_rating" (pretty v) query
    | None => query
    end in
  let query :=
    match search params with
    | Some text => append_if (negb (String.eqb text EmptyString)) "search" text query
    | None => query
    end in
  let '(sortField, sortOrder) := sort_clause (default newest (sortBy params)) in
  query ++ [("sort_by", sortField); ("sort_order", sortOrder)].

(** A [FilterState] is passed where [FilterParams] is expected: every
    member is present. *)
Definition as_params (f : FilterState) : FilterParams :=
  mkFilterParams (Some (fs_categories f)) (Some (fs_minPrice f)) (Some (fs_maxPrice f))
                 (Some (fs_minRating f)) (Some (fs_sortBy f)) (Some (fs_search f))
                 (Some (fs_page f)) (Some (fs_limit f)).

(** [URLSearchParams.get]. *)
Fixpoint query_get (k : string) (q : list (string * string)) : option string :=
  match q with
  | [] => None
  | (k', v) :: rest => if String.eqb k k' then Some v else query_get k rest
  end.

(** The page as [AppContent] and [BookCatalog] hold it between them. *)
Record App : Type := mkApp {
  searchQuery : string;
  filters : FilterState;
  view : View;
}.

Definition initial_app : App := mkApp EmptyString initial_filters initial_view.

(** What the user can do to the filters. *)
Inductive Action : Type :=
| SortChange (value : SortOption)
| CategoryChange (cats : list string)
| PriceChange (range : Z * Z)
| RatingChange (r : Z)
| LetterChange (letter : string)
| ClearFilters
| SearchChange (text : string)      (* Header's onSearchChange = setSearchQuery *)
| PageChange (p : Z).

Definition dispatch (a : Action) (app : App) : App :=
  match a with
  | SortChange v => mkApp (searchQuery app) (filters app) (handleSortChange v (view app))
  | CategoryChange c => mkApp (searchQuery app) (filters app) (handleCategoryChange c (view app))
  | PriceChange r => mkApp (searchQuery app) (filters app) (handlePriceChange r (view app))
  | RatingChange r => mkApp (searchQuery app) (filters app) (handleRatingChange r (view app))
  | LetterChange l => mkApp (searchQuery app) (filters app) (handleLetterChange l (view app))
  | ClearFilters => mkApp (searchQuery app) (filters app) (handleClearFilters (view app))
  | SearchChange t => mkApp t (filters app) (view app)
  | PageChange p => mkApp (searchQuery app) (filters app) (handlePageChange p (view app))
  end.

(** Once the input has been quiet for the two 300 ms debounces:
    [BookCatalog]'s effect calls [onFilterChange], then [AppContent]'s
    effect builds the query from the new [filters]. *)
Definition settle (app : App) : App :=
  mkApp (searchQuery app)
        (handleFilterChange (filterParams (view app) (searchQuery app)) (filters app))
        (view app).

Definition next_query (app : App) : list (string * string) :=
  buildQueryString (as_params (filters (settle app))).

(** The actions that change a filter field or the search text. *)
Definition changes_filter (a : Action) : bool :=
  match a with PageChange _ => false | _ => true end.

(** ** Response normalisation ([normalizeBook], src/App.tsx) *)

(** [interface BookCatalogCategory].  [id] is always built by [String(...)]
    or from a string and the two dates are always numbers; the other
    members are copied from the response as they are. *)
Record BookCatalogCategory : Type := mkCategory {
  cat_id : string;
  cat_name : JSValue;
  cat_slug : JSValue;
  cat_description : JSValue;
  cat_created_at : Z;
  cat_updated_at : Z;
}.

(** [interface BookCatalogBook]; the scalar members are copied from the
    response as they are. *)
Record BookCatalogBook : Type := mkBook {
  id : JSValue;
  title : JSValue;
  author : JSValue;
  price : JSValue;
  image_url : JSValue;
  excerpt : JSValue;
  category : BookCatalogCategory;
  rating_avg : JSValue;
  rating_count : JSValue;
  stock : JSValue;
}.

Definition lower (c : ascii) : ascii :=
  let n := nat_of_ascii c in
  if ((65 <=? n) && (n <=? 90))%nat then ascii_of_nat (n + 32) else c.

(** [s.toLowerCase()], on the ASCII letters. *)
Fixpoint toLowerCase (s : string) : string :=
  match s with
  | EmptyString => EmptyString
  | String c rest => String (lower c) (toLowerCase rest)
  end.

(** The ASCII characters of the class [\s]. *)
Definition is_space (c : ascii) : bool :=
  let n := nat_of_ascii c in
  ((9 <=? n) && (n <=? 13) || (n =? 32))%nat.

(** [s.replace(/\s+/g, '-')]: every run of white space becomes one dash.
    [in_run] tells whether the previous character was white space. *)
Fixpoint dash_spaces (in_run : bool) (s : string) : string :=
  match s with
  | EmptyString => EmptyString
  | String c rest =>
      if is_space c
      then if in_run then dash_spaces true rest else String "-" (dash_spaces true rest)
      else String c (dash_spaces false rest)
  end.

(** [typeof v === 'number' ? v : Date.now()]. *)
Definition number_or_now (now : Z) (v : JSValue) : Z :=
  match v with JNum n => n | _ => now end.

(** The object branch of [normalizeBook], also the body of the [map] in
    [fetchCategories]. *)
Definition normalizeCategory (now : Z) (cat : JSValue) : BookCatalogCategory :=
  mkCategory (to_string (get cat "id"))
             (get cat "name")
             (get cat "slug")
             (or (get cat "description") (JStr EmptyString))
             (number_or_now now (get cat "created_at"))
             (number_or_now now (get cat "updated_at")).

(** [normalizeBook(book, categoryMap)]; [now] is the reading of
    [Date.now()], [None] is the [null] result. *)
Definition normalizeBook (now : Z) (book : JSValue)
    (categoryMap : gmap string BookCatalogCategory)
  : JSError + option BookCatalogBook :=
  if nullish book then inl TypeError
  else
    let category :=
      match get book "category" with
      | JStr c =>
          Some (default
                  (mkCategory c (JStr c) (JStr (dash_spaces false (toLowerCase c)))
                              (JStr EmptyString) now now)
                  (categoryMap !! c))
      | (JObj _ | JArr _) as cat => Some (normalizeCategory now cat)
      | _ => None
      end in
    match category with
    | None => inr None
    | Some category =>
        inr (Some (mkBook (get book "id") (get book "title") (get book "author")
                          (get book "price")
                          (or (or (get book "image_url") (get book "cover_url")) JNull)
                          (get book "excerpt")
                          category
                          (get book "rating_avg") (get book "rating_count")
                          (get book "stock")))
    end.

(** [categories.forEach(cat => categoryMap.set(cat.id, cat))]. *)
Definition build_categoryMap (categories : list BookCatalogCategory)
  : gmap string BookCatalogCategory :=
  foldl (fun m cat => <[cat_id cat := cat]> m) ∅ categories.

(** [booksArray.map(book => normalizeBook(book, categoryMap))
             .filter(book => book !== null)]. *)
Fixpoint normalizedBooks (now : Z) (categoryMap : gmap string BookCatalogCategory)
    (booksArray : list JSValue) : JSError + list BookCatalogBook :=
  match booksArray with
  | [] => inr []
  | book :: rest =>
      match normalizeBook now book categoryMap with
      | inl e => inl e
      | inr b =>
          match normalizedBooks now categoryMap rest with
          | inl e => inl e
          | inr bs => inr (match b with Some b => b :: bs | None => bs end)
          end
      end
  end.

(** The books that [fetchBooksWithFilters] hands to [setBooks]:
    [response.books || response.data?.books || response.books || []], then
    normalised.  An exception leaves the list as it was (the [catch] only
    logs). *)
Definition books_of_response (now : Z) (categories : list BookCatalogCategory)
    (response : JSValue) : JSError + list BookCatalogBook :=
  if nullish response then inl TypeError
  else
    let booksArray :=
      or (or (or (get response "books") (get_opt (get response "data") "books"))
             (get response "books"))
         (JArr []) in
    match booksArray with
    | JArr l => normalizedBooks now (build_categoryMap categories) l
    | _ => inl TypeError
    end.

(** The category member is a string or an object (arrays included). *)
Definition has_category (book : JSValue) : bool :=
  match get book "category" with
  | JStr _ | JObj _ | JArr _ => true
  | _ => false
  end.

End Catalog.

(* ===================================================================== *)
(** * Concrete sessions used by the examples *)
(* ===================================================================== *)

Module Scenario.
Import JS.
Local Open Scope Z_scope.

Definition dune : Book.t := Book.mk "42" "Dune" "Frank Herbert" 189000 None 5.
Definition emma : Book.t := Book.mk "43" "Emma" "Jane Austen" 99000 None 2.

Definition books (b : string) : option Book.t :=
  if String.eqb b "42" then Some dune
  else if String.eqb b "43" then Some emma
  else None.

Definition shopper : JSValue := JObj [("id", JNum 1); ("email", JStr "reader@example.vn")].
Definition bearer : string := "eyJhbGciOi".

(** The documented backend: repeated adds are folded, flat envelope. *)
Definition documented : Backend.Config := Backend.mkConfig books true false.

(** A backend that inserts a row per add and answers in the nested
    envelope. *)
Definition appending : Backend.Config := Backend.mkConfig books false true.

Definition empty_cart : Backend.Server := Backend.mkServer [] 1 bearer.
Definition idle : Cart.State := Cart.mkState [] false.

(** A render that already shows three copies of Dune on line 7. *)
Definition line7 : Cart.CartItem := Cart.mkCartItem "7" "42" 3 dune.
Definition showing_dune : Cart.State := Cart.mkState [line7] false.
Definition signed_in (st : Cart.State) : Cart.Render :=
  Cart.mkRender shopper (Some bearer) st.

(** Two overlapping adds: the refresh of the first is answered before the
    second add reaches the service, and both refresh responses are still on
    their way back. *)
Definition add (b : string) : Cart.Render -> Cart.Task unit :=
  fun r => Cart.addToCart r b.

Definition overlapping : list Cart.Event :=
  [Cart.Invoke (add "42"); Cart.Serve 0; Cart.Settle 0; Cart.Serve 0;
   Cart.Invoke (add "43"); Cart.Serve 1; Cart.Settle 1; Cart.Serve 1].

Definition start : Cart.System Backend.Server := Cart.mkSystem idle empty_cart [].

Definition in_flight : Cart.System Backend.Server :=
  Cart.play (Backend.serve documented) shopper (Some bearer) overlapping start.

(** The second refresh settles first, the first one last. *)
Definition landed : Cart.System Backend.Server :=
  Cart.play (Backend.serve documented) shopper (Some bearer)
            [Cart.Settle 1; Cart.Settle 0] in_flight.

Definition cart_with (l : list Cart.CartItem) : Cart.CartAPIResponse :=
  Cart.mkResponse None (Some l).

Definition dune_line : Cart.CartItem := Cart.mkCartItem "1" "42" 1 dune.
Definition emma_line : Cart.CartItem := Cart.mkCartItem "2" "43" 1 emma.

(** Chat: three messages in the history and one live frame whose timestamp
    falls between the second and the third. *)
Definition message (n t : Z) (content : string) : JSValue :=
  JObj [("id", JNum n); ("content", JStr content); ("sender_id", JNum 1);
        ("created_at", JNum t); ("is_admin", JBool false)].

Definition m1 : JSValue := message 1 10 "one".
Definition m2 : JSValue := message 2 20 "two".
Definition m3 : JSValue := message 3 30 "three".
Definition m25 : JSValue := message 4 25 "between".

Definition message_text (n t : Z) (content : string) : string :=
  "{'id': " +:+ pretty n +:+ ", 'content': '" +:+ content +:+
  "', 'sender_id': 1, 'created_at': " +:+ pretty t +:+ ", 'is_admin': false}".

Definition history_body : string :=
  json_text ("[" +:+ message_text 1 10 "one" +:+ ", " +:+ message_text 2 20 "two" +:+
             ", " +:+ message_text 3 30 "three" +:+ "]").

Definition frame25 : string :=
  json_text ("{'type': 'chat', 'payload': " +:+ message_text 4 25 "between" +:+ "}").

Definition chatting : Chat.Session := Chat.mkSession shopper (Some bearer).

(** What [JSON.parse] and [res.json()] make of the two texts. *)
Definition frame25_parsed : JSValue := JObj [("type", JStr "chat"); ("payload", m25)].
Definition history_parsed : JSValue := JArr [m1; m2; m3].

(** The live frame arrives while the history request is still in flight. *)
Definition frame_then_history : list Chat.Event :=
  [Chat.Mount; Chat.Open 0; Chat.Message 0 (inr frame25_parsed);
   Chat.History (inr history_parsed)].

(** Catalog: page 3 of the fiction shelf. *)
Definition page3 : Catalog.App :=
  Catalog.mkApp EmptyString
    (Catalog.mkFilterState ["fiction"] 0 500000 0 Catalog.newest EmptyString 3 12)
    (Catalog.mkView Catalog.grid Catalog.newest ["fiction"] (0, 500000) 0 EmptyString
                    false 3).

(** Books as the catalog endpoint may return them. *)
Definition uncategorised : JSValue :=
  JObj [("id", JNum 9); ("title", JStr "Untitled"); ("category", JNull)].
Definition labelled : JSValue :=
  JObj [("id", JNum 8); ("title", JStr "Dune"); ("category", JStr "Science Fiction")].

End Scenario.

(* ===================================================================== *)
(** * Pagination bar of the catalog (src/components/BookCatalog.tsx) *)
(* ===================================================================== *)

Module Pagination.
Local Open Scope Z_scope.

Record Pagination : Type := mkPagination { total : Z; page : Z; limit : Z }.

Definition ITEMS_PER_PAGE : Z := 12.

(** [Math.ceil(a / b)] on integers, for a positive divisor. *)
Definition ceil_div (a b : Z) : Z := - (- a / b).

(** [const totalPages = pagination
      ? Math.ceil(pagination.total / ITEMS_PER_PAGE)
      : Math.ceil(books.length / ITEMS_PER_PAGE) || 1]. *)
Definition totalPages {X : Type} (pagination : option Pagination) (books : list X) : Z :=
  match pagination with
  | Some p => ceil_div (total p) ITEMS_PER_PAGE
  | None =>
      let n := ceil_div (Z.of_nat (length books)) ITEMS_PER_PAGE in
      if n =? 0 then 1 else n
  end.

(** [Array.prototype.slice(start, end)]: a negative index counts from the
    end, and both are clamped to the array. *)
Definition slice {X : Type} (start fin : Z) (l : list X) : list X :=
  let len := Z.of_nat (length l) in
  let k := if start <? 0 then Z.max (len + start) 0 else Z.min start len in
  let final := if fin <? 0 then Z.max (len + fin) 0 else Z.min fin len in
  take (Z.to_nat (final - k)) (drop (Z.to_nat k) l).

(** With server-side pagination the books are shown as received;
    otherwise the page is cut out of the list on the client. *)
Definition visibleBooks {X : Type} (pagination : option Pagination) (books : list X)
    (currentPage : Z) : list X :=
  match pagination with
  | Some _ => books
  | None => slice ((currentPage - 1) * ITEMS_PER_PAGE) (currentPage * ITEMS_PER_PAGE) books
  end.

(** The [filter] callback of the page buttons. *)
Definition shows (totalPages currentPage p : Z) : bool :=
  if totalPages <=? 7 then true
  else if (p =? 1) || (p =? totalPages) then true
  else if (currentPage - 1 <=? p) && (p <=? currentPage + 1) then true
  else false.

(** The [map] callback: [prevPage && page - prevPage > 1] decides whether
    an ellipsis is drawn in front of the button. *)
Fixpoint with_ellipsis (prev : option Z) (pages : list Z) : list (Z * bool) :=
  match pages with
  | [] => []
  | p :: rest =>
      (p, match prev with
          | Some q => negb (q =? 0) && (1 <? p - q)
          | None => false
          end) :: with_ellipsis (Some p) rest
  end.

(** [Array.from({ length: totalPages }, (_, i) => i + 1)]. *)
Definition all_pages (totalPages : Z) : list Z := seqZ 1 totalPages.

(** The numbers on the page buttons.  The whole pagination bar is inside
    [totalPages > 1 && (...)]: with a single page nothing is drawn. *)
Definition pageNumbers (totalPages currentPage : Z) : list Z :=
  if 1 <? totalPages
  then List.filter (shows totalPages currentPage) (all_pages totalPages)
  else [].

(** The numbered buttons that are drawn, each with the flag of the
    ellipsis in front of it. *)
Definition pageButtons (totalPages currentPage : Z) : list (Z * bool) :=
  with_ellipsis None (pageNumbers totalPages currentPage).

End Pagination.

(* ===================================================================== *)
(** * Category lookup and slugs (src/App.tsx) *)
(* ===================================================================== *)

Module Categories.
Import JS Catalog.

(** The categories whose id is [c]. *)
Definition named (c : string) (cat : BookCatalogCategory) : bool := String.eqb (cat_id cat) c.

Definition is_upper (ch : ascii) : bool :=
  let n := nat_of_ascii ch in ((65 <=? n) && (n <=? 90))%nat.

(** A character that a generated slug may contain: neither white space
    nor an upper-case letter. *)
Definition slug_char (ch : ascii) : bool := negb (is_space ch) && negb (is_upper ch).

(** A name written in ASCII only.  On such names [toLowerCase] and the
    white space class of the regular expression are the ASCII ones. *)
Definition ascii_only (s : string) : bool :=
  forallb (fun ch => (nat_of_ascii ch <? 128)%nat) (String.list_ascii_of_string s).

End Categories.

(* ===================================================================== *)
(** * JSON.stringify *)
(* ===================================================================== *)

Module JSONText.
Import JS.
Local Open Scope Z_scope.

Definition hex_digit (n : nat) : ascii :=
  if (n <? 10)%nat then ascii_of_nat (48 + n) else ascii_of_nat (87 + n).

Definition quote_mark : ascii := "034"%char.
Definition backslash : ascii := "\"%char.

(** [QuoteJSONString], one character at a time. *)
Definition escape_char (c : ascii) : string :=
  let n := nat_of_ascii c in
  if Ascii.eqb c quote_mark then String backslash (String quote_mark EmptyString)
  else if Ascii.eqb c backslash then String backslash (String backslash EmptyString)
  else if (n =? 8)%nat then "\b"
  else if (n =? 9)%nat then "\t"
  else if (n =? 10)%nat then "\n"
  else if (n =? 12)%nat then "\f"
  else if (n =? 13)%nat then "\r"
  else if (n <? 32)%nat then
    "\u00" +:+ String (hex_digit (n / 16)) (String (hex_digit (n mod 16)) EmptyString)
  else String c EmptyString.

Fixpoint escape (s : string) : string :=
  match s with
  | EmptyString => EmptyString
  | String c rest => escape_char c +:+ escape rest
  end.

Definition quote (s : string) : string :=
  String quote_mark (escape s +:+ String quote_mark EmptyString).

(** An array index as a property key: a canonical numeric string below
    [2^32 - 1].  Such keys are enumerated first, in ascending order. *)
Definition array_index (k : string) : option Z :=
  match parse_nat_lit (String.list_ascii_of_string k) with
  | Some (n, []) => if n <? 4294967295 then Some n else None
  | _ => None
  end.

Fixpoint insert_by_index {X : Type} (n : Z) (x : X) (l : list (Z * X)) : list (Z * X) :=
  match l with
  | [] => [(n, x)]
  | (m, y) :: rest => if n <? m then (n, x) :: l else (m, y) :: insert_by_index n x rest
  end.

(** [OrdinaryOwnPropertyKeys]: index keys ascending, then the other keys
    in insertion order. *)
Definition property_order {X : Type} (members : list (string * X)) : list (string * X) :=
  let indexed :=
    foldl (fun acc kv => match array_index (fst kv) with
                         | Some n => insert_by_index n kv acc
                         | None => acc
                         end) [] members in
  (snd <$> indexed)
  ++ List.filter (fun kv => match array_index (fst kv) with Some _ => false | None => true end)
                 members.

(** [JSON.stringify(v)]; [None] is the [undefined] result.  An array
    prints an [undefined] element as [null]; an object omits a member
    whose value is [undefined]. *)
Fixpoint JSON_stringify (v : JSValue) : option string :=
  match v with
  | JUndefined => None
  | JNull => Some "null"
  | JBool true => Some "true"
  | JBool false => Some "false"
  | JNum n => Some (pretty n)
  | JStr s => Some (quote s)
  | JArr elems =>
      Some ("[" +:+ join "," (map (fun e => default "null" (JSON_stringify e)) elems) +:+ "]")
  | JObj fields =>
      let members := map (fun kv => (fst kv, JSON_stringify (snd kv))) fields in
      Some ("{" +:+ join "," (omap (fun kv => text ← snd kv; Some (quote (fst kv) +:+ ":" +:+ text))
                                   (property_order members))
                +:+ "}")
  end.

(** The characters that [JSON_parse] reads back from their escaped form:
    everything but the control characters written as [\u00XX]. *)
Definition plain_char (c : ascii) : bool :=
  let n := nat_of_ascii c in
  ((32 <=? n) || (n =? 8) || (n =? 9) || (n =? 10) || (n =? 12) || (n =? 13))%nat.

Fixpoint plain (s : string) : bool :=
  match s with
  | EmptyString => true
  | String c rest => plain_char c && plain rest
  end.

End JSONText.

(* ===================================================================== *)
(** * Signing in and out (src/contexts/AuthContext.tsx) *)
(* ===================================================================== *)

Module Session.
Import JS Auth JSONText.

(** What [authApi.login] and [authApi.register] resolve to, as the cast
    [as { token: string; user: User }] reads it. *)
Record Credentials : Type := mkCredentials {
  newToken : string;
  newUser : JSValue;
}.

(** [localStorage.setItem(key, value)] stores [String(value)]; the value
    of [JSON.stringify] is a string or [undefined]. *)
Definition stored_text (text : option string) : string := default "undefined" text.

(** [signInWithEmail] and [signUpWithEmail] from the point where the
    request settles: the returned [error], the storage and the state. *)
Definition signIn (settled : JSError + Credentials)
    (storage : gmap string string) (st : State)
  : option JSError * gmap string string * State :=
  match settled with
  | inr response =>
      let storage := <[TOKEN_KEY := newToken response]> storage in
      let storage := <[USER_KEY := stored_text (JSON_stringify (newUser response))]> storage in
      (None, storage, setUser (newUser response) (setToken (Some (newToken response)) st))
  | inl error => (Some error, storage, st)
  end.

(** [signOut]: [logout] is the settled [authApi.logout], awaited only when
    the render holds a token; a rejection is caught and logged.  The first
    component tells whether the call was made. *)
Definition signOut (logout : JSError + JSValue)
    (storage : gmap string string) (st : State)
  : bool * gmap string string * State :=
  (present (token st),
   delete USER_KEY (delete TOKEN_KEY storage),
   setUser JNull (setToken None st)).

End Session.

(* ===================================================================== *)
(** * Sending a chat message (src/components/ChatWidget.tsx) *)
(* ===================================================================== *)

Module Composer.
Import JS JSONText.

(** [!input.trim()]: the input is empty or white space only. *)
Definition blank (input : string) : bool :=
  Numeric.white_space_only (String.list_ascii_of_string input).

(** [JSON.stringify({ type: 'chat', payload: { content: input } })]. *)
Definition frame (input : string) : string :=
  default EmptyString
    (JSON_stringify (JObj [("type", JStr "chat");
                           ("payload", JObj [("content", JStr input)])])).

(** [WebSocket.readyState]. *)
Inductive ReadyState : Type := CONNECTING | OPEN | CLOSING | CLOSED.

(** What one call of [sendMessage] does: whether it throws, the socket
    and the frame that is transmitted, if any, and the input box
    afterwards. *)
Record Outcome : Type := mkOutcome {
  throws_InvalidStateError : bool;
  transmitted : option (nat * string);
  input_after : string;
}.

(** [sendMessage]; [socket] is [socketRef.current] with its ready state.
    [WebSocket.send] throws an [InvalidStateError] on a socket that is
    still connecting, so that [setInput('')] is not reached; on a closing
    or closed socket it returns and the data is discarded. *)
Definition sendMessage (input : string) (socket : option (nat * ReadyState)) : Outcome :=
  if blank input then mkOutcome false None input
  else
    match socket with
    | None => mkOutcome false None input
    | Some (i, CONNECTING) => mkOutcome true None input
    | Some (i, OPEN) => mkOutcome false (Some (i, frame input)) EmptyString
    | Some (i, (CLOSING | CLOSED)) => mkOutcome false None EmptyString
    end.

(** A socket whose close event would schedule a reconnect: its [onclose]
    handler is installed and it has not closed yet. *)
Definition reconnects (s : Chat.Socket) : bool := Chat.armed s && negb (Chat.closed s).

Definition only_current_reconnects (st : Chat.State) : Prop :=
  forall i s, Chat.sockets st !! i = Some s -> reconnects s = true -> Chat.current st = Some i.

Definition none_reconnects (st : Chat.State) : Prop :=
  forall i s, Chat.sockets st !! i = Some s -> reconnects s = false.

End Composer.

(* ===================================================================== *)
(** * Cart handlers of [AppContent] and [CartDrawer]
      (src/App.tsx, src/components/CartDrawer.tsx) *)
(* ===================================================================== *)

Module Storefront.
Import JS Cart.
Local Open Scope Z_scope.

(** [haystack.includes(needle)]. *)
Fixpoint includes (haystack needle : string) : bool :=
  String.prefix needle haystack
  || match haystack with
     | EmptyString => false
     | String _ rest => includes rest needle
     end.

(** [error instanceof ApiError
     && String(error.message).toLowerCase().includes('insufficient stock')]. *)
Definition out_of_stock (error : JSError) : bool :=
  match error with
  | ApiError _ _ message => includes (Catalog.toLowerCase message) "insufficient stock"
  | _ => false
  end.

(** The three toasts of the cart handlers. *)
Inductive Toast : Type := added | sold_out | try_again.

Definition toast_text (t : Toast) : string :=
  match t with
  | added => "Đã thêm vào giỏ hàng"
  | sold_out => "Sản phẩm đã hết hàng"
  | try_again => "Có lỗi xảy ra. Vui lòng thử lại."
  end.

(** The [useState] cells of [AppContent] that the cart handlers write. *)
Record Shell : Type := mkShell {
  toast : option Toast;
  pendingCartAction : option string;
  loginMessage : string;
  showLoginModal : bool;
}.

Definition login_to_add : string :=
  "Bạn cần đăng nhập để thêm sách vào giỏ. Đăng nhập ngay bằng Gmail hoặc email.".

(** The toast chosen by the [try]/[catch] around [await addToCart(...)]. *)
Definition verdict (outcome : JSError + unit) : Toast :=
  match outcome with
  | inr _ => added
  | inl error => if out_of_stock error then sold_out else try_again
  end.

Section Handlers.
Context {S : Type} (serve : cartApi.Call -> S -> Settled * S).

Definition add_and_notify (r : Render) (bookId : string) (shell : Shell) (w : World S)
  : Shell * World S :=
  let '(outcome, w') := run serve (addToCart r bookId) w in
  (mkShell (Some (verdict outcome)) (pendingCartAction shell) (loginMessage shell)
           (showLoginModal shell), w').

(** [handleAddToCart]; [r] is the render whose closures the handler holds. *)
Definition handleAddToCart (r : Render) (bookId : string) (shell : Shell) (w : World S)
  : Shell * World S :=
  if negb (truthy (user r)) then
    (mkShell (toast shell) (Some bookId) login_to_add true, w)
  else add_and_notify r bookId shell w.

(** [handleLoginSuccess]. *)
Definition handleLoginSuccess (r : Render) (shell : Shell) (w : World S) : Shell * World S :=
  let '(shell, w) :=
    if present (pendingCartAction shell) then
      let '(shell', w') := add_and_notify r (the (pendingCartAction shell)) shell w in
      (mkShell (toast shell') None (loginMessage shell') (showLoginModal shell'), w')
    else (shell, w) in
  (mkShell (toast shell) (pendingCartAction shell) EmptyString (showLoginModal shell), w).

(** [CartDrawer.handleIncrease]: the promise it returns, the drawer's
    toast and the world afterwards. *)
Definition handleIncrease (r : Render) (itemId : string) (currentQty : Z)
    (toast : option Toast) (w : World S) : (JSError + unit) * option Toast * World S :=
  match run serve (updateQuantity r itemId (currentQty + 1)) w with
  | (inr _, w') => (inr tt, toast, w')
  | (inl e, w') =>
      if out_of_stock e then
        let '(refreshed, w'') := run serve (refreshCart r) w' in
        (refreshed, Some sold_out, w'')
      else (inr tt, Some try_again, w')
  end.

(** [CartDrawer.handleDecrease]. *)
Definition handleDecrease (r : Render) (itemId : string) (currentQty : Z)
    (toast : option Toast) (w : World S) : (JSError + unit) * option Toast * World S :=
  match run serve (updateQuantity r itemId (currentQty - 1)) w with
  | (inr _, w') => (inr tt, toast, w')
  | (inl _, w') => (inr tt, Some try_again, w')
  end.

End Handlers.

(** ** Checkout *)

(** What a checkout handler does first: nothing, an [alert] and return,
    or [orderApi.createOrderFromCart(address, token)]. *)
Inductive Checkout : Type :=
| Nothing
| Alert (message : string)
| CreateOrder (shippingAddress : JSValue) (token : string).

(** [CartDrawer.handleCheckout] up to its first [await]. *)
Definition drawer_handleCheckout (user : JSValue) (token : option string)
    (cartItems : list CartItem) : Checkout :=
  if negb (truthy user) || negb (present token) then
    Alert "Vui lòng đăng nhập để thanh toán"
  else if Z.of_nat (length cartItems) =? 0 then Alert "Giỏ hàng trống"
  else
    let shippingAddress := or (get user "address") (JStr EmptyString) in
    if negb (truthy shippingAddress) then
      Alert "Vui lòng cập nhật địa chỉ giao hàng trong Hồ sơ trước khi thanh toán"
    else CreateOrder shippingAddress (the token).

(** [ProfilePage.fetchCart]: the value handed to [setCartData]. *)
Definition stored_cart (res : CartAPIResponse) : CartAPIResponse :=
  match cart res with
  | Some c => mkResponse (Some c) None
  | None => res
  end.

(** [ProfilePage.handleCheckout] up to its first [await]; [address] is
    the text of the address box. *)
Definition profile_handleCheckout (user : JSValue) (token : option string)
    (cartData : option CartAPIResponse) (address : string) : Checkout :=
  if negb (present token) then Nothing
  else
    let cartItems :=
      match cartData with
      | Some data => normalizeCart data
      | None => []
      end in
    if negb (bool_decide (is_Some cartData)) || (Z.of_nat (length cartItems) =? 0) then
      Alert "Giỏ hàng trống"
    else if negb (truthy (get_opt user "address")) && negb (truthy (JStr address)) then
      Alert ("Vui lòng cập nhật địa chỉ giao hàng trong phần Thông tin cá nhân "
             +:+ "trước khi thanh toán")
    else
      CreateOrder (or (or (JStr address) (get_opt user "address")) (JStr EmptyString))
                  (the token).

(** [ProfilePage.handleUpdateQuantity] up to its first [await]: the
    request it sends, if any. *)
Definition profile_handleUpdateQuantity (token : option string) (itemId : string)
    (newQuantity : Z) : option cartApi.Call :=
  if negb (present token) then None
  else if newQuantity <? 1 then None
  else Some (cartApi.updateCart itemId newQuantity (the token)).

End Storefront.

(* ===================================================================== *)
(** * Kinds of events, for the statements about the two sockets *)
(* ===================================================================== *)

Module Observers.

(** The chat widget's events other than a mount and a timer firing. *)
Definition quiet (e : Chat.Event) : bool :=
  match e with
  | Chat.Open _ | Chat.Message _ _ | Chat.Error _ | Chat.Close _ | Chat.History _
  | Chat.Unmount => true
  | Chat.Mount | Chat.Timeout => false
  end.

(** The runs of the notification effect. *)
Definition is_effect (e : Notifier.Event) : bool :=
  match e with Notifier.Effect _ _ => true | _ => false end.

End Observers.

(* ===================================================================== *)
(** * Verification *)
(* ===================================================================== *)

Section JSFacts.
Import JS.

Example JSON_parse_frame :
  JSON_parse (json_text "{'type': 'chat', 'payload': {'id': 7, 'content': 'hi'}}")
  = Some (JObj [("type", JStr "chat");
                ("payload", JObj [("id", JNum 7); ("content", JStr "hi")])]).
Proof. vm_compute. reflexivity. Qed.

Example JSON_parse_array : JSON_parse (json_text " [1, -20, null, [true], 'a\n'] ")
  = Some (JArr [JNum 1; JNum (-20); JNull; JArr [JBool true];
                JStr (String "a" (String "010" EmptyString))]).
Proof. vm_compute. reflexivity. Qed.

Example JSON_parse_duplicate_key : JSON_parse (json_text "{'a': 1, 'b': 2, 'a': 3}")
  = Some (JObj [("a", JNum 3); ("b", JNum 2)]).
Proof. vm_compute. reflexivity. Qed.

Example JSON_parse_truncated : JSON_parse (json_text "{'id': 1, 'email': ") = None.
Proof. vm_compute. reflexivity. Qed.

Example JSON_parse_bare_word : JSON_parse "[object Object]" = None.
Proof. vm_compute. reflexivity. Qed.

End JSFacts.

(* --------------------------------------------------------------------- *)
(** ** Gateway: what an [ApiError] carries *)
(* --------------------------------------------------------------------- *)

Section GatewayFacts.
Import JS Gateway.

(** A failed response always surfaces as an [ApiError] with the response's
    status and status text. *)
Lemma fetchAPI_not_ok (r : Response) :
  ok r = false ->
  exists message,
    fetchAPI (inr r) = inl (ApiError (status r) (statusText r) message).
Proof.
  intros Hok. unfold fetchAPI, new_ApiError. rewrite Hok. simpl.
  eexists. reflexivity.
Qed.

(** A body that cannot be read as JSON gives the generic message. *)
Lemma fetchAPI_unreadable_body (r : Response) :
  ok r = false ->
  JSON_parse (body r) = None ->
  fetchAPI (inr r) = inl (ApiError (status r) (statusText r) "An error occurred").
Proof.
  intros Hok Hbody. unfold fetchAPI. rewrite Hok, Hbody. reflexivity.
Qed.

Lemma truthy_nonempty (s : string) : s <> EmptyString -> truthy (JStr s) = true.
Proof.
  intros Hs. simpl. destruct (String.eqb_spec s EmptyString); [contradiction|reflexivity].
Qed.

(** A string under [error] is the message; it wins over [message]. *)
Lemma error_message_string (fields : list (string * JSValue)) (s : string) :
  lookup_field "error" fields = JStr s ->
  s <> EmptyString ->
  error_message (JObj fields) = JStr s.
Proof.
  intros Hf Hs. unfold error_message, get_opt, or, get, nullish.
  rewrite Hf, (truthy_nonempty s Hs). cbv beta iota.
  rewrite (truthy_nonempty s Hs). reflexivity.
Qed.

(** Without [error], a string under [message] is the message. *)
Lemma error_message_top_level (fields : list (string * JSValue)) (s : string) :
  lookup_field "error" fields = JUndefined ->
  lookup_field "message" fields = JStr s ->
  s <> EmptyString ->
  error_message (JObj fields) = JStr s.
Proof.
  intros He Hm Hs. unfold error_message, get_opt, or, get, nullish.
  rewrite He, Hm. change (truthy JUndefined) with false. cbv beta iota.
  rewrite (truthy_nonempty s Hs). reflexivity.
Qed.

(** An object under [error] is taken whole as the message and printed by
    [String(...)]: its [message] member is never read. *)
Lemma error_message_nested (fields inner : list (string * JSValue)) :
  lookup_field "error" fields = JObj inner ->
  to_string (error_message (JObj fields)) = "[object Object]".
Proof.
  intros Hf. unfold error_message, get_opt, or, get, nullish.
  rewrite Hf. reflexivity.
Qed.

(** C8, at a response in the documented error envelope: a 404 whose body is
    [{"error": {"code": "NOT_FOUND", "message": "Cart item not found"}}]
    fails with status 404 and status text "Not Found", but the message of
    the [ApiError] is "[object Object]", not the nested "Cart item not
    found". *)
Theorem fetchAPI_documented_envelope :
  Gateway.fetchAPI (inr Gateway.cart_item_not_found)
  = inl (ApiError 404 "Not Found" "[object Object]").
Proof. vm_compute. reflexivity. Qed.

End GatewayFacts.

(* --------------------------------------------------------------------- *)
(** ** Auth: restoring the persisted session *)
(* --------------------------------------------------------------------- *)

Section AuthFacts.
Import JS Auth.

(** With either key missing or empty, the store starts unauthenticated. *)
Lemma restore_missing (storage : gmap string string) :
  present (storage !! TOKEN_KEY) && present (storage !! USER_KEY) = false ->
  restore storage initial = (None, mkState JNull None false).
Proof. intros H. unfold restore. rewrite H. reflexivity. Qed.

(** With both keys present and the user readable, the session is restored. *)
Lemma restore_readable (storage : gmap string string) (t s : string) (u : JSValue) :
  storage !! TOKEN_KEY = Some t -> t <> EmptyString ->
  storage !! USER_KEY = Some s -> s <> EmptyString ->
  JSON_parse s = Some u ->
  restore storage initial = (None, mkState u (Some t) false).
Proof.
  intros Ht Hne Hs Hne' Hu. unfold restore. rewrite Ht, Hs. simpl.
  destruct (String.eqb_spec t EmptyString); [contradiction|].
  destruct (String.eqb_spec s EmptyString); [contradiction|].
  simpl. rewrite Hu. reflexivity.
Qed.

(** With both keys present and the user unreadable, [JSON.parse] throws out
    of the effect after the token has been set. *)
Lemma restore_unreadable (storage : gmap string string) (t s : string) :
  storage !! TOKEN_KEY = Some t -> t <> EmptyString ->
  storage !! USER_KEY = Some s -> s <> EmptyString ->
  JSON_parse s = None ->
  restore storage initial = (Some SyntaxError, mkState JNull (Some t) true).
Proof.
  intros Ht Hne Hs Hne' Hu. unfold restore. rewrite Ht, Hs. simpl.
  destruct (String.eqb_spec t EmptyString); [contradiction|].
  destruct (String.eqb_spec s EmptyString); [contradiction|].
  simpl. rewrite Hu. reflexivity.
Qed.

(** C9, at a stored user that is not valid JSON: the restore effect throws
    a [SyntaxError]; the token has been set, the user has not, and
    [loading] is still true. *)
Theorem restore_truncated_user :
  Auth.restore Auth.truncated_user Auth.initial
  = (Some SyntaxError, Auth.mkState JNull (Some "eyJhbGciOi") true).
Proof. vm_compute. reflexivity. Qed.

End AuthFacts.

(* --------------------------------------------------------------------- *)
(** ** Cart: which calls a provider function can send *)
(* --------------------------------------------------------------------- *)

Section CartFacts.
Import JS Cart.
Local Open Scope Z_scope.

Section Issues.
Context (P : cartApi.Call -> Prop).

(** A call sent by a combinator comes from one of its parts.  The three
    state-changing nodes and the [Await] node are handled alike. *)
Ltac through_node IH H :=
  inversion H; subst;
  [ left; apply issues_here; assumption
  | match goal with
    | Hk : issues _ _ |- _ =>
        destruct (IH _ Hk) as [?|?];
        [left; eapply issues_after; eassumption|right; assumption]
    end ].

Ltac through_cell IH H :=
  inversion H; subst;
  match goal with
  | Hk : issues _ _ |- _ =>
      destruct (IH Hk) as [?|?]; [left; constructor|right]; assumption
  end.

Lemma issues_bind {A B : Type} (t : Task A) (f : A -> Task B) :
  issues P (bind t f) -> issues P t \/ exists a, issues P (f a).
Proof.
  induction t as [a|e|l k IH|b k IH|label e k IH|c k IH]; cbn [bind]; intros H.
  - right. eauto.
  - inversion H.
  - through_cell IH H.
  - through_cell IH H.
  - through_cell IH H.
  - through_node IH H.
Qed.

Lemma issues_try_catch {A : Type} (t : Task A) (h : JSError -> Task A) :
  issues P (try_catch t h) -> issues P t \/ exists e, issues P (h e).
Proof.
  induction t as [a|e|l k IH|b k IH|label e k IH|c k IH]; cbn [try_catch]; intros H.
  - inversion H.
  - right. eauto.
  - through_cell IH H.
  - through_cell IH H.
  - through_cell IH H.
  - through_node IH H.
Qed.

Lemma issues_try_finally {A : Type} (t : Task A) (fin : Task unit) :
  issues P (try_finally t fin) -> issues P t \/ issues P fin.
Proof.
  induction t as [a|e|l k IH|b k IH|label e k IH|c k IH]; cbn [try_finally]; intros H.
  - apply issues_bind in H as [?|[? H]]; [right; assumption|inversion H].
  - apply issues_bind in H as [?|[? H]]; [right; assumption|inversion H].
  - through_cell IH H.
  - through_cell IH H.
  - through_cell IH H.
  - through_node IH H.
Qed.

Lemma issues_await (c : cartApi.Call) : issues P (await c) -> P c.
Proof.
  unfold await. intros H. inversion H; subst; [assumption|].
  destruct reply; match goal with Hk : issues _ _ |- _ => inversion Hk end.
Qed.

End Issues.

Section CallsOfTheProvider.
Context (P : cartApi.Call -> Prop).

Lemma issues_setCartItems l : ~ issues P (setCartItems l).
Proof. intros H. inversion H; subst. inversion H1. Qed.

Lemma issues_setLoading b : ~ issues P (setLoading b).
Proof. intros H. inversion H; subst. inversion H1. Qed.

Lemma issues_console_error label e : ~ issues P (console_error label e).
Proof. intros H. inversion H; subst. inversion H1. Qed.

Lemma issues_refreshCart (r : Render) :
  issues P (refreshCart r) -> P (cartApi.getCart (the (token r))).
Proof.
  unfold refreshCart. destruct (negb (truthy (user r)) || negb (present (token r))).
  - intros H. destruct (issues_setCartItems _ H).
  - intros H. apply issues_bind in H as [H|[_ H]].
    { destruct (issues_setLoading _ H). }
    apply issues_try_finally in H as [H|H].
    2:{ destruct (issues_setLoading _ H). }
    apply issues_try_catch in H as [H|[e H]].
    2:{ destruct (issues_console_error _ _ H). }
    apply issues_bind in H as [H|[resp H]].
    + apply issues_await in H. exact H.
    + destruct (issues_setCartItems _ H).
Qed.

Lemma issues_removeFromCart (r : Render) (itemId : string) :
  issues P (removeFromCart r itemId) ->
  P (cartApi.removeFromCart itemId (the (token r))) \/ P (cartApi.getCart (the (token r))).
Proof.
  unfold removeFromCart. destruct (negb (present (token r))).
  - intros H. inversion H.
  - intros H. apply issues_try_catch in H as [H|[e H]].
    + apply issues_bind in H as [H|[_ H]].
      * left. apply issues_await in H. exact H.
      * right. apply issues_refreshCart. exact H.
    + apply issues_bind in H as [H|[_ H]].
      * destruct (issues_console_error _ _ H).
      * inversion H.
Qed.

Lemma issues_updateQuantity (r : Render) (itemId : string) (q : Z) :
  issues P (updateQuantity r itemId q) ->
  (0 < q /\ P (cartApi.updateCart itemId q (the (token r))))
  \/ (q <= 0 /\ P (cartApi.removeFromCart itemId (the (token r))))
  \/ P (cartApi.getCart (the (token r))).
Proof.
  unfold updateQuantity. destruct (negb (present (token r))).
  - intros H. inversion H.
  - destruct (Z.leb_spec q 0) as [Hq|Hq].
    + intros H. apply issues_removeFromCart in H as [H|H]; auto.
    + intros H. apply issues_try_catch in H as [H|[e H]].
      * apply issues_bind in H as [H|[_ H]].
        -- left. apply issues_await in H. auto.
        -- right. right. apply issues_refreshCart. exact H.
      * apply issues_bind in H as [H|[_ H]].
        -- destruct (issues_console_error _ _ H).
        -- inversion H.
Qed.

End CallsOfTheProvider.



Lemma updateQuantity_floor_eq (r : Render) (itemId : string) (q : Z) :
  q <= 0 -> updateQuantity r itemId q = removeFromCart r itemId.
Proof.
  intros Hq. unfold updateQuantity, removeFromCart.
  destruct (negb (present (token r))); [reflexivity|].
  destruct (Z.leb_spec q 0); [reflexivity|lia].
Qed.

Lemma updateQuantity_positive_only (r : Render) (itemId : string) (q : Z) :
  ~ issues sends_nonpositive (updateQuantity r itemId q).
Proof.
  intros H. apply issues_updateQuantity in H as [[Hq H]|[[_ H]|H]]; cbn in H; try exact H. lia.
Qed.


End CartFacts.

(* --------------------------------------------------------------------- *)
(** ** Cart against the reference backend *)
(* --------------------------------------------------------------------- *)

Section CartBackendFacts.
Import JS Cart Backend.
Local Open Scope Z_scope.
Local Arguments serve : simpl never.

Lemma normalizeCart_envelope (cfg : Config) (l : list CartItem) :
  normalizeCart (envelope cfg l) = l.
Proof. unfold envelope. destruct (nested_envelope cfg); reflexivity. Qed.

Section RunFacts.
Context {S : Type} (serve : cartApi.Call -> S -> Settled * S).

Lemma run_bind {A B : Type} (t : Task A) (f : A -> Task B) (w : World S) :
  run serve (bind t f) w =
  match run serve t w with
  | (inr a, w') => run serve (f a) w'
  | (inl e, w') => (inl e, w')
  end.
Proof.
  revert w. induction t as [a|e|l k IH|b k IH|label e k IH|c k IH]; intros w; cbn [bind run].
  - reflexivity.
  - reflexivity.
  - apply IH.
  - apply IH.
  - apply IH.
  - destruct (serve c (backend w)) as [reply s']. apply IH.
Qed.

Lemma run_refreshCart (r : Render) (w : World S) (resp : CartAPIResponse) (s' : S) :
  truthy (user r) = true -> present (token r) = true ->
  serve (cartApi.getCart (the (token r))) (backend w) = (inr resp, s') ->
  run serve (refreshCart r) w
  = (inr tt, mkWorld (mkState (normalizeCart resp) false) s'
                     (wire w ++ [cartApi.getCart (the (token r))])).
Proof.
  intros Hu Ht Hs. unfold refreshCart. rewrite Hu, Ht. cbn. rewrite Hs. cbn. reflexivity.
Qed.

End RunFacts.

Lemma filter_has_book_requantified (b i : string) (q : Z) (l : list CartItem) :
  existsb (has_book b) l = false ->
  List.filter (has_book b) (map (fun r => if has_id i r then set_quantity q r else r) l) = [].
Proof.
  induction l as [|r l IH]; cbn [existsb map List.filter]; [reflexivity|].
  intros H. apply orb_false_elim in H as [Hr Hl].
  assert (has_book b (if has_id i r then set_quantity q r else r) = false) as ->.
  { destruct (has_id i r); [unfold has_book, set_quantity; cbn|]; exact Hr. }
  apply IH, Hl.
Qed.

Section Twice.
Context (cfg : Config) (u : JSValue) (tok : string).
Context (Hu : truthy u = true) (Hp : present (Some tok) = true).

Lemma serve_session (c : cartApi.Call) (s : Server) :
  token_of c = session s -> serve cfg c s = route cfg c s.
Proof. intros H. unfold serve. rewrite H, String.eqb_refl. reflexivity. Qed.

(** POST /cart/add for a book whose id is the decimal form of the number
    that the client sends for it. *)
Lemma route_add (s : Server) (b t : string) (q z : Z) :
  cartApi.body_bookId b = Numeric.Integer z ->
  pretty z = b ->
  route cfg (cartApi.addToCart b q t) s
  = if merge_on_add cfg && existsb (has_book b) (rows s) then
      (inr done,
       with_rows (map (fun r => if has_book b r then set_quantity (quantity r + q) r else r)
                      (rows s)) s)
    else
      match catalog cfg b with
      | Some bk =>
          (inr done,
           mkServer (mkCartItem (pretty (next_id s)) b q bk :: rows s)
                    (next_id s + 1) (session s))
      | None => (inl (reject 500 "Internal Server Error" "SERVER_ERROR" "no such book"), s)
      end.
Proof. intros Hz Hb. unfold route. rewrite Hz, Hb. reflexivity. Qed.


Lemma addToCart_twice (s : Server) (st0 : State) (b : string) (z : Z) (bk : Book.t) :
  session s = tok ->
  cartApi.body_bookId b = Numeric.Integer z ->
  pretty z = b ->
  catalog cfg b = Some bk ->
  find_line b (cartItems st0) = None ->
  existsb (has_book b) (rows s) = false ->
  let add := fun r => addToCart r b in
  let first := invoke (serve cfg) u (Some tok) add (mkWorld st0 s []) in
  let second := invoke (serve cfg) u (Some tok) add (snd first) in
  fst first = inr tt /\ fst second = inr tt /\
  List.filter (has_book b) (cartItems (state (snd second)))
  = [mkCartItem (pretty (next_id s)) b 2 bk] /\
  wire (snd second)
  = [cartApi.addToCart b 1 tok; cartApi.getCart tok;
     cartApi.updateCart (pretty (next_id s)) 2 tok; cartApi.getCart tok].
Proof.
  intros Hs Hz Hkey Hb Hlocal Hremote add first second.
  assert (first = (inr tt,
            mkWorld (mkState (mkCartItem (pretty (next_id s)) b 1 bk :: rows s) false)
                    (mkServer (mkCartItem (pretty (next_id s)) b 1 bk :: rows s)
                              (next_id s + 1) tok)
                    [cartApi.addToCart b 1 tok; cartApi.getCart tok])) as Hfirst.
  { subst first add. unfold invoke, render, addToCart. cbn [user token seen state].
    rewrite Hu, Hp, Hlocal. cbn [negb orb].
    cbn. rewrite serve_session by (cbn; congruence).
    rewrite (route_add s b tok 1 z Hz Hkey).
    cbn. rewrite Hremote, andb_false_r, Hb. cbn.
    unfold refreshCart. cbn [user token]. rewrite Hu, Hp. cbn.
    rewrite serve_session by (cbn; congruence).
    cbn. rewrite normalizeCart_envelope, Hs. reflexivity. }
  subst second. rewrite Hfirst. cbn [snd fst].
  split; [reflexivity|].
  unfold invoke, render, add, addToCart. cbn [user token seen state cartItems].
  rewrite Hu, Hp. cbn [negb orb].
  unfold find_line. cbn [List.find book_id]. rewrite String.eqb_refl. cbn [id quantity].
  unfold updateQuantity. cbn [token]. rewrite Hp. cbn [negb].
  change (1 + 1) with 2. change (2 <=? 0) with false. cbv iota.
  cbn. rewrite serve_session by reflexivity.
  cbn. rewrite String.eqb_refl. change (2 <=? 0) with false. cbn.
  unfold refreshCart. cbn [user token]. rewrite Hu, Hp. cbn.
  rewrite serve_session by reflexivity.
  cbn. rewrite normalizeCart_envelope.
  split; [reflexivity|]. split; [|reflexivity].
  cbn. unfold has_book at 1. cbn. rewrite String.eqb_refl.
  f_equal. apply filter_has_book_requantified, Hremote.
Qed.

End Twice.

Lemma updateQuantity_removes (cfg : Config) (r : Render) (s : Server) (st0 : State)
    (itemId : string) (q : Z) :
  truthy (user r) = true ->
  present (token r) = true ->
  session s = the (token r) ->
  q <= 0 ->
  existsb (has_id itemId) (rows s) = true ->
  run (serve cfg) (updateQuantity r itemId q) (mkWorld st0 s [])
  = (inr tt,
     mkWorld (mkState (List.filter (fun l => negb (has_id itemId l)) (rows s)) false)
             (with_rows (List.filter (fun l => negb (has_id itemId l)) (rows s)) s)
             [cartApi.removeFromCart itemId (the (token r)); cartApi.getCart (the (token r))]).
Proof.
  intros Hu Hp Hs Hq Hrow. unfold updateQuantity.
  rewrite Hp. cbn [negb].
  destruct (Z.leb_spec q 0) as [_|?]; [|lia].
  unfold removeFromCart. rewrite Hp. cbn.
  rewrite serve_session by (cbn; congruence).
  cbn. rewrite Hrow. cbn.
  unfold refreshCart. rewrite Hu, Hp. cbn.
  rewrite serve_session by (cbn; congruence).
  cbn. rewrite normalizeCart_envelope. reflexivity.
Qed.

End CartBackendFacts.

(* --------------------------------------------------------------------- *)
(** ** Cart: the properties of the specification *)
(* --------------------------------------------------------------------- *)

Section CartProperties.
Import JS Cart Backend.
Local Open Scope Z_scope.



(** The same for an id with a leading zero: [Number("042")] is 42, the
    line comes back with [book_id] "42", which is not the "042" that the
    second call looks for, so a second add is sent; on a backend that
    inserts a row per add the cart then holds two lines for the book. *)
Example addToCart_leading_zero :
  let add := fun r => addToCart r "042" in
  let first := invoke (serve Scenario.appending) Scenario.shopper (Some Scenario.bearer) add
                      (mkWorld Scenario.idle Scenario.empty_cart []) in
  let second := invoke (serve Scenario.appending) Scenario.shopper (Some Scenario.bearer) add
                       (snd first) in
  cartApi.body_bookId "042" = Numeric.Integer 42
  /\ fst second = inr tt
  /\ cartItems (state (snd second))
     = [mkCartItem "2" "42" 1 Scenario.dune; mkCartItem "1" "42" 1 Scenario.dune]
  /\ wire (snd second)
     = [cartApi.addToCart "042" 1 Scenario.bearer; cartApi.getCart Scenario.bearer;
        cartApi.addToCart "042" 1 Scenario.bearer; cartApi.getCart Scenario.bearer].
Proof. vm_compute. repeat split. Qed.

(** C2: for a quantity of zero or less, [updateQuantity] is
    [removeFromCart] on that line and no call it sends carries a quantity
    of zero or less; run signed in against the backend on a line that
    exists, it sends the delete and the refresh, and the line is gone from
    the cart afterwards while the other lines are as the backend holds
    them. *)
Theorem updateQuantity_floor (r : Render) (itemId : string) (q : Z) :
  q <= 0 ->
  updateQuantity r itemId q = removeFromCart r itemId
  /\ ~ issues sends_nonpositive (updateQuantity r itemId q)
  /\ forall (cfg : Config) (s : Server) (st0 : State),
       truthy (user r) = true ->
       present (token r) = true ->
       session s = the (token r) ->
       existsb (has_id itemId) (rows s) = true ->
       let after := run (serve cfg) (updateQuantity r itemId q) (mkWorld st0 s []) in
       fst after = inr tt
       /\ cartItems (state (snd after))
          = List.filter (fun l => negb (has_id itemId l)) (rows s)
       /\ existsb (has_id itemId) (cartItems (state (snd after))) = false
       /\ wire (snd after)
          = [cartApi.removeFromCart itemId (the (token r));
             cartApi.getCart (the (token r))].
Proof.
  intros Hq.
  split; [apply updateQuantity_floor_eq, Hq|].
  split; [apply updateQuantity_positive_only|].
  intros cfg s st0 Hu Hp Hs Hrow after.
  subst after. rewrite (updateQuantity_removes cfg r s st0 itemId q Hu Hp Hs Hq Hrow).
  cbn [fst snd state cartItems wire].
  repeat split.
  clear Hrow. induction (rows s) as [|l rest IH]; [reflexivity|].
  cbn [List.filter]. destruct (has_id itemId l) eqn:E; cbn [negb]; [exact IH|].
  cbn [existsb]. rewrite E. exact IH.
Qed.

Lemma updateQuantity_floor_witness :
  let r := Scenario.signed_in Scenario.showing_dune in
  let after := run (serve Scenario.documented) (updateQuantity r "7" (-1))
                   (mkWorld Scenario.showing_dune
                            (mkServer [Scenario.line7] 8 Scenario.bearer) []) in
  updateQuantity r "7" (-1) = removeFromCart r "7"
  /\ ~ issues sends_nonpositive (updateQuantity r "7" (-1))
  /\ fst after = inr tt
  /\ cartItems (state (snd after)) = []
  /\ wire (snd after)
     = [cartApi.removeFromCart "7" Scenario.bearer; cartApi.getCart Scenario.bearer].
Proof.
  intros r after.
  destruct (updateQuantity_floor r "7" (-1) ltac:(lia)) as (Heq & Hpos & Hrun).
  destruct (Hrun Scenario.documented (mkServer [Scenario.line7] 8 Scenario.bearer)
              Scenario.showing_dune eq_refl eq_refl eq_refl eq_refl)
    as (Hok & Hcart & _ & Hwire).
  repeat split; assumption.
Defined.


End CartProperties.

(* --------------------------------------------------------------------- *)
(** ** Cart: overlapping refreshes *)
(* --------------------------------------------------------------------- *)

Section RefreshOrder.
Import JS Cart.
Local Open Scope Z_scope.

(** A signed-in refresh runs up to its [getCart] and waits there. *)
Lemma advance_refreshCart (r : Render) (st : State) :
  truthy (user r) = true -> present (token r) = true ->
  exists k,
    advance (refreshCart r) st
    = (Sent (cartApi.getCart (the (token r))) k, mkState (cartItems st) true)
    /\ forall resp st', advance (k (inr resp)) st' = (Finished (inr tt), mkState (normalizeCart resp) false).
Proof.
  intros Hu Ht. unfold refreshCart. rewrite Hu, Ht. cbn.
  eexists. split; [reflexivity|]. intros resp st'. reflexivity.
Qed.

(** Inside a refresh, the two envelopes leave the same cells behind. *)
Lemma refreshCart_envelopes (r : Render) (st st' : State) (l : list CartItem) :
  truthy (user r) = true -> present (token r) = true ->
  exists k,
    fst (advance (refreshCart r) st) = Sent (cartApi.getCart (the (token r))) k
    /\ advance (k (inr (mkResponse (Some (mkCartObject l)) None))) st'
       = advance (k (inr (mkResponse None (Some l)))) st'
    /\ cartItems (snd (advance (k (inr (mkResponse None (Some l)))) st')) = l.
Proof.
  intros Hu Ht. destruct (advance_refreshCart r st Hu Ht) as (k & E & Hk).
  exists k. rewrite E, !Hk. repeat split.
Qed.

(** The scenario: both refresh responses are on their way back, the one of
    the first add taken before the second add reached the backend. *)
Lemma overlapping_in_flight :
  answered 0 Scenario.in_flight = Some (inr (Scenario.cart_with [Scenario.dune_line]))
  /\ answered 1 Scenario.in_flight
     = Some (inr (Scenario.cart_with [Scenario.emma_line; Scenario.dune_line]))
  /\ Backend.rows (remote Scenario.in_flight) = [Scenario.emma_line; Scenario.dune_line].
Proof. vm_compute. repeat split. Qed.

(** C3, refuted on the scenario: the refresh of the first add (A) settles
    after the refresh of the second add (B) and overwrites it; the cart
    does not end as B's response has it but as A's older one does, without
    the second book. *)
Lemma stale_refresh_overwrites :
  answered 1 Scenario.in_flight
  = Some (inr (Scenario.cart_with [Scenario.emma_line; Scenario.dune_line]))
  /\ cartItems (cells Scenario.landed)
     <> normalizeCart (Scenario.cart_with [Scenario.emma_line; Scenario.dune_line])
  /\ cartItems (cells Scenario.landed)
     = normalizeCart (Scenario.cart_with [Scenario.dune_line]).
Proof.
  split; [vm_compute; reflexivity|].
  split; [vm_compute; discriminate|vm_compute; reflexivity].
Qed.

(** C3 as the code has it: a refresh that settles always commits.  With
    two signed-in refreshes in flight, issued in the order A, B, if B's
    response arrives first and A's last, the cart ends as A's response has
    it. *)
Theorem refresh_last_settled_wins
    (rA rB : Render) (st : State) (respA respB : CartAPIResponse) :
  truthy (user rA) = true -> present (token rA) = true ->
  truthy (user rB) = true -> present (token rB) = true ->
  exists kA kB st1 st2,
    advance (refreshCart rA) st = (Sent (cartApi.getCart (the (token rA))) kA, st1)
    /\ advance (refreshCart rB) st1 = (Sent (cartApi.getCart (the (token rB))) kB, st2)
    /\ cartItems (snd (advance (kB (inr respB)) st2)) = normalizeCart respB
    /\ cartItems (snd (advance (kA (inr respA)) (snd (advance (kB (inr respB)) st2))))
       = normalizeCart respA.
Proof.
  intros HuA HtA HuB HtB.
  destruct (advance_refreshCart rA st HuA HtA) as (kA & EA & HA).
  destruct (advance_refreshCart rB (mkState (cartItems st) true) HuB HtB) as (kB & EB & HB).
  exists kA, kB, (mkState (cartItems st) true), (mkState (cartItems st) true).
  split; [exact EA|]. split; [exact EB|].
  rewrite HB. cbn [snd]. rewrite HA. split; reflexivity.
Qed.

Lemma refresh_last_settled_wins_witness :
  exists kA kB st1 st2,
    advance (refreshCart (Scenario.signed_in Scenario.idle)) Scenario.idle
    = (Sent (cartApi.getCart Scenario.bearer) kA, st1)
    /\ advance (refreshCart (Scenario.signed_in Scenario.idle)) st1
       = (Sent (cartApi.getCart Scenario.bearer) kB, st2)
    /\ cartItems (snd (advance
                         (kB (inr (Scenario.cart_with [Scenario.emma_line; Scenario.dune_line])))
                         st2))
       = [Scenario.emma_line; Scenario.dune_line]
    /\ cartItems (snd (advance (kA (inr (Scenario.cart_with [Scenario.dune_line])))
                         (snd (advance
                                 (kB (inr (Scenario.cart_with
                                             [Scenario.emma_line; Scenario.dune_line])))
                                 st2))))
       = [Scenario.dune_line].
Proof.
  apply (refresh_last_settled_wins (Scenario.signed_in Scenario.idle)
           (Scenario.signed_in Scenario.idle) Scenario.idle
           (Scenario.cart_with [Scenario.dune_line])
           (Scenario.cart_with [Scenario.emma_line; Scenario.dune_line]));
    reflexivity.
Defined.

End RefreshOrder.

(* --------------------------------------------------------------------- *)
(** ** Chat: history and live frames *)
(* --------------------------------------------------------------------- *)

Section ChatMessages.
Import JS Chat.

Lemma messages_connectWebSocket (se : Session) (st : State) :
  messages (connectWebSocket se st) = messages st.
Proof.
  unfold connectWebSocket, disarm_and_close.
  destruct (negb (present (token se))); [reflexivity|].
  destruct (current st); reflexivity.
Qed.

Lemma messages_fetchHistory (se : Session) (st : State) :
  messages (fetchHistory se st) = messages st.
Proof. unfold fetchHistory. destruct (negb (present (token se))); reflexivity. Qed.

Lemma messages_onmessage (parsed : JSError + JSValue) (st : State) :
  messages (onmessage parsed st) = messages st ++ option_list (chat_payload parsed).
Proof.
  unfold onmessage, chat_payload.
  destruct parsed as [e|d]; [symmetry; apply app_nil_r|].
  destruct (get_strict d "type") as [e|t]; [symmetry; apply app_nil_r|].
  destruct (strict_eq_str t "chat"); [reflexivity|symmetry; apply app_nil_r].
Qed.

Lemma messages_history_settled (fetched : JSError + JSValue) (st : State) :
  messages (history_settled fetched st) = default (messages st) (history_payload fetched).
Proof.
  unfold history_settled, history_payload.
  destruct fetched as [e|[]]; reflexivity.
Qed.

(** The two texts of the scenario are read as the scenario has them. *)
Lemma scenario_texts :
  JSON_parse Scenario.frame25 = Some Scenario.frame25_parsed
  /\ JSON_parse Scenario.history_body = Some Scenario.history_parsed.
Proof. split; vm_compute; reflexivity. Qed.

(** C5, refuted on the scenario of the specification: the frame with
    timestamp 25 arrives before the history [10, 20, 30] resolves; the
    history then replaces the list and the frame's message is gone, so the
    final list is not the merge of the four messages. *)
Lemma frame_before_history_is_lost :
  messages (play Scenario.chatting Scenario.frame_then_history initial)
  = [Scenario.m1; Scenario.m2; Scenario.m3]
  /\ ~ merged [Scenario.m1; Scenario.m2; Scenario.m3; Scenario.m25]
         (messages (play Scenario.chatting Scenario.frame_then_history initial)).
Proof.
  split; [vm_compute; reflexivity|].
  intros [Hall _].
  specialize (Hall Scenario.m25 ltac:(cbn; tauto)).
  vm_compute in Hall. discriminate.
Qed.

(** C5 as the code has it, for whatever [JSON.parse] and [res.json()]
    yield: a frame that parses to a value whose [type] is ['chat'] appends
    that value's [payload] at the end of the list, a settled history
    request whose body is an array replaces the list by that array, and no
    other event (nor any other frame or body) touches the list. *)
Theorem history_replaces_frames_append (se : Session) (st : State) (e : Event) :
  messages (step se st e)
  = match e with
    | Message i parsed =>
        if live i st then messages st ++ option_list (chat_payload parsed) else messages st
    | History fetched =>
        match fetching st with
        | O => messages st
        | S _ => default (messages st) (history_payload fetched)
        end
    | _ => messages st
    end
  /\ (forall i d,
        live i st = true -> get_strict d "type" = inr (JStr "chat") ->
        messages (step se st (Message i (inr d))) = messages st ++ [get d "payload"])
  /\ (forall data,
        fetching st <> O ->
        messages (step se st (History (inr (JArr data)))) = data).
Proof.
  split; [|split].
  - destruct e as [|i|i parsed|i|i| |fetched|]; cbn [step].
    + destruct (present (token se) && truthy (user se)); [|reflexivity].
      rewrite messages_fetchHistory. apply messages_connectWebSocket.
    + destruct (live i st); reflexivity.
    + destruct (live i st); [apply messages_onmessage|reflexivity].
    + reflexivity.
    + unfold mark_closed. destruct (sockets st !! i) as [s|]; [|reflexivity].
      destruct (closed s); [reflexivity|]. destruct (armed s); reflexivity.
    + destruct (timers st); [reflexivity|].
      destruct (truthy (user se) && present (token se)); [|reflexivity].
      rewrite messages_connectWebSocket. reflexivity.
    + destruct (fetching st); [reflexivity|apply messages_history_settled].
    + unfold disarm_and_close. destruct (current st); reflexivity.
  - intros i d Hlive Htype. cbn [step]. rewrite Hlive, messages_onmessage.
    unfold chat_payload. rewrite Htype. reflexivity.
  - intros data Hfetching. cbn [step].
    destruct (fetching st); [contradiction|]. apply messages_history_settled.
Qed.

End ChatMessages.

(* --------------------------------------------------------------------- *)
(** ** Realtime channels after a refused handshake *)
(* --------------------------------------------------------------------- *)

Section ChatReconnect.
Import JS Chat.

(** The widget waits on socket [k], its latest attempt, with no timer
    pending. *)
Definition waiting_on (k : nat) (st : State) : Prop :=
  length (sockets st) = S k
  /\ sockets st !! k = Some (mkSocket true false)
  /\ current st = Some k
  /\ timers st = 0.

Lemma refusal_round (se : Session) (k : nat) (st : State) :
  truthy (user se) = true -> present (token se) = true ->
  waiting_on k st ->
  waiting_on (S k) (play se (rejected k ++ [Timeout]) st).
Proof.
  intros Hu Ht (Hlen & Hsock & Hcur & Htim).
  unfold play, rejected. cbn [app foldl step].
  rewrite Hsock. cbn [closed armed].
  unfold onclose, mark_closed. rewrite Hsock. cbn. rewrite Htim.
  rewrite Hu, Ht. cbn [andb].
  unfold connectWebSocket. rewrite Ht. cbn [negb].
  unfold disarm_and_close. cbn. rewrite Hcur. cbn.
  unfold waiting_on. cbn.
  rewrite length_app, !length_insert, Hlen. cbn.
  split; [lia|].
  split; [|split; [f_equal; lia|reflexivity]].
  rewrite lookup_app_r by (rewrite !length_insert; lia).
  rewrite !length_insert, Hlen, Nat.sub_diag. reflexivity.
Qed.

Lemma refusals_attempts (se : Session) (n k : nat) (st : State) :
  truthy (user se) = true -> present (token se) = true ->
  waiting_on k st ->
  attempts (play se (refusals k n) st) = S k + n.
Proof.
  intros Hu Ht. revert k st. induction n as [|n IH]; intros k st Hw.
  - cbn. destruct Hw as (Hlen & _). unfold attempts. lia.
  - cbn [refusals]. unfold play. rewrite app_assoc, foldl_app.
    fold (play se (rejected k ++ [Timeout]) st).
    fold (play se (refusals (S k) n) (play se (rejected k ++ [Timeout]) st)).
    rewrite (IH (S k)); [lia|]. apply refusal_round; assumption.
Qed.

(** C6 on the chat socket: with a signed-in session whose handshake the
    server refuses every time, each refusal is followed after the 3 s timer
    by a new connection attempt; after [n] refusals the widget has opened
    [n + 1] sockets. *)
Theorem chat_retries_after_refusal (n : nat) :
  Chat.attempts (Chat.play Scenario.chatting (Mount :: refusals 0 n) Chat.initial) = S n.
Proof.
  unfold play. cbn [foldl].
  fold (play Scenario.chatting (refusals 0 n) (step Scenario.chatting initial Mount)).
  rewrite refusals_attempts; [reflexivity|reflexivity|reflexivity|].
  vm_compute. repeat split.
Qed.

End ChatReconnect.

Section NotifierSuspended.
Import JS Notifier.

Lemma step_unauthorized (st : State) (e : Event) :
  wsUnauthorizedRef st = true ->
  wsUnauthorizedRef (step st e) = true /\ attempts (step st e) = attempts st.
Proof.
  intros H. destruct e as [token url_ok| |data| |]; cbn [step].
  - unfold effect, run_cleanup.
    destruct (cleanup st); cbn; rewrite H, orb_true_r; cbn;
      destruct (negb (present token) && bool_decide (is_Some (ws st))); cbn; auto.
  - cbn. auto.
  - unfold onmessage. destruct data as [e|d]; [auto|].
    destruct (get_opt d "message"); cbn; auto.
  - cbn. auto.
  - cbn. auto.
Qed.

(** The notification socket of [AppContent], by contrast, stays down once
    an error has been seen: whatever happens next, also a new token, the
    effect opens no further socket. *)
Lemma notifier_stays_suspended (events : list Event) (st : State) :
  wsUnauthorizedRef st = true ->
  attempts (play events st) = attempts st
  /\ wsUnauthorizedRef (play events st) = true.
Proof.
  revert st. induction events as [|e events IH]; intros st H; [auto|].
  unfold play. cbn [foldl]. fold (play events (step st e)).
  destruct (step_unauthorized st e H) as [H1 H2].
  destruct (IH _ H1) as [H3 H4]. split; [congruence|assumption].
Qed.

Lemma notifier_error_suspends (st : State) :
  wsUnauthorizedRef (step st Error) = true.
Proof. reflexivity. Qed.

End NotifierSuspended.

(* --------------------------------------------------------------------- *)
(** ** Catalog: the page carried by the next query *)
(* --------------------------------------------------------------------- *)

Section CatalogPage.
Import JS Catalog.
Local Open Scope Z_scope.

(** The query always starts with the page of the filter state. *)
Lemma buildQueryString_page (f : FilterState) :
  query_get "page" (buildQueryString (as_params f)) = Some (pretty (fs_page f)).
Proof.
  unfold buildQueryString. cbn [as_params page limit categories minPrice maxPrice
                                  minRating search sortBy num_text_or].
  destruct (sort_clause _) as [sortField sortOrder].
  unfold append_if.
  destruct (0 <? Z.of_nat (length (fs_categories f))),
           (0 <? fs_minRating f),
           (negb (String.eqb (fs_search f) EmptyString)); reflexivity.
Qed.

Lemma next_query_page (app : App) :
  query_get "page" (next_query app) = Some (pretty (num_or (Some (currentPage (view app))) 1)).
Proof. unfold next_query. rewrite buildQueryString_page. reflexivity. Qed.

(** Every handler of [BookCatalog] that changes a filter sets the page
    to 1, and so does the next query. *)
Lemma handler_resets_page (a : Action) (app : App) :
  changes_filter a = true ->
  (forall text, a <> SearchChange text) ->
  currentPage (view (dispatch a app)) = 1
  /\ query_get "page" (next_query (dispatch a app)) = Some "1".
Proof.
  intros Hc Hs.
  assert (currentPage (view (dispatch a app)) = 1) as E.
  { destruct a; try reflexivity; [destruct (Hs text eq_refl)|discriminate]. }
  split; [exact E|]. rewrite next_query_page, E. reflexivity.
Qed.

(** The scenario of the specification: on page 3 of fiction, switching the
    category to history asks for page 1. *)
Lemma category_change_resets_page :
  query_get "page" (next_query (dispatch (CategoryChange ["history"]) Scenario.page3))
  = Some "1".
Proof. vm_compute. reflexivity. Qed.

(** C7 at a change of the search text: on page 3, typing a search term
    leaves [currentPage] at 3 and the next query asks for page 3 of the
    search results. *)
Theorem search_change_keeps_page :
  Catalog.currentPage (Catalog.view (Catalog.dispatch (SearchChange "tolkien") Scenario.page3))
  = 3
  /\ Catalog.next_query (Catalog.dispatch (SearchChange "tolkien") Scenario.page3)
     = [("page", "3"); ("limit", "12"); ("categories", "fiction");
        ("min_price", "0"); ("max_price", "500000"); ("search", "tolkien");
        ("sort_by", "created_at"); ("sort_order", "desc")].
Proof. split; vm_compute; reflexivity. Qed.

End CatalogPage.

(* --------------------------------------------------------------------- *)
(** ** Catalog: books without a category *)
(* --------------------------------------------------------------------- *)

Section CatalogCategory.
Import JS Catalog.
Local Open Scope Z_scope.

Lemma normalizeBook_absent (now : Z) (book : JSValue)
    (categoryMap : gmap string BookCatalogCategory) :
  nullish book = false ->
  has_category book = false ->
  normalizeBook now book categoryMap = inr None.
Proof.
  intros Hb Hc. unfold normalizeBook, has_category in *. rewrite Hb.
  destruct (get book "category"); try discriminate; reflexivity.
Qed.

Lemma normalizeBook_present (now : Z) (book : JSValue)
    (categoryMap : gmap string BookCatalogCategory) :
  nullish book = false ->
  has_category book = true ->
  exists b, normalizeBook now book categoryMap = inr (Some b).
Proof.
  intros Hb Hc. unfold normalizeBook, has_category in *. rewrite Hb.
  destruct (get book "category"); try discriminate; eexists; reflexivity.
Qed.

Lemma normalizedBooks_app (now : Z) (categoryMap : gmap string BookCatalogCategory)
    (l1 l2 : list JSValue) :
  normalizedBooks now categoryMap (l1 ++ l2)
  = match normalizedBooks now categoryMap l1, normalizedBooks now categoryMap l2 with
    | inr a, inr b => inr (a ++ b)
    | inl e, _ => inl e
    | inr _, inl e => inl e
    end.
Proof.
  induction l1 as [|x l1 IH]; cbn [app normalizedBooks].
  - destruct (normalizedBooks now categoryMap l2); reflexivity.
  - destruct (normalizeBook now x categoryMap) as [e|b]; [reflexivity|].
    rewrite IH.
    destruct (normalizedBooks now categoryMap l1) as [e|a]; [reflexivity|].
    destruct (normalizedBooks now categoryMap l2) as [e|c]; [reflexivity|].
    destruct b; reflexivity.
Qed.

Lemma normalizeBook_copies (now : Z) (book : JSValue)
    (m : gmap string BookCatalogCategory) (b : BookCatalogBook) :
  normalizeBook now book m = inr (Some b) ->
  has_category book = true
  /\ id b = get book "id" /\ title b = get book "title" /\ price b = get book "price"
  /\ stock b = get book "stock"
  /\ (image_url b = JNull \/ truthy (image_url b) = true).
Proof.
  unfold normalizeBook, has_category.
  destruct (nullish book); [discriminate|].
  assert (forall x y, or (or x y) JNull = JNull \/ truthy (or (or x y) JNull) = true) as Himg.
  { intros x y. generalize (or x y) as z. intros z. unfold or.
    destruct (truthy z) eqn:E; [right; exact E|left; reflexivity]. }
  destruct (get book "category"); intros H; inversion H; subst; cbn; auto 10.
Qed.

Lemma normalizeBook_object (now : Z) (book : JSValue) (m : gmap string BookCatalogCategory) :
  nullish book = false ->
  normalizeBook now book m = inr None /\ has_category book = false
  \/ exists b, normalizeBook now book m = inr (Some b).
Proof.
  intros Hb. unfold normalizeBook, has_category. rewrite Hb.
  destruct (get book "category"); eauto.
Qed.

(** What the normalised list holds, for a list without null elements. *)
Lemma normalizedBooks_kept
    (now : Z) (m : gmap string BookCatalogCategory) (l : list JSValue) :
  Forall (fun book => nullish book = false) l ->
  exists out,
    normalizedBooks now m l = inr out
    /\ id <$> out = (fun book => get book "id") <$> List.filter has_category l
    /\ title <$> out = (fun book => get book "title") <$> List.filter has_category l
    /\ Forall (fun b => image_url b = JNull \/ truthy (image_url b) = true) out.
Proof.
  induction 1 as [|book l Hb Hl (out & Hout & Hi & Ht & Hf)]; cbn [normalizedBooks].
  - exists []. repeat split; constructor.
  - rewrite Hout. cbn [List.filter].
    destruct (normalizeBook_object now book m Hb) as [[Eb Hc]|[b Eb]]; rewrite Eb.
    + rewrite Hc. exists out. repeat split; assumption.
    + apply normalizeBook_copies in Eb as (Hc & Eid & Etitle & _ & _ & Himg).
      rewrite Hc. exists (b :: out). cbn [fmap list_fmap].
      repeat split; [f_equal; assumption|f_equal; assumption|constructor; assumption].
Qed.

(** C10: a book object whose category member is neither a string nor an
    object is mapped to null and leaves no trace in the normalised list;
    a book object is kept exactly when its category member is a string or
    an object, and then it appears in the list at its place, between the
    books kept from those before it and those kept from those after it,
    with its id and title; so the list shown is exactly the books with a
    string or object category, in their order. *)
Theorem normalizeBook_requires_category
    (now : Z) (book : JSValue) (categoryMap : gmap string BookCatalogCategory)
    (before after : list JSValue) :
  nullish book = false ->
  (has_category book = false ->
   normalizeBook now book categoryMap = inr None
   /\ normalizedBooks now categoryMap (before ++ book :: after)
      = normalizedBooks now categoryMap (before ++ after))
  /\ (normalizeBook now book categoryMap = inr None <-> has_category book = false)
  /\ (has_category book = true ->
      exists b,
        normalizeBook now book categoryMap = inr (Some b)
        /\ id b = get book "id" /\ title b = get book "title"
        /\ forall kept_before kept_after,
             normalizedBooks now categoryMap before = inr kept_before ->
             normalizedBooks now categoryMap after = inr kept_after ->
             normalizedBooks now categoryMap (before ++ book :: after)
             = inr (kept_before ++ b :: kept_after))
  /\ (Forall (fun x => nullish x = false) before ->
      Forall (fun x => nullish x = false) after ->
      exists kept,
        normalizedBooks now categoryMap (before ++ book :: after) = inr kept
        /\ id <$> kept
           = (fun x => get x "id") <$> List.filter has_category (before ++ book :: after)
        /\ title <$> kept
           = (fun x => get x "title") <$> List.filter has_category (before ++ book :: after)).
Proof.
  intros Hb. split; [|split; [|split]].
  - intros Hc. pose proof (normalizeBook_absent now book categoryMap Hb Hc) as E.
    split; [exact E|].
    rewrite !normalizedBooks_app. cbn [normalizedBooks]. rewrite E.
    destruct (normalizedBooks now categoryMap before) as [e|a]; [reflexivity|].
    destruct (normalizedBooks now categoryMap after) as [e|c]; reflexivity.
  - split.
    + intros E. destruct (has_category book) eqn:Hc; [|reflexivity].
      destruct (normalizeBook_present now book categoryMap Hb Hc) as [b Eb]. congruence.
    + apply normalizeBook_absent, Hb.
  - intros Hc. destruct (normalizeBook_present now book categoryMap Hb Hc) as [b Eb].
    exists b. split; [exact Eb|].
    destruct (normalizeBook_copies now book categoryMap b Eb) as (_ & Hid & Htitle & _).
    split; [exact Hid|]. split; [exact Htitle|].
    intros kept_before kept_after Hbefore Hafter.
    rewrite normalizedBooks_app. cbn [normalizedBooks]. rewrite Hbefore, Eb, Hafter.
    reflexivity.
  - intros Hbefore Hafter.
    destruct (normalizedBooks_kept now categoryMap (before ++ book :: after))
      as (kept & Hkept & Hid & Htitle & _).
    { apply Forall_app. split; [exact Hbefore|]. constructor; assumption. }
    exists kept. split; [exact Hkept|]. split; assumption.
Qed.

Lemma normalizeBook_requires_category_witness :
  let shelf := [Scenario.labelled; Scenario.uncategorised] in
  (normalizeBook 0 Scenario.uncategorised ∅ = inr None
   /\ normalizedBooks 0 ∅ (shelf ++ Scenario.uncategorised :: [Scenario.labelled])
      = normalizedBooks 0 ∅ (shelf ++ [Scenario.labelled]))
  /\ (exists b,
        normalizeBook 0 Scenario.labelled ∅ = inr (Some b)
        /\ id b = get Scenario.labelled "id" /\ title b = get Scenario.labelled "title"
        /\ forall kept_before kept_after,
             normalizedBooks 0 ∅ shelf = inr kept_before ->
             normalizedBooks 0 ∅ [Scenario.labelled] = inr kept_after ->
             normalizedBooks 0 ∅ (shelf ++ Scenario.labelled :: [Scenario.labelled])
             = inr (kept_before ++ b :: kept_after))
  /\ (exists kept,
        normalizedBooks 0 ∅ (shelf ++ Scenario.labelled :: [Scenario.labelled]) = inr kept
        /\ id <$> kept = [JNum 8; JNum 8; JNum 8]
        /\ title <$> kept = [JStr "Dune"; JStr "Dune"; JStr "Dune"]).
Proof.
  intros shelf.
  destruct (normalizeBook_requires_category 0 Scenario.uncategorised ∅ shelf
              [Scenario.labelled] eq_refl) as (Hdropped & _ & _ & _).
  destruct (normalizeBook_requires_category 0 Scenario.labelled ∅ shelf
              [Scenario.labelled] eq_refl) as (_ & _ & Hkept & Hshown).
  split; [apply Hdropped; reflexivity|].
  split; [apply Hkept; reflexivity|].
  apply Hshown; repeat constructor.
Defined.

(** A string category that the category list does not know is kept under a
    placeholder built from the string. *)
Lemma normalizeBook_unknown_category :
  category <$> (match normalizeBook 0 Scenario.labelled ∅ with
                | inr b => b
                | inl _ => None
                end)
  = Some (mkCategory "Science Fiction" (JStr "Science Fiction") (JStr "science-fiction")
                     (JStr EmptyString) 0 0).
Proof. vm_compute. reflexivity. Qed.

End CatalogCategory.

(* ===================================================================== *)
(** * Cart provider: outcomes of the four functions *)
(* ===================================================================== *)

Section CartOutcomes.
Import JS Cart.
Local Open Scope Z_scope.
Context {S : Type} (serve : cartApi.Call -> S -> Settled * S).

(** The outcome of a refresh, in every case. *)
Lemma run_refreshCart_outcome (r : Render) (w : World S) :
  run serve (refreshCart r) w
  = if truthy (user r) && present (token r) then
      let c := cartApi.getCart (the (token r)) in
      (inr tt,
       mkWorld (mkState (match fst (serve c (backend w)) with
                         | inr response => normalizeCart response
                         | inl _ => cartItems (state w)
                         end) false)
               (snd (serve c (backend w)))
               (wire w ++ [c]))
    else
      (inr tt, mkWorld (mkState [] (loading (state w))) (backend w) (wire w)).
Proof.
  unfold refreshCart.
  destruct (truthy (user r)), (present (token r)); cbn; try reflexivity.
  destruct (serve _ _) as [[e|resp] s']; reflexivity.
Qed.

(** X1: refreshCart never rejects.  Signed in, it sends one GET, installs
    the lines of a resolved response, keeps the lines it had when the
    request is rejected, and leaves loading false either way; signed out,
    it empties the cart without sending anything. *)
Theorem refreshCart_never_throws (r : Render) (w : World S) :
  run serve (refreshCart r) w
  = if truthy (user r) && present (token r) then
      let c := cartApi.getCart (the (token r)) in
      (inr tt,
       mkWorld (mkState (match fst (serve c (backend w)) with
                         | inr response => normalizeCart response
                         | inl _ => cartItems (state w)
                         end) false)
               (snd (serve c (backend w)))
               (wire w ++ [c]))
    else
      (inr tt, mkWorld (mkState [] (loading (state w))) (backend w) (wire w)).
Proof. apply run_refreshCart_outcome. Qed.

(** Without a token the three mutations reject before sending anything. *)
Lemma run_signed_out (r : Render) (w : World S) (b itemId : string) (q : Z) :
  present (token r) = false ->
  run serve (addToCart r b) w = (inl (Error "Must be logged in"), w)
  /\ run serve (updateQuantity r itemId q) w = (inl (Error "Must be logged in"), w)
  /\ run serve (removeFromCart r itemId) w = (inl (Error "Must be logged in"), w).
Proof.
  intros Ht. unfold addToCart, updateQuantity, removeFromCart. rewrite Ht, orb_true_r. cbn.
  repeat split.
Qed.

(** X2: without a token nothing is sent: refreshCart empties the cart,
    and addToCart, updateQuantity and removeFromCart reject with
    'Must be logged in' and leave cart, backend and wire as they were. *)
Theorem signed_out_sends_nothing (r : Render) (w : World S) (b itemId : string) (q : Z) :
  present (token r) = false ->
  run serve (refreshCart r) w
  = (inr tt, mkWorld (mkState [] (loading (state w))) (backend w) (wire w))
  /\ run serve (addToCart r b) w = (inl (Error "Must be logged in"), w)
  /\ run serve (updateQuantity r itemId q) w = (inl (Error "Must be logged in"), w)
  /\ run serve (removeFromCart r itemId) w = (inl (Error "Must be logged in"), w).
Proof.
  intros Ht. split; [|apply run_signed_out, Ht].
  rewrite run_refreshCart_outcome, Ht, andb_false_r. reflexivity.
Qed.

(** X3: signed in, a mutation whose request is rejected rethrows that
    very error to the caller, sends no refresh after it and leaves the
    local cart untouched (new-book add, positive update, removal). *)
Theorem rejected_mutation_is_rethrown (r : Render) (w : World S) (b itemId : string) (q : Z)
    (e : JSError) (s' : S) :
  truthy (user r) = true -> present (token r) = true ->
  (find_line b (cartItems (seen r)) = None ->
   serve (cartApi.addToCart b 1 (the (token r))) (backend w) = (inl e, s') ->
   run serve (addToCart r b) w
   = (inl e, mkWorld (state w) s' (wire w ++ [cartApi.addToCart b 1 (the (token r))])))
  /\ (0 < q ->
      serve (cartApi.updateCart itemId q (the (token r))) (backend w) = (inl e, s') ->
      run serve (updateQuantity r itemId q) w
      = (inl e, mkWorld (state w) s' (wire w ++ [cartApi.updateCart itemId q (the (token r))])))
  /\ (serve (cartApi.removeFromCart itemId (the (token r))) (backend w) = (inl e, s') ->
      run serve (removeFromCart r itemId) w
      = (inl e, mkWorld (state w) s' (wire w ++ [cartApi.removeFromCart itemId (the (token r))]))).
Proof.
  intros Hu Ht. split; [|split].
  - intros Hf Hs. unfold addToCart. rewrite Hu, Ht, Hf. cbn. rewrite Hs. reflexivity.
  - intros Hq Hs. unfold updateQuantity. rewrite Ht. cbn [negb].
    destruct (Z.leb_spec q 0); [lia|]. cbn. rewrite Hs. reflexivity.
  - intros Hs. unfold removeFromCart. rewrite Ht. cbn. rewrite Hs. reflexivity.
Qed.

End CartOutcomes.

Lemma signed_out_sends_nothing_witness :
  let r := Cart.mkRender JS.JNull None Scenario.idle in
  let w := Cart.mkWorld Scenario.showing_dune Scenario.empty_cart [] in
  let serve := Backend.serve Scenario.documented in
  Cart.run serve (Cart.refreshCart r) w
  = (inr tt, Cart.mkWorld (Cart.mkState [] false) Scenario.empty_cart [])
  /\ Cart.run serve (Cart.addToCart r "42") w = (inl (JS.Error "Must be logged in"), w)
  /\ Cart.run serve (Cart.updateQuantity r "7" 2) w = (inl (JS.Error "Must be logged in"), w)
  /\ Cart.run serve (Cart.removeFromCart r "7") w = (inl (JS.Error "Must be logged in"), w).
Proof.
  intros r w serve.
  apply (signed_out_sends_nothing serve r w "42" "7" 2). reflexivity.
Defined.

Lemma rejected_mutation_is_rethrown_witness :
  let r := Scenario.signed_in Scenario.idle in
  let expired := Backend.mkServer [] 1 "another session" in
  let w := Cart.mkWorld Scenario.idle expired [] in
  let serve := Backend.serve Scenario.documented in
  let e := Backend.reject 401 "Unauthorized" "INVALID_TOKEN" "Invalid or expired token" in
  Cart.run serve (Cart.addToCart r "42") w
  = (inl e, Cart.mkWorld Scenario.idle expired [cartApi.addToCart "42" 1 Scenario.bearer])
  /\ Cart.run serve (Cart.updateQuantity r "7" 2) w
     = (inl e, Cart.mkWorld Scenario.idle expired [cartApi.updateCart "7" 2 Scenario.bearer])
  /\ Cart.run serve (Cart.removeFromCart r "7") w
     = (inl e, Cart.mkWorld Scenario.idle expired [cartApi.removeFromCart "7" Scenario.bearer]).
Proof.
  intros r expired w serve e.
  destruct (rejected_mutation_is_rethrown serve r w "42" "7" 2 e expired eq_refl eq_refl)
    as (Hadd & Hupdate & Hremove).
  split; [apply Hadd; reflexivity|].
  split; [apply Hupdate; [lia|reflexivity]|apply Hremove; reflexivity].
Defined.

Section CartTokens.
Import JS Cart.
Local Open Scope Z_scope.

Lemma issues_addToCart (P : cartApi.Call -> Prop) (r : Render) (b : string) :
  issues P (addToCart r b) ->
  P (cartApi.addToCart b 1 (the (token r)))
  \/ (exists i q, 0 < q /\ P (cartApi.updateCart i q (the (token r))))
  \/ (exists i, P (cartApi.removeFromCart i (the (token r))))
  \/ P (cartApi.getCart (the (token r))).
Proof.
  unfold addToCart. destruct (negb (truthy (user r)) || negb (present (token r))).
  - intros H. inversion H.
  - destruct (find_line b (cartItems (seen r))) as [existing|].
    + intros H. apply issues_updateQuantity in H as [[Hq H]|[[_ H]|H]]; eauto 8.
    + intros H. apply issues_try_catch in H as [H|[e H]].
      * apply issues_bind in H as [H|[_ H]].
        -- left. apply issues_await in H. exact H.
        -- right. right. right. apply issues_refreshCart. exact H.
      * apply issues_bind in H as [H|[_ H]].
        -- destruct (issues_console_error _ _ _ H).
        -- inversion H.
Qed.

(** X4: every request that the cart provider can send, on any path and
    under any replies, carries the token of the render that made the
    call. *)
Theorem calls_carry_the_token (r : Render) (b itemId : string) (q : Z) :
  let foreign := fun c => Backend.token_of c <> the (token r) in
  ~ issues foreign (refreshCart r)
  /\ ~ issues foreign (addToCart r b)
  /\ ~ issues foreign (updateQuantity r itemId q)
  /\ ~ issues foreign (removeFromCart r itemId).
Proof.
  intros foreign. repeat split; intros H.
  - apply issues_refreshCart in H. apply H. reflexivity.
  - apply issues_addToCart in H as [H|[(i & q' & _ & H)|[(i & H)|H]]]; apply H; reflexivity.
  - apply issues_updateQuantity in H as [[_ H]|[[_ H]|H]]; apply H; reflexivity.
  - apply issues_removeFromCart in H as [H|H]; apply H; reflexivity.
Qed.

Lemma cartCount_from (acc : Z) (l : list CartItem) :
  foldl (fun sum item => sum + quantity item) acc l = acc + cartCount l.
Proof.
  unfold cartCount. revert acc. induction l as [|i l IH]; intros acc; cbn [foldl].
  - lia.
  - rewrite IH, (IH (0 + quantity i)). lia.
Qed.

Lemma cartCount_cons (i : CartItem) (l : list CartItem) :
  cartCount (i :: l) = quantity i + cartCount l.
Proof. unfold cartCount at 1. cbn [foldl]. rewrite cartCount_from. lia. Qed.

(** X5: when every line has a quantity of at least one, the badge count
    is at least the number of lines, and it is zero (badge hidden)
    exactly for the empty cart. *)
Theorem cartCount_bounds (l : list CartItem) :
  Forall (fun item => 1 <= quantity item) l ->
  Z.of_nat (length l) <= cartCount l /\ (cartCount l = 0 <-> l = []).
Proof.
  intros H. induction H as [|i l Hi Hl IH].
  - split; [reflexivity|]. split; reflexivity.
  - rewrite cartCount_cons. destruct IH as [IH _]. cbn [length].
    split; [lia|]. split; [lia|discriminate].
Qed.

End CartTokens.

Lemma cartCount_bounds_witness :
  (Z.of_nat (length [Scenario.line7; Scenario.dune_line])
   <= Cart.cartCount [Scenario.line7; Scenario.dune_line])%Z
  /\ (Cart.cartCount [Scenario.line7; Scenario.dune_line] = 0%Z
      <-> [Scenario.line7; Scenario.dune_line] = []).
Proof.
  apply (cartCount_bounds [Scenario.line7; Scenario.dune_line]).
  repeat constructor; simpl; lia.
Defined.

(* ===================================================================== *)
(** * Catalog: the query string *)
(* ===================================================================== *)

Section CatalogQuery.
Import JS Catalog.
Local Open Scope Z_scope.

(** What each key of the query string is bound to. *)
Lemma buildQueryString_lookups (params : FilterParams) :
  let q := buildQueryString params in
  query_get "page" q = Some (num_text_or (page params) "1")
  /\ query_get "limit" q = Some (num_text_or (limit params) "20")
  /\ query_get "categories" q
     = (cats ← categories params;
        if 0 <? Z.of_nat (length cats) then Some (join "," cats) else None)
  /\ query_get "min_price" q = pretty <$> minPrice params
  /\ query_get "max_price" q = pretty <$> maxPrice params
  /\ query_get "min_rating" q
     = (v ← minRating params; if 0 <? v then Some (pretty v) else None)
  /\ query_get "search" q
     = (text ← search params;
        if String.eqb text EmptyString then None else Some text)
  /\ query_get "sort_by" q = Some (fst (sort_clause (default newest (sortBy params))))
  /\ query_get "sort_order" q = Some (snd (sort_clause (default newest (sortBy params))))
  /\ NoDup (map fst q).
Proof.
  intros q. subst q. unfold buildQueryString, append_if.
  destruct params as [cats mn mx mr sb se pg lm].
  cbn [categories minPrice maxPrice minRating sortBy search page limit].
  destruct (sort_clause (default newest sb)) as [sf so] eqn:Es.
  destruct cats as [cats|], mn as [mn|], mx as [mx|], mr as [mr|], se as [se|];
    cbn [mbind option_bind fmap option_fmap option_map];
    repeat case_match; try (cbn in *; discriminate);
    cbn; (repeat split; try reflexivity);
    repeat (apply NoDup_cons; split;
            [cbn; rewrite ?not_elem_of_cons; repeat split;
             first [discriminate|apply not_elem_of_nil]|]);
    apply NoDup_nil; exact I.
Qed.

(** X6: the query string carries each parameter at most once; page and
    limit are always present (defaults 1 and 20), as are sort_by and
    sort_order; categories, min_rating and search are left out when
    empty, zero or blank; the price bounds are sent whenever given. *)
Theorem buildQueryString_parameters (params : FilterParams) :
  let q := buildQueryString params in
  query_get "page" q = Some (num_text_or (page params) "1")
  /\ query_get "limit" q = Some (num_text_or (limit params) "20")
  /\ query_get "categories" q
     = (cats ← categories params;
        if 0 <? Z.of_nat (length cats) then Some (join "," cats) else None)
  /\ query_get "min_price" q = pretty <$> minPrice params
  /\ query_get "max_price" q = pretty <$> maxPrice params
  /\ query_get "min_rating" q
     = (v ← minRating params; if 0 <? v then Some (pretty v) else None)
  /\ query_get "search" q
     = (text ← search params;
        if String.eqb text EmptyString then None else Some text)
  /\ query_get "sort_by" q = Some (fst (sort_clause (default newest (sortBy params))))
  /\ query_get "sort_order" q = Some (snd (sort_clause (default newest (sortBy params))))
  /\ NoDup (map fst q).
Proof. apply buildQueryString_lookups. Qed.

End CatalogQuery.

(* ===================================================================== *)
(** * Catalog: pages and page buttons *)
(* ===================================================================== *)

Section PaginationFacts.
Import Pagination.
Local Open Scope Z_scope.

Lemma ceil_div_spec (a : Z) : 12 * (ceil_div a 12 - 1) < a <= 12 * ceil_div a 12.
Proof.
  unfold ceil_div.
  pose proof (Z.div_mod (- a) 12 ltac:(lia)).
  pose proof (Z.mod_pos_bound (- a) 12 ltac:(lia)). lia.
Qed.

Lemma totalPages_client {X : Type} (books : list X) :
  let n := totalPages None books in
  1 <= n /\ Z.of_nat (length books) <= 12 * n
  /\ (12 * (n - 1) < Z.of_nat (length books) \/ books = []).
Proof.
  cbn. unfold ITEMS_PER_PAGE.
  pose proof (ceil_div_spec (Z.of_nat (length books))) as H.
  destruct (Z.eqb_spec (ceil_div (Z.of_nat (length books)) 12) 0) as [E|E].
  - rewrite E in H. split; [lia|]. split; [lia|]. right.
    destruct books; [reflexivity|cbn in H; lia].
  - split; [lia|]. split; [lia|]. left. lia.
Qed.

Lemma slice_page {X : Type} (p : Z) (l : list X) :
  1 <= p ->
  slice ((p - 1) * 12) (p * 12) l = take 12 (drop (Z.to_nat ((p - 1) * 12)) l).
Proof.
  intros Hp. unfold slice.
  destruct (Z.ltb_spec ((p - 1) * 12) 0); [lia|].
  destruct (Z.ltb_spec (p * 12) 0); [lia|].
  set (len := Z.of_nat (length l)).
  destruct (Z.le_gt_cases len ((p - 1) * 12)) as [Hle|Hgt].
  - rewrite !Z.min_r by lia.
    rewrite !drop_ge by (subst len; lia). destruct (Z.to_nat _); reflexivity.
  - rewrite (Z.min_l ((p - 1) * 12) len) by lia.
    destruct (Z.le_gt_cases len (p * 12)) as [Hle'|Hgt'].
    + rewrite Z.min_r by lia.
      rewrite !take_ge; [reflexivity| |]; rewrite length_drop; subst len; lia.
    + rewrite Z.min_l by lia. f_equal. lia.
Qed.

Lemma pages_concat {X : Type} (l : list X) (n : nat) :
  concat (map (fun p => visibleBooks None l p) (seqZ 1 (Z.of_nat n)))
  = take (12 * n) l.
Proof.
  induction n as [|n IH].
  - reflexivity.
  - replace (Z.of_nat (Datatypes.S n)) with (Z.of_nat n + 1) by lia.
    rewrite seqZ_app by lia. rewrite map_app, concat_app, IH.
    rewrite (seqZ_cons _ 1) by lia. rewrite seqZ_nil by lia. cbn [map concat].
    rewrite app_nil_r. unfold visibleBooks, ITEMS_PER_PAGE.
    rewrite slice_page by lia.
    replace (Z.to_nat ((1 + Z.of_nat n - 1) * 12)) with (12 * n)%nat by lia.
    rewrite take_take_drop. f_equal. lia.
Qed.

Lemma slice_at_most {X : Type} (p : Z) (l : list X) :
  (length (slice ((p - 1) * 12) (p * 12) l) <= 12)%nat.
Proof.
  unfold slice. rewrite length_take.
  destruct (Z.ltb_spec ((p - 1) * 12) 0), (Z.ltb_spec (p * 12) 0); lia.
Qed.

(** X7: without server-side pagination the pages 1..totalPages split
    the book list: in order they concatenate to the whole list, no page
    holds more than twelve books, no page of a non-empty list is empty,
    and every page after the last is empty. *)
Theorem client_pages_partition {X : Type} (books : list X) :
  let n := totalPages None books in
  concat (map (visibleBooks None books) (seqZ 1 n)) = books
  /\ (forall p, (length (visibleBooks None books p) <= 12)%nat)
  /\ (forall p, 1 <= p <= n -> books <> [] -> visibleBooks None books p <> [])
  /\ (forall p, n < p -> visibleBooks None books p = []).
Proof.
  intros n. destruct (totalPages_client books) as (Hn & Hup & Hlow). fold n in Hn, Hup, Hlow.
  split; [|split; [|split]].
  - replace n with (Z.of_nat (Z.to_nat n)) by lia.
    rewrite pages_concat. apply take_ge. lia.
  - intros p. apply slice_at_most.
  - intros p Hp Hne. destruct Hlow as [Hlow|]; [|contradiction].
    unfold visibleBooks, ITEMS_PER_PAGE. rewrite slice_page by lia.
    intros E. apply (f_equal length) in E. rewrite length_take, length_drop in E.
    change (length (@nil X)) with 0%nat in E. unfold n in *. lia.
  - intros p Hp. unfold visibleBooks, ITEMS_PER_PAGE. rewrite slice_page by lia.
    rewrite drop_ge by lia. reflexivity.
Qed.

Lemma StronglySorted_filter_lt (f : Z -> bool) (l : list Z) :
  StronglySorted Z.lt l -> StronglySorted Z.lt (List.filter f l).
Proof.
  induction 1 as [|x l Hs IH Hall]; cbn [List.filter]; [constructor|].
  destruct (f x); [|exact IH].
  constructor; [exact IH|].
  rewrite Forall_forall in *. intros y Hy. apply Hall.
  apply list_elem_of_In. apply list_elem_of_In in Hy. apply filter_In in Hy. tauto.
Qed.

Lemma StronglySorted_seqZ (m n : Z) : StronglySorted Z.lt (seqZ m n).
Proof.
  destruct (Z.le_gt_cases n 0) as [H|H]; [rewrite seqZ_nil by lia; constructor|].
  replace n with (Z.of_nat (Z.to_nat n)) by lia. clear H.
  generalize (Z.to_nat n) as k. clear n. intros k. revert m.
  induction k as [|k IH]; intros m; [constructor|].
  rewrite seqZ_cons by lia. constructor.
  - replace (Z.pred (Z.of_nat (Datatypes.S k))) with (Z.of_nat k) by lia. apply IH.
  - rewrite Forall_forall. intros y Hy. apply list_elem_of_lookup in Hy as [i Hi].
    apply lookup_seqZ in Hi. lia.
Qed.

Lemma pageNumbers_elem (T cur p : Z) :
  p ∈ pageNumbers T cur <-> 1 < T /\ 1 <= p <= T /\ shows T cur p = true.
Proof.
  unfold pageNumbers, all_pages. destruct (Z.ltb_spec 1 T) as [HT|HT].
  - rewrite list_elem_of_In, filter_In, <- list_elem_of_In.
    rewrite list_elem_of_lookup. split.
    + intros [[i Hi] Hs]. apply lookup_seqZ in Hi. split; [exact HT|]. split; [lia|exact Hs].
    + intros (_ & Hp & Hs). split; [|exact Hs]. exists (Z.to_nat (p - 1)).
      apply lookup_seqZ. lia.
  - split; [intros H; apply elem_of_nil in H; contradiction|lia].
Qed.

Lemma with_ellipsis_consecutive (prev : option Z) (m n : Z) :
  match prev with Some q => q = m - 1 | None => True end ->
  with_ellipsis prev (seqZ m n) = (fun p => (p, false)) <$> seqZ m n.
Proof.
  destruct (Z.le_gt_cases n 0) as [H|H]; [rewrite seqZ_nil by lia; reflexivity|].
  replace n with (Z.of_nat (Z.to_nat n)) by lia. clear H.
  generalize (Z.to_nat n) as k. clear n. intros k. revert prev m.
  induction k as [|k IH]; intros prev m Hprev; [reflexivity|].
  rewrite seqZ_cons by lia. cbn [with_ellipsis fmap list_fmap]. f_equal.
  - f_equal. destruct prev as [q|]; [|reflexivity]. subst q.
    replace (m - (m - 1)) with 1 by lia. rewrite andb_false_r. reflexivity.
  - replace (Z.pred (Z.of_nat (Datatypes.S k))) with (Z.of_nat k) by lia.
    apply IH. cbn. lia.
Qed.

(** X8: with a single page (or none) no page button is drawn.  With more
    than one page, the buttons are in increasing order without repeats,
    all within 1..totalPages; the first page, the last page and the
    in-range neighbours of the current page are always among them; there
    are never more than seven; and up to seven pages every page has a
    button and no ellipsis is drawn. *)
Theorem pageNumbers_window (T cur : Z) :
  (T <= 1 -> pageNumbers T cur = [] /\ pageButtons T cur = [])
  /\ StronglySorted Z.lt (pageNumbers T cur)
  /\ (forall p, p ∈ pageNumbers T cur -> 1 <= p <= T)
  /\ (1 < T -> 1 ∈ pageNumbers T cur /\ T ∈ pageNumbers T cur)
  /\ (forall p, 1 < T -> 1 <= p <= T -> cur - 1 <= p <= cur + 1 -> p ∈ pageNumbers T cur)
  /\ (length (pageNumbers T cur) <= 7)%nat
  /\ (1 < T <= 7 -> pageButtons T cur = (fun p => (p, false)) <$> seqZ 1 T).
Proof.
  split; [|split; [|split; [|split; [|split; [|split]]]]].
  - intros HT. unfold pageButtons, pageNumbers.
    destruct (Z.ltb_spec 1 T); [lia|]. split; reflexivity.
  - unfold pageNumbers. destruct (1 <? T); [|constructor].
    apply StronglySorted_filter_lt, StronglySorted_seqZ.
  - intros p Hp. apply pageNumbers_elem in Hp. tauto.
  - intros HT. split; apply pageNumbers_elem; (split; [exact HT|]); (split; [lia|]);
      unfold shows; destruct (T <=? 7); try reflexivity;
      rewrite Z.eqb_refl, ?orb_true_r; reflexivity.
  - intros p HT Hp Hw. apply pageNumbers_elem. split; [exact HT|]. split; [exact Hp|].
    unfold shows. destruct (T <=? 7); [reflexivity|].
    destruct ((p =? 1) || (p =? T)); [reflexivity|].
    destruct (Z.leb_spec (cur - 1) p), (Z.leb_spec p (cur + 1)); try lia. reflexivity.
  - destruct (Z.leb_spec T 7) as [HT|HT].
    + unfold pageNumbers, all_pages. destruct (1 <? T); [|cbn; lia].
      transitivity (length (seqZ 1 T)); [apply filter_length_le|].
      rewrite length_seqZ. lia.
    + transitivity (length [1; T; cur - 1; cur; cur + 1]); [|cbn; lia].
      apply submseteq_length, NoDup_submseteq.
      * apply NoDup_ListNoDup. unfold pageNumbers. destruct (1 <? T); [|constructor].
        apply List.NoDup_filter, NoDup_ListNoDup, NoDup_seqZ.
      * intros p Hp. apply pageNumbers_elem in Hp as (_ & Hr & Hs). unfold shows in Hs.
        destruct (Z.leb_spec T 7); [lia|].
        rewrite !elem_of_cons.
        destruct (Z.eqb_spec p 1), (Z.eqb_spec p T); try lia.
        cbn in Hs.
        destruct (Z.leb_spec (cur - 1) p), (Z.leb_spec p (cur + 1)); try discriminate.
        lia.
  - intros HT. unfold pageButtons, pageNumbers, all_pages, shows.
    destruct (Z.ltb_spec 1 T); [|lia]. destruct (Z.leb_spec T 7); [|lia].
    replace (List.filter (fun _ : Z => true) (seqZ 1 T)) with (seqZ 1 T).
    + apply with_ellipsis_consecutive. exact I.
    + generalize (seqZ 1 T) as l. intros l.
      induction l as [|x l IH]; [reflexivity|]. cbn [List.filter]. f_equal. exact IH.
Qed.

End PaginationFacts.

Lemma client_pages_partition_witness :
  let books := [1; 2; 3; 4; 5; 6; 7; 8; 9; 10; 11; 12; 13]%nat in
  Pagination.visibleBooks None books 2 <> []
  /\ Pagination.visibleBooks None books 3 = [].
Proof.
  intros books.
  destruct (client_pages_partition books) as (_ & _ & Hfull & Hpast).
  split.
  - apply Hfull; [vm_compute; split; discriminate|discriminate].
  - apply Hpast. reflexivity.
Defined.

Lemma pageNumbers_window_witness :
  (Pagination.pageNumbers 1 1 = [] /\ Pagination.pageButtons 1 1 = [])
  /\ (1%Z ∈ Pagination.pageNumbers 10 5 /\ 10%Z ∈ Pagination.pageNumbers 10 5)
  /\ 4%Z ∈ Pagination.pageNumbers 10 5
  /\ Pagination.pageButtons 7 3 = (fun p => (p, false)) <$> seqZ 1 7.
Proof.
  destruct (pageNumbers_window 1 1) as (Hsingle & _).
  destruct (pageNumbers_window 10 5) as (_ & _ & _ & Hends & Hnear & _).
  destruct (pageNumbers_window 7 3) as (_ & _ & _ & _ & _ & _ & Hsmall).
  split; [apply Hsingle; lia|].
  split; [apply Hends; lia|].
  split; [apply Hnear; lia|apply Hsmall; lia].
Defined.

(* ===================================================================== *)
(** * Catalog: categories of the normalised books *)
(* ===================================================================== *)

Section CategoryLookup.
Import JS Catalog Categories.
Local Open Scope Z_scope.

Lemma build_categoryMap_snoc (cats : list BookCatalogCategory) (cat : BookCatalogCategory) :
  build_categoryMap (cats ++ [cat]) = <[cat_id cat := cat]> (build_categoryMap cats).
Proof. unfold build_categoryMap. rewrite foldl_app. reflexivity. Qed.

Lemma build_categoryMap_lookup (cats : list BookCatalogCategory) (c : string) :
  build_categoryMap cats !! c = last (List.filter (named c) cats).
Proof.
  induction cats as [|cat cats IH] using rev_ind; [reflexivity|].
  rewrite build_categoryMap_snoc, List.filter_app. cbn [List.filter]. unfold named at 2.
  destruct (String.eqb_spec (cat_id cat) c) as [E|E].
  - subst c. rewrite lookup_insert_eq, last_snoc. reflexivity.
  - rewrite lookup_insert_ne by exact E. rewrite app_nil_r. exact IH.
Qed.

(** X9: a book whose category is the string c is given the last fetched
    category with id c; when no fetched category has that id, it gets a
    category made up from the string: id and name c, empty description,
    both timestamps the current time, and, for a name written in ASCII,
    the slug that lower-cases c and puts one dash for every run of white
    space. *)
Theorem normalizeBook_resolves_category
    (now : Z) (book : JSValue) (cats : list BookCatalogCategory) (c : string) :
  nullish book = false ->
  get book "category" = JStr c ->
  exists b,
    normalizeBook now book (build_categoryMap cats) = inr (Some b)
    /\ match last (List.filter (named c) cats) with
       | Some fetched => category b = fetched
       | None =>
           cat_id (category b) = c
           /\ cat_name (category b) = JStr c
           /\ cat_description (category b) = JStr EmptyString
           /\ cat_created_at (category b) = now
           /\ cat_updated_at (category b) = now
           /\ (ascii_only c = true ->
               cat_slug (category b) = JStr (dash_spaces false (toLowerCase c)))
       end.
Proof.
  intros Hb Hc. unfold normalizeBook. rewrite Hb, Hc, build_categoryMap_lookup.
  eexists. split; [reflexivity|].
  destruct (last (List.filter (named c) cats)); cbn; repeat split.
Qed.

Lemma lower_slug_char (ch : ascii) : is_space ch = false -> slug_char (lower ch) = true.
Proof.
  destruct ch as [[] [] [] [] [] [] [] []]; vm_compute; intros H;
    first [reflexivity|discriminate].
Qed.

Lemma lower_is_space (ch : ascii) : is_space (lower ch) = is_space ch.
Proof. destruct ch as [[] [] [] [] [] [] [] []]; vm_compute; reflexivity. Qed.

(** X10: the slug generated from a category name contains no white space
    and no upper-case ASCII letter, whatever the name. *)
Theorem slug_characters (c : string) (in_run : bool) :
  forallb slug_char (String.list_ascii_of_string (dash_spaces in_run (toLowerCase c))) = true.
Proof.
  revert in_run. induction c as [|ch c IH]; intros in_run; [reflexivity|].
  cbn [toLowerCase dash_spaces]. rewrite lower_is_space.
  destruct (is_space ch) eqn:E.
  - destruct in_run; [apply IH|].
    cbn [String.list_ascii_of_string forallb]. rewrite IH. reflexivity.
  - cbn [String.list_ascii_of_string forallb]. rewrite IH, lower_slug_char by exact E.
    reflexivity.
Qed.

(** X11: the book list is read from response.books when that is an
    array, else from response.data.books, and a response with neither
    books nor data yields the empty list. *)
Theorem books_of_response_envelopes
    (now : Z) (cats : list BookCatalogCategory)
    (fields inner : list (string * JSValue)) (l : list JSValue) :
  (lookup_field "books" fields = JArr l ->
   books_of_response now cats (JObj fields) = normalizedBooks now (build_categoryMap cats) l)
  /\ (lookup_field "books" fields = JUndefined ->
      lookup_field "data" fields = JObj inner ->
      lookup_field "books" inner = JArr l ->
      books_of_response now cats (JObj fields) = normalizedBooks now (build_categoryMap cats) l)
  /\ (lookup_field "books" fields = JUndefined ->
      lookup_field "data" fields = JUndefined ->
      books_of_response now cats (JObj fields) = inr []).
Proof.
  unfold books_of_response, get_opt, or, get. cbn [nullish].
  split; [|split].
  - intros E. rewrite E. reflexivity.
  - intros E1 E2 E3. rewrite E1, E2. cbn. rewrite E3. reflexivity.
  - intros E1 E2. rewrite E1, E2. reflexivity.
Qed.

(** X12: for an array without null or undefined elements, normalisation
    succeeds and keeps exactly the books that have a string or object
    category, in their order, with id and title copied from the input;
    every kept book has an image_url that is null or truthy. *)
Theorem normalizedBooks_keeps_categorised
    (now : Z) (m : gmap string BookCatalogCategory) (l : list JSValue) :
  Forall (fun book => nullish book = false) l ->
  exists out,
    normalizedBooks now m l = inr out
    /\ id <$> out = (fun book => get book "id") <$> List.filter has_category l
    /\ title <$> out = (fun book => get book "title") <$> List.filter has_category l
    /\ Forall (fun b => image_url b = JNull \/ truthy (image_url b) = true) out.
Proof. apply normalizedBooks_kept. Qed.

End CategoryLookup.

Lemma normalizeBook_resolves_category_witness :
  let fetched :=
    [Catalog.mkCategory "Science Fiction" (JS.JStr "SF") (JS.JStr "sf")
                        (JS.JStr "Robots and rockets") 5 6] in
  (exists b,
     Catalog.normalizeBook 9 Scenario.labelled (Catalog.build_categoryMap fetched)
     = inr (Some b)
     /\ Catalog.category b
        = Catalog.mkCategory "Science Fiction" (JS.JStr "SF") (JS.JStr "sf")
                             (JS.JStr "Robots and rockets") 5 6)
  /\ (exists b,
        Catalog.normalizeBook 9 Scenario.labelled (Catalog.build_categoryMap []) = inr (Some b)
        /\ Catalog.cat_id (Catalog.category b) = "Science Fiction"
        /\ Catalog.cat_name (Catalog.category b) = JS.JStr "Science Fiction"
        /\ Catalog.cat_description (Catalog.category b) = JS.JStr EmptyString
        /\ Catalog.cat_created_at (Catalog.category b) = 9%Z
        /\ Catalog.cat_updated_at (Catalog.category b) = 9%Z
        /\ Catalog.cat_slug (Catalog.category b) = JS.JStr "science-fiction").
Proof.
  intros fetched. split.
  - apply (normalizeBook_resolves_category 9 Scenario.labelled fetched "Science Fiction");
      reflexivity.
  - destruct (normalizeBook_resolves_category 9 Scenario.labelled [] "Science Fiction"
                eq_refl eq_refl) as (b & Hb & H).
    cbn in H. destruct H as (Hid & Hname & Hdescription & Hcreated & Hupdated & Hslug).
    exists b. repeat split; try assumption. apply Hslug. reflexivity.
Defined.

Lemma books_of_response_envelopes_witness :
  let flat := [("books", JS.JArr [Scenario.labelled])] in
  let inner := [("books", JS.JArr [Scenario.labelled]); ("pagination", JS.JNull)] in
  let nested := [("success", JS.JBool true); ("data", JS.JObj inner)] in
  Catalog.books_of_response 9 [] (JS.JObj flat)
  = Catalog.normalizedBooks 9 (Catalog.build_categoryMap []) [Scenario.labelled]
  /\ Catalog.books_of_response 9 [] (JS.JObj nested)
     = Catalog.normalizedBooks 9 (Catalog.build_categoryMap []) [Scenario.labelled]
  /\ Catalog.books_of_response 9 [] (JS.JObj [("success", JS.JBool true)]) = inr [].
Proof.
  intros flat inner nested.
  destruct (books_of_response_envelopes 9 [] flat [] [Scenario.labelled]) as (Hflat & _ & _).
  destruct (books_of_response_envelopes 9 [] nested inner [Scenario.labelled])
    as (_ & Hnested & _).
  destruct (books_of_response_envelopes 9 [] [("success", JS.JBool true)] [] [])
    as (_ & _ & Hneither).
  split; [apply Hflat; reflexivity|].
  split; [apply Hnested; reflexivity|apply Hneither; reflexivity].
Defined.

Lemma normalizedBooks_keeps_categorised_witness :
  let l := [Scenario.uncategorised; Scenario.labelled] in
  exists out,
    Catalog.normalizedBooks 9 ∅ l = inr out
    /\ Catalog.id <$> out = (fun book => JS.get book "id") <$> List.filter Catalog.has_category l
    /\ Catalog.title <$> out
       = (fun book => JS.get book "title") <$> List.filter Catalog.has_category l
    /\ Forall (fun b => Catalog.image_url b = JS.JNull
                        \/ JS.truthy (Catalog.image_url b) = true) out.
Proof.
  intros l. apply (normalizedBooks_keeps_categorised 9 ∅ l).
  repeat constructor.
Defined.

(* ===================================================================== *)
(** * Signing in and out *)
(* ===================================================================== *)

Section SessionFacts.
Import JS Auth JSONText Session.

(** X13: signOut removes the token and the user record from
    localStorage, leaves every other key alone, clears both from the
    state, calls the logout endpoint exactly when the render held a
    token, and does so whether or not that call succeeds; a later page
    load starts signed out. *)
Theorem signOut_clears (logout : JSError + JSValue) (storage : gmap string string) (st : State) :
  let '(called, storage', st') := signOut logout storage st in
  called = present (token st)
  /\ storage' !! TOKEN_KEY = None /\ storage' !! USER_KEY = None
  /\ (forall k, k <> TOKEN_KEY -> k <> USER_KEY -> storage' !! k = storage !! k)
  /\ token st' = None /\ user st' = JNull
  /\ restore storage' initial = (None, mkState JNull None false).
Proof.
  cbn. repeat split.
  - rewrite lookup_delete_ne by discriminate. apply lookup_delete_eq.
  - apply lookup_delete_eq.
  - intros k H1 H2. rewrite !lookup_delete_ne by congruence. reflexivity.
  - apply restore_missing. rewrite lookup_delete_ne by discriminate.
    rewrite lookup_delete_eq. reflexivity.
Qed.

(** X14: a successful sign-in with a non-empty token and a user record
    that JSON.parse reads back from its JSON.stringify text returns no
    error, sets token and user, and stores them so that the next page
    load restores the same session; a failed sign-in returns the error
    and changes neither the storage nor the state. *)
Theorem signIn_then_restore (c : Credentials) (text : string)
    (storage : gmap string string) (st : State) :
  newToken c <> EmptyString ->
  JSON_stringify (newUser c) = Some text ->
  JSON_parse text = Some (newUser c) ->
  (let '(error, storage', st') := signIn (inr c) storage st in
   error = None
   /\ token st' = Some (newToken c) /\ user st' = newUser c
   /\ restore storage' initial = (None, mkState (newUser c) (Some (newToken c)) false))
  /\ (forall e, signIn (inl e) storage st = (Some e, storage, st)).
Proof.
  intros Ht Hs Hp. split; [|reflexivity]. cbn. rewrite Hs. cbn. repeat split.
  apply (restore_readable _ (newToken c) text).
  - rewrite lookup_insert_ne by discriminate. apply lookup_insert_eq.
  - exact Ht.
  - apply lookup_insert_eq.
  - intros ->. vm_compute in Hp. discriminate.
  - exact Hp.
Qed.

End SessionFacts.

Lemma signIn_then_restore_witness :
  let c := Session.mkCredentials Scenario.bearer Scenario.shopper in
  (let '(error, storage', st') := Session.signIn (inr c) ∅ Auth.initial in
   error = None
   /\ Auth.token st' = Some Scenario.bearer /\ Auth.user st' = Scenario.shopper
   /\ Auth.restore storage' Auth.initial
      = (None, Auth.mkState Scenario.shopper (Some Scenario.bearer) false))
  /\ (forall e, Session.signIn (inl e) ∅ Auth.initial = (Some e, ∅, Auth.initial)).
Proof.
  intros c.
  apply (signIn_then_restore c (JS.json_text "{'id':1,'email':'reader@example.vn'}")
           ∅ Auth.initial).
  - discriminate.
  - reflexivity.
  - reflexivity.
Defined.

(* ===================================================================== *)
(** * Chat: the frame that sendMessage sends *)
(* ===================================================================== *)

Section ComposerFacts.
Import JS JSONText Composer.

Lemma list_ascii_app (a b : string) :
  String.list_ascii_of_string (a +:+ b)
  = String.list_ascii_of_string a ++ String.list_ascii_of_string b.
Proof. induction a as [|c a IH]; [reflexivity|]. simpl. f_equal. exact IH. Qed.

Lemma parse_chars_escape_char (c : ascii) (tail : list ascii) (s : string) (rest : list ascii) :
  plain_char c = true ->
  parse_chars tail = Some (s, rest) ->
  parse_chars (String.list_ascii_of_string (escape_char c) ++ tail) = Some (String c s, rest).
Proof.
  intros Hc Ht.
  destruct c as [[] [] [] [] [] [] [] []]; vm_compute in Hc; try discriminate Hc;
    match goal with
    | |- context [escape_char ?c] =>
        let e := eval vm_compute in (escape_char c) in change (escape_char c) with e
    end;
    simpl; rewrite Ht; reflexivity.
Qed.

Lemma parse_chars_escape (s : string) (rest : list ascii) :
  plain s = true ->
  parse_chars (String.list_ascii_of_string (escape s) ++ quote_mark :: rest) = Some (s, rest).
Proof.
  induction s as [|c s IH]; intros Hs.
  - reflexivity.
  - cbn [plain] in Hs. apply andb_prop in Hs as [Hc Hs].
    cbn [escape]. rewrite list_ascii_app, <- app_assoc.
    apply parse_chars_escape_char; [exact Hc|]. apply IH, Hs.
Qed.

Lemma frame_chars (input : string) :
  String.list_ascii_of_string (frame input)
  = String.list_ascii_of_string (json_text "{'type':'chat','payload':{'content':'")
    ++ String.list_ascii_of_string (escape input)
    ++ quote_mark :: String.list_ascii_of_string "}}".
Proof.
  unfold frame. simpl. unfold quote.
  repeat (rewrite list_ascii_app || cbn [String.list_ascii_of_string app]
          || rewrite <- app_assoc).
  reflexivity.
Qed.

Lemma parse_value_string (fuel : nat) (l : list ascii) (s : string) (rest : list ascii) :
  parse_chars l = Some (s, rest) ->
  parse_value (S fuel) (quote_mark :: l) = Some (JStr s, rest).
Proof. intros H. cbn. rewrite H. reflexivity. Qed.

Lemma parse_value_object (fuel : nat) (l : list ascii)
    (fields : list (string * JSValue)) (rest : list ascii) :
  parse_members fuel [] (quote_mark :: l) = Some (fields, rest) ->
  parse_value (S fuel) ("{"%char :: quote_mark :: l) = Some (JObj fields, rest).
Proof. intros H. unfold quote_mark in *. simpl. simpl in H. rewrite H. reflexivity. Qed.

Lemma parse_members_last (fuel : nat) (acc : list (string * JSValue)) (l : list ascii)
    (k : string) (v : JSValue) (r2 r3 : list ascii) :
  parse_chars l = Some (k, ":"%char :: r2) ->
  parse_value fuel r2 = Some (v, "}"%char :: r3) ->
  parse_members (S fuel) acc (quote_mark :: l) = Some (set_field k v acc, r3).
Proof.
  intros H1 H2. unfold quote_mark. simpl. rewrite H1. simpl. rewrite H2. reflexivity.
Qed.

Lemma parse_members_more (fuel : nat) (acc : list (string * JSValue)) (l : list ascii)
    (k : string) (v : JSValue) (r2 r3 : list ascii) :
  parse_chars l = Some (k, ":"%char :: r2) ->
  parse_value fuel r2 = Some (v, ","%char :: r3) ->
  parse_members (S fuel) acc (quote_mark :: l) = parse_members fuel (set_field k v acc) r3.
Proof.
  intros H1 H2. unfold quote_mark. simpl. rewrite H1. simpl. rewrite H2. reflexivity.
Qed.

Lemma JSON_parse_sent_frame (input : string) :
  plain input = true ->
  JSON_parse (frame input)
  = Some (JObj [("type", JStr "chat"); ("payload", JObj [("content", JStr input)])]).
Proof.
  intros Hp. unfold JSON_parse. rewrite frame_chars.
  remember (2 * length _ + 2)%nat as fuel eqn:Ef.
  assert (7 <= fuel)%nat as Hfuel by (subst fuel; rewrite length_app; cbn; lia).
  clear Ef. do 7 (destruct fuel as [|fuel]; [lia|]). clear Hfuel.
  set (tail := String.list_ascii_of_string (escape input)
               ++ quote_mark :: String.list_ascii_of_string "}}").
  assert (parse_value (S (S (S (S (S (S (S fuel)))))))
            (String.list_ascii_of_string (json_text "{'type':'chat','payload':{'content':'")
             ++ tail)
          = Some (JObj [("type", JStr "chat"); ("payload", JObj [("content", JStr input)])], []))
    as Htop.
  { match goal with
    | |- context [String.list_ascii_of_string (json_text ?s)] =>
        let l := eval vm_compute in (String.list_ascii_of_string (json_text s)) in
        change (String.list_ascii_of_string (json_text s)) with l
    end.
    cbn [app]. change "034"%char with quote_mark.
    apply parse_value_object.
    erewrite parse_members_more;
      [|exact (parse_chars_escape "type" _ eq_refl)
       |apply parse_value_string; exact (parse_chars_escape "chat" _ eq_refl)].
    eapply (parse_members_last _ (set_field "type" (JStr "chat") []) _
              "payload" (JObj [("content", JStr input)]));
      [exact (parse_chars_escape "payload" _ eq_refl)|].
    apply parse_value_object.
    eapply (parse_members_last _ [] _ "content" (JStr input));
      [exact (parse_chars_escape "content" _ eq_refl)|].
    apply parse_value_string, parse_chars_escape, Hp. }
  rewrite Htop. reflexivity.
Qed.

(** X15: sendMessage does nothing when the input is blank or there is
    no socket.  Otherwise, on an open socket it transmits one frame and
    clears the input; on a socket that is still connecting send throws,
    nothing is transmitted and the input is kept; on a closing or closed
    socket nothing is transmitted and the input is cleared all the same.
    For an input without control characters other than backspace, tab,
    line feed, form feed and carriage return, the frame parses back to a
    chat frame whose payload is exactly the object with the typed
    content, which the receiving onmessage handler appends. *)
Theorem sendMessage_frame (input : string) (i : nat) :
  (forall socket,
     blank input = true \/ socket = None ->
     sendMessage input socket = mkOutcome false None input)
  /\ (blank input = false ->
      sendMessage input (Some (i, OPEN)) = mkOutcome false (Some (i, frame input)) EmptyString
      /\ sendMessage input (Some (i, CONNECTING)) = mkOutcome true None input
      /\ sendMessage input (Some (i, CLOSING)) = mkOutcome false None EmptyString
      /\ sendMessage input (Some (i, CLOSED)) = mkOutcome false None EmptyString)
  /\ (plain input = true ->
      JSON_parse (frame input)
      = Some (JObj [("type", JStr "chat"); ("payload", JObj [("content", JStr input)])])
      /\ Chat.chat_payload
           (inr (JObj [("type", JStr "chat"); ("payload", JObj [("content", JStr input)])]))
         = Some (JObj [("content", JStr input)])).
Proof.
  unfold sendMessage. split; [|split].
  - intros socket [-> | ->]; [reflexivity|]. destruct (blank input); reflexivity.
  - intros ->. repeat split.
  - intros Hp. split; [exact (JSON_parse_sent_frame input Hp)|reflexivity].
Qed.

End ComposerFacts.

Lemma sendMessage_frame_witness :
  let said := JS.json_text "She said 'hi' \ twice" in
  (Composer.sendMessage "   " (Some (0%nat, Composer.OPEN))
   = Composer.mkOutcome false None "   "
   /\ Composer.sendMessage said None = Composer.mkOutcome false None said)
  /\ (Composer.sendMessage said (Some (0%nat, Composer.OPEN))
      = Composer.mkOutcome false (Some (0%nat, Composer.frame said)) EmptyString
      /\ Composer.sendMessage said (Some (0%nat, Composer.CONNECTING))
         = Composer.mkOutcome true None said
      /\ Composer.sendMessage said (Some (0%nat, Composer.CLOSING))
         = Composer.mkOutcome false None EmptyString
      /\ Composer.sendMessage said (Some (0%nat, Composer.CLOSED))
         = Composer.mkOutcome false None EmptyString)
  /\ (JS.JSON_parse (Composer.frame said)
      = Some (JS.JObj [("type", JS.JStr "chat");
                       ("payload", JS.JObj [("content", JS.JStr said)])])
      /\ Chat.chat_payload
           (inr (JS.JObj [("type", JS.JStr "chat");
                          ("payload", JS.JObj [("content", JS.JStr said)])]))
         = Some (JS.JObj [("content", JS.JStr said)])).
Proof.
  intros said.
  destruct (sendMessage_frame "   " 0%nat) as (Hblank & _ & _).
  destruct (sendMessage_frame said 0%nat) as (Hnone & Hsent & Hread).
  split; [split; [apply Hblank; left; reflexivity|apply Hnone; right; reflexivity]|].
  split; [apply Hsent; reflexivity|apply Hread; reflexivity].
Defined.

(* ===================================================================== *)
(** * Chat: which socket may reconnect *)
(* ===================================================================== *)

Section ChatSockets.
Import JS Chat Composer.

Lemma disarm_none (st : State) :
  only_current_reconnects st -> none_reconnects (disarm_and_close st).
Proof.
  intros H i s Hs. unfold disarm_and_close in Hs.
  destruct (current st) as [c|] eqn:Ec; cbn in Hs.
  - destruct (decide (c = i)) as [->|Hne].
    + apply list_lookup_insert_Some in Hs as [(_ & <- & _)|(? & _)]; [reflexivity|congruence].
    + rewrite list_lookup_insert_ne in Hs by exact Hne.
      destruct (reconnects s) eqn:E; [|reflexivity].
      specialize (H i s Hs E). congruence.
  - destruct (reconnects s) eqn:E; [|reflexivity].
    specialize (H i s Hs E). congruence.
Qed.

Lemma connect_keeps (se : Session) (st : State) :
  only_current_reconnects st -> only_current_reconnects (connectWebSocket se st).
Proof.
  intros H. unfold connectWebSocket.
  destruct (negb (present (token se))); [exact H|].
  pose proof (disarm_none st H) as Hn.
  intros i s Hs Hr. cbn in Hs |- *.
  apply lookup_app_Some in Hs as [Hs|[Hlen Hs]].
  - rewrite (Hn i s Hs) in Hr. discriminate.
  - apply list_lookup_singleton_Some in Hs as [Hi _]. f_equal. lia.
Qed.

Lemma mark_closed_keeps (i : nat) (st : State) :
  only_current_reconnects st -> only_current_reconnects (mark_closed i st).
Proof.
  intros H j s Hs Hr. unfold mark_closed in *.
  destruct (sockets st !! i) as [si|] eqn:Ei; [|exact (H j s Hs Hr)].
  cbn in Hs |- *. destruct (decide (i = j)) as [->|Hne].
  - apply list_lookup_insert_Some in Hs as [(_ & <- & _)|(? & _)]; [|congruence].
    unfold reconnects in Hr. cbn in Hr. rewrite andb_false_r in Hr. discriminate.
  - rewrite list_lookup_insert_ne in Hs by exact Hne. exact (H j s Hs Hr).
Qed.

Lemma step_keeps (se : Session) (st : State) (e : Event) :
  only_current_reconnects st -> only_current_reconnects (step se st e).
Proof.
  intros H. destruct e as [|i|i data|i|i| |fetched|]; cbn [step].
  - destruct (present (token se) && truthy (user se)); [|exact H].
    unfold fetchHistory. destruct (negb (present (token se))); [apply connect_keeps, H|].
    apply (connect_keeps se) in H. exact H.
  - destruct (live i st); exact H.
  - destruct (live i st); [|exact H]. unfold onmessage.
    destruct data as [|d]; [exact H|].
    destruct (get_strict _ _); [exact H|]. destruct (strict_eq_str _ _); exact H.
  - exact H.
  - destruct (sockets st !! i) as [s|] eqn:Es; [|exact H].
    destruct (closed s); [exact H|].
    destruct (armed s); [|apply mark_closed_keeps, H].
    apply (mark_closed_keeps i) in H. exact H.
  - destruct (timers st); [exact H|].
    destruct (truthy (user se) && present (token se)); [|exact H].
    apply (connect_keeps se). exact H.
  - destruct (fetching st); [exact H|]. unfold history_settled.
    destruct fetched as [|[]]; exact H.
  - intros i s Hs Hr. rewrite (disarm_none st H i s Hs) in Hr. discriminate.
Qed.

Lemma play_keeps (se : Session) (events : list Event) (st : State) :
  only_current_reconnects st -> only_current_reconnects (play se events st).
Proof.
  unfold play. revert st. induction events as [|e events IH]; intros st H; [exact H|].
  cbn [foldl]. apply IH, step_keeps, H.
Qed.

Lemma initial_keeps : only_current_reconnects initial.
Proof. intros i s Hs _. cbn in Hs. rewrite lookup_nil in Hs. discriminate. Qed.

(** X16: after any sequence of widget events, at most one socket can
    still schedule a reconnect when it closes (handler installed, not yet
    closed), and it is the socket in socketRef.current: every socket
    that connectWebSocket replaced was disarmed first. *)
Theorem one_socket_reconnects (se : Session) (events : list Event) :
  let st := play se events initial in
  forall i j si sj,
    sockets st !! i = Some si -> sockets st !! j = Some sj ->
    reconnects si = true -> reconnects sj = true ->
    i = j /\ current st = Some i.
Proof.
  intros st.
  assert (only_current_reconnects st) as H by apply play_keeps, initial_keeps.
  intros i j si sj Hi Hj Ri Rj.
  pose proof (H i si Hi Ri). pose proof (H j sj Hj Rj). split; [congruence|assumption].
Qed.

End ChatSockets.

Lemma one_socket_reconnects_witness :
  let st := Chat.play Scenario.chatting [Chat.Mount; Chat.Close 0; Chat.Timeout] Chat.initial in
  1%nat = 1%nat /\ Chat.current st = Some 1%nat.
Proof.
  intros st.
  apply (one_socket_reconnects Scenario.chatting [Chat.Mount; Chat.Close 0; Chat.Timeout]
           1%nat 1%nat (Chat.mkSocket true false) (Chat.mkSocket true false));
    reflexivity.
Defined.

(* ===================================================================== *)
(** * Catalog: from the view to the filters *)
(* ===================================================================== *)

Section CatalogSettle.
Import JS Catalog.
Local Open Scope Z_scope.

(** The filters after the debounces, read off the view. *)
Lemma settle_filters (app : App) :
  filters (settle app)
  = mkFilterState (selectedCategories (view app))
                  (fst (priceRange (view app))) (snd (priceRange (view app)))
                  (if 0 <? view_minRating (view app) then view_minRating (view app)
                   else fs_minRating (filters app))
                  (view_sortBy (view app))
                  (searchQuery app)
                  (if currentPage (view app) =? 0 then 1 else currentPage (view app))
                  12.
Proof.
  unfold settle, handleFilterChange, filterParams. cbn. f_equal.
  - destruct (selectedCategories (view app)); reflexivity.
  - destruct (0 <? view_minRating (view app)); reflexivity.
Qed.

(** X17: once the debounces have fired, the filters mirror the view:
    categories, price range, sort order, search text and page size 12 are
    copied; page 0 becomes page 1; a minimum rating of zero keeps the
    previous minimum rating.  Settling twice changes nothing more. *)
Theorem settle_mirrors_view (app : App) :
  filters (settle app)
  = mkFilterState (selectedCategories (view app))
                  (fst (priceRange (view app))) (snd (priceRange (view app)))
                  (if 0 <? view_minRating (view app) then view_minRating (view app)
                   else fs_minRating (filters app))
                  (view_sortBy (view app))
                  (searchQuery app)
                  (if currentPage (view app) =? 0 then 1 else currentPage (view app))
                  12
  /\ settle (settle app) = settle app.
Proof.
  split; [apply settle_filters|].
  assert (filters (settle (settle app)) = filters (settle app)) as E.
  { rewrite (settle_filters (settle app)). change (view (settle app)) with (view app).
    change (searchQuery (settle app)) with (searchQuery app). rewrite !(settle_filters app).
    cbn [fs_minRating]. destruct (0 <? view_minRating (view app)); reflexivity. }
  transitivity (mkApp (searchQuery (settle app)) (filters (settle (settle app)))
                      (view (settle app))); [reflexivity|].
  rewrite E. reflexivity.
Qed.

(** X18: a minimum rating cannot be taken back: once the filters hold a
    positive minimum rating, clearing the filters or setting the rating
    to zero leaves it in the filters, and the next query still carries
    min_rating with the old value. *)
Theorem rating_filter_sticks (app : App) (a : Action) :
  a = ClearFilters \/ a = RatingChange 0 ->
  0 < fs_minRating (filters app) ->
  fs_minRating (filters (settle (dispatch a app))) = fs_minRating (filters app)
  /\ query_get "min_rating" (next_query (dispatch a app))
     = Some (pretty (fs_minRating (filters app))).
Proof.
  intros Ha Hr.
  assert (view_minRating (view (dispatch a app)) = 0 /\ filters (dispatch a app) = filters app)
    as [Hv Hf] by (destruct Ha as [->| ->]; split; reflexivity).
  assert (fs_minRating (filters (settle (dispatch a app))) = fs_minRating (filters app)) as E.
  { rewrite (settle_filters (dispatch a app)). cbn. rewrite Hv, Hf. reflexivity. }
  split; [exact E|].
  unfold next_query.
  destruct (buildQueryString_lookups (as_params (filters (settle (dispatch a app)))))
    as (_ & _ & _ & _ & _ & -> & _).
  unfold as_params. cbn [minRating mbind option_bind]. rewrite E.
  destruct (Z.ltb_spec 0 (fs_minRating (filters app))); [reflexivity|lia].
Qed.
(** X19: the letter filter never reaches the server: choosing a letter
    has the same effect on the filters and on the next query as going to
    page 1. *)
Theorem letter_filter_is_never_sent (app : App) (letter : string) :
  filters (settle (dispatch (LetterChange letter) app))
  = filters (settle (dispatch (PageChange 1) app))
  /\ next_query (dispatch (LetterChange letter) app)
     = next_query (dispatch (PageChange 1) app).
Proof. split; reflexivity. Qed.

End CatalogSettle.

Lemma rating_filter_sticks_witness :
  let rated :=
    Catalog.mkApp EmptyString
      (Catalog.mkFilterState [] 0 500000 4 Catalog.newest EmptyString 1 12)
      (Catalog.mkView Catalog.grid Catalog.newest [] (0%Z, 500000%Z) 4 EmptyString false 1) in
  Catalog.fs_minRating (Catalog.filters (Catalog.settle (Catalog.dispatch Catalog.ClearFilters rated)))
  = 4%Z
  /\ Catalog.query_get "min_rating" (Catalog.next_query (Catalog.dispatch Catalog.ClearFilters rated))
     = Some (pretty 4%Z).
Proof.
  intros rated. apply (rating_filter_sticks rated Catalog.ClearFilters).
  - left. reflexivity.
  - simpl. lia.
Defined.

(* ===================================================================== *)
(** * Chat: after the cleanup *)
(* ===================================================================== *)

Section ChatUnmount.
Import JS Chat Composer Observers.

Lemma none_only (st : State) : none_reconnects st -> only_current_reconnects st.
Proof. intros H i s Hs Hr. rewrite (H i s Hs) in Hr. discriminate. Qed.

Lemma quiet_step (se : Session) (st : State) (e : Event) :
  quiet e = true -> none_reconnects st ->
  none_reconnects (step se st e)
  /\ attempts (step se st e) = attempts st /\ timers (step se st e) = timers st.
Proof.
  intros Hq Hn. destruct e as [|i|i data|i|i| |fetched|]; try discriminate Hq; cbn [step].
  - destruct (live i st); repeat split; exact Hn.
  - destruct (live i st); [|repeat split; exact Hn]. unfold onmessage.
    destruct data as [|d]; [repeat split; exact Hn|].
    destruct (get_strict _ _); [repeat split; exact Hn|].
    destruct (strict_eq_str _ _); repeat split; exact Hn.
  - repeat split; exact Hn.
  - destruct (sockets st !! i) as [s|] eqn:Es; [|repeat split; exact Hn].
    destruct (closed s) eqn:Ec; [repeat split; exact Hn|].
    pose proof (Hn i s Es) as Hr. unfold reconnects in Hr. rewrite Ec, andb_true_r in Hr.
    rewrite Hr. unfold mark_closed. rewrite Es. unfold attempts. cbn.
    rewrite length_insert. repeat split.
    intros j sj Hj. cbn in Hj. destruct (decide (i = j)) as [->|Hne].
    + apply list_lookup_insert_Some in Hj as [(_ & <- & _)|(? & _)]; [|congruence].
      unfold reconnects. cbn. apply andb_false_r.
    + rewrite list_lookup_insert_ne in Hj by exact Hne. exact (Hn j sj Hj).
  - destruct (fetching st); [repeat split; exact Hn|]. unfold history_settled.
    destruct fetched as [|[]]; repeat split; exact Hn.
  - pose proof (disarm_none st (none_only st Hn)) as H. repeat split; [exact H| |].
    + unfold disarm_and_close, attempts. destruct (current st); [|reflexivity].
      cbn. apply length_insert.
    + unfold disarm_and_close. destruct (current st); reflexivity.
Qed.

(** X20: after the effect's cleanup no socket event, history reply or
    further cleanup opens a socket or schedules a reconnect; but a
    reconnect timer that was already pending is not cancelled, and when
    it fires with the session still signed in it opens a new socket. *)
Theorem unmount_stops_reconnecting (se : Session) (before after : list Event) :
  forallb quiet after = true ->
  let st := play se (before ++ [Unmount]) initial in
  attempts (play se after st) = attempts st
  /\ timers (play se after st) = timers st
  /\ (truthy (user se) && present (token se) = true -> (0 < timers st)%nat ->
      attempts (step se (play se after st) Timeout) = S (attempts st)).
Proof.
  intros Hq st.
  assert (none_reconnects st) as Hn.
  { subst st. unfold play. rewrite foldl_app. cbn [foldl step].
    apply disarm_none. apply (play_keeps se before initial), initial_keeps. }
  clearbody st.
  assert (none_reconnects (play se after st)
          /\ attempts (play se after st) = attempts st
          /\ timers (play se after st) = timers st) as (Hn' & Ha & Ht).
  { revert st Hn. induction after as [|e after IH]; intros st Hn; [repeat split; exact Hn|].
    cbn [forallb] in Hq. apply andb_prop in Hq as [He Hq].
    destruct (quiet_step se st e He Hn) as (Hn1 & Ha1 & Ht1).
    destruct (IH Hq _ Hn1) as (Hn2 & Ha2 & Ht2).
    unfold play in *. cbn [foldl]. repeat split; [exact Hn2|congruence|congruence]. }
  split; [exact Ha|]. split; [exact Ht|].
  intros Hs Hpos. cbn [step]. rewrite Ht.
  destruct (timers st) as [|n]; [lia|]. rewrite Hs.
  apply andb_prop in Hs as [_ Hp]. unfold connectWebSocket. rewrite Hp. cbn [negb].
  unfold attempts in *. cbn. rewrite length_app. cbn.
  unfold disarm_and_close. cbn. destruct (current (play se after st)); cbn;
    rewrite ?length_insert; lia.
Qed.
End ChatUnmount.

Lemma unmount_stops_reconnecting_witness :
  let st := Chat.play Scenario.chatting ([Chat.Mount; Chat.Close 0] ++ [Chat.Unmount])
                      Chat.initial in
  let later := Chat.play Scenario.chatting [Chat.Close 0; Chat.Error 0; Chat.Open 0] st in
  Chat.attempts later = 1%nat
  /\ Chat.timers later = 1%nat
  /\ Chat.attempts (Chat.step Scenario.chatting later Chat.Timeout) = 2%nat.
Proof.
  intros st later.
  destruct (unmount_stops_reconnecting Scenario.chatting [Chat.Mount; Chat.Close 0]
              [Chat.Close 0; Chat.Error 0; Chat.Open 0] eq_refl) as (Ha & Ht & Hfire).
  split; [exact Ha|]. split; [exact Ht|].
  apply Hfire; [reflexivity|]. simpl. lia.
Defined.

(* ===================================================================== *)
(** * Notification socket: the effect runs again *)
(* ===================================================================== *)

Section NotifierRerun.
Import JS Notifier Observers.

Lemma effect_while_connecting (tok : option string) (url_ok : bool) (st : State) :
  wsConnectingRef st = true ->
  wsConnectingRef (effect tok url_ok st) = true
  /\ attempts (effect tok url_ok st) = attempts st
  /\ ws (effect tok url_ok st) = None /\ cleanup (effect tok url_ok st) = None
  \/ effect tok url_ok st = st.
Proof.
  intros Hc. unfold effect, run_cleanup.
  destruct (cleanup st) as [c|] eqn:Ecl; cbn; rewrite Hc, !orb_true_r.
  - left. destruct (negb (present tok) && _); cbn; repeat split; exact Hc.
  - destruct (negb (present tok) && _) eqn:E; [|right; reflexivity].
    left. cbn. repeat split; assumption.
Qed.

(** X21: the notification effect depends on the ws cell that it sets
    itself.  When it runs again before the socket has opened, the cleanup
    of the first run closes the socket it had just created and clears
    the cell, the guard on the connecting flag keeps the new run from
    opening another, and no later run of the effect opens one while that
    flag stays set: one socket was created and none is left. *)
Theorem effect_rerun_drops_the_socket (tok : option string) (st : State)
    (later : list Event) :
  present tok = true ->
  wsUnauthorizedRef st = false -> wsConnectingRef st = false ->
  forallb is_effect later = true ->
  let opened := effect tok true st in
  let rerun := effect tok true opened in
  attempts opened = S (attempts st) /\ ws opened = Some (attempts st)
  /\ ws rerun = None /\ cleanup rerun = None
  /\ attempts (play later rerun) = S (attempts st)
  /\ ws (play later rerun) = None.
Proof.
  intros Hp Hu Hc Hl opened rerun.
  assert (opened = mkState false true (Some (attempts st)) (Some (attempts st)) (toast st)
                           (S (attempts st))) as Eo.
  { subst opened. unfold effect, run_cleanup.
    destruct (cleanup st); cbn; rewrite Hp, Hu, Hc; reflexivity. }
  assert (rerun = mkState false true None None (toast st) (S (attempts st))) as Er.
  { subst rerun. rewrite Eo. unfold effect, run_cleanup. cbn. rewrite Hp. reflexivity. }
  split; [rewrite Eo; reflexivity|].
  split; [rewrite Eo; reflexivity|].
  split; [rewrite Er; reflexivity|]. split; [rewrite Er; reflexivity|].
  assert (forall s, wsConnectingRef s = true -> ws s = None -> cleanup s = None ->
            attempts (play later s) = attempts s /\ ws (play later s) = None) as H.
  { clear -Hl. induction later as [|e later IH]; intros s H1 H2 H3; [split; [reflexivity|exact H2]|].
    cbn [forallb] in Hl. apply andb_prop in Hl as [He Hl].
    destruct e as [t u| | | |]; try discriminate He.
    unfold play. cbn [foldl step].
    destruct (effect_while_connecting t u s H1) as [(E1 & E2 & E3 & E4)|E].
    - destruct (IH Hl _ E1 E3 E4) as [Ha Hw]. unfold play in *. split; [congruence|exact Hw].
    - rewrite E. apply (IH Hl s H1 H2 H3). }
  rewrite Er. apply H; reflexivity.
Qed.
End NotifierRerun.

Lemma effect_rerun_drops_the_socket_witness :
  let tok := Some Scenario.bearer in
  let opened := Notifier.effect tok true Notifier.initial in
  let rerun := Notifier.effect tok true opened in
  let later := [Notifier.Effect tok true; Notifier.Effect tok true] in
  Notifier.attempts opened = 1%nat /\ Notifier.ws opened = Some 0%nat
  /\ Notifier.ws rerun = None /\ Notifier.cleanup rerun = None
  /\ Notifier.attempts (Notifier.play later rerun) = 1%nat
  /\ Notifier.ws (Notifier.play later rerun) = None.
Proof.
  intros tok opened rerun later.
  apply (effect_rerun_drops_the_socket tok Notifier.initial later); reflexivity.
Defined.

(* ===================================================================== *)
(** * Cart handlers of the page and of the drawer *)
(* ===================================================================== *)

Section StorefrontFacts.
Import JS Cart Storefront.
Local Open Scope Z_scope.




Context {S : Type} (serve : cartApi.Call -> S -> Settled * S).


(** X23: signed out, handleAddToCart sends nothing, remembers the book
    and opens the login modal; handleLoginSuccess run with the closures
    of that same signed-out render then sends nothing either, shows the
    try-again toast, forgets the book and clears the login message. *)
Theorem login_detour (r : Render) (bookId : string) (shell : Shell) (w : World S) :
  truthy (user r) = false ->
  bookId <> EmptyString ->
  let asked := handleAddToCart serve r bookId shell w in
  asked = (mkShell (toast shell) (Some bookId) login_to_add true, w)
  /\ handleLoginSuccess serve r (fst asked) w
     = (mkShell (Some try_again) None EmptyString true, w).
Proof.
  intros Hu Hb asked. subst asked. unfold handleAddToCart. rewrite Hu. cbn [negb].
  split; [reflexivity|]. cbn [fst]. unfold handleLoginSuccess, add_and_notify.
  cbn [pendingCartAction present].
  destruct (String.eqb_spec bookId EmptyString) as [|_]; [contradiction|]. cbn [negb].
  unfold addToCart. rewrite Hu. cbn. reflexivity.
Qed.

(** X24: the plus and minus buttons of the cart drawer never reject;
    minus on a line with one copy (or fewer) behaves as removing the
    line; without a token both show the try-again toast and send
    nothing. *)
Theorem drawer_buttons (r : Render) (itemId : string) (currentQty : Z)
    (shown : option Toast) (w : World S) :
  fst (fst (handleIncrease serve r itemId currentQty shown w)) = inr tt
  /\ fst (fst (handleDecrease serve r itemId currentQty shown w)) = inr tt
  /\ (currentQty <= 1 ->
      handleDecrease serve r itemId currentQty shown w
      = match run serve (removeFromCart r itemId) w with
        | (inr _, w') => (inr tt, shown, w')
        | (inl _, w') => (inr tt, Some try_again, w')
        end)
  /\ (present (token r) = false ->
      handleIncrease serve r itemId currentQty shown w = (inr tt, Some try_again, w)
      /\ handleDecrease serve r itemId currentQty shown w = (inr tt, Some try_again, w)).
Proof.
  split; [|split; [|split]].
  - unfold handleIncrease. destruct (run serve (updateQuantity _ _ _) w) as [[e|u] w'];
      [|reflexivity].
    destruct (out_of_stock e); [|reflexivity].
    rewrite run_refreshCart_outcome. destruct (truthy (user r) && present (token r));
      reflexivity.
  - unfold handleDecrease. destruct (run serve (updateQuantity _ _ _) w) as [[e|u] w'];
      reflexivity.
  - intros Hq. unfold handleDecrease. rewrite updateQuantity_floor_eq by lia. reflexivity.
  - intros Ht.
    destruct (run_signed_out serve r w itemId itemId (currentQty + 1) Ht) as (_ & Hup & _).
    destruct (run_signed_out serve r w itemId itemId (currentQty - 1) Ht) as (_ & Hdown & _).
    unfold handleIncrease, handleDecrease. rewrite Hup, Hdown. split; reflexivity.
Qed.

End StorefrontFacts.


Lemma login_detour_witness :
  let r := Cart.mkRender JS.JNull None Scenario.idle in
  let shell := Storefront.mkShell None None EmptyString false in
  let w := Cart.mkWorld Scenario.idle Scenario.empty_cart [] in
  let asked := Storefront.handleAddToCart (Backend.serve Scenario.documented) r "42" shell w in
  asked = (Storefront.mkShell None (Some "42") Storefront.login_to_add true, w)
  /\ Storefront.handleLoginSuccess (Backend.serve Scenario.documented) r (fst asked) w
     = (Storefront.mkShell (Some Storefront.try_again) None EmptyString true, w).
Proof.
  intros r shell w asked.
  apply (login_detour (Backend.serve Scenario.documented) r "42" shell w).
  - reflexivity.
  - discriminate.
Defined.

Lemma drawer_buttons_witness :
  let serve := Backend.serve Scenario.documented in
  let r := Scenario.signed_in Scenario.idle in
  let out := Cart.mkRender Scenario.shopper None Scenario.idle in
  let w := Cart.mkWorld Scenario.idle Scenario.empty_cart [] in
  Storefront.handleDecrease serve r "7" 1 None w
  = match Cart.run serve (Cart.removeFromCart r "7") w with
    | (inr _, w') => (inr tt, None, w')
    | (inl _, w') => (inr tt, Some Storefront.try_again, w')
    end
  /\ Storefront.handleIncrease serve out "7" 1 None w
     = (inr tt, Some Storefront.try_again, w)
  /\ Storefront.handleDecrease serve out "7" 1 None w
     = (inr tt, Some Storefront.try_again, w).
Proof.
  intros serve r out w.
  destruct (drawer_buttons serve r "7" 1 None w) as (_ & _ & Hlast & _).
  destruct (drawer_buttons serve out "7" 1 None w) as (_ & _ & _ & Hout).
  split; [apply Hlast; lia|apply Hout; reflexivity].
Defined.

(* ===================================================================== *)
(** * Checkout and the cart tab of the profile page *)
(* ===================================================================== *)

Section CheckoutFacts.
Import JS Cart Storefront.
Local Open Scope Z_scope.

(** X25: an order is created only from a non-empty cart, with the token
    of a signed-in session and a truthy shipping address, never the
    empty-string fallback: the drawer sends user.address; the profile
    page sends the text of its address box, or user.address when the box
    is empty. *)
Theorem checkout_guards (user : JSValue) (token : option string)
    (cartItems : list CartItem) (cartData : option CartAPIResponse) (address : string)
    (shippingAddress : JSValue) (t : string) :
  (drawer_handleCheckout user token cartItems = CreateOrder shippingAddress t ->
   truthy user = true /\ present token = true /\ t = the token
   /\ cartItems <> []
   /\ shippingAddress = get user "address" /\ truthy shippingAddress = true)
  /\ (profile_handleCheckout user token cartData address = CreateOrder shippingAddress t ->
      present token = true /\ t = the token
      /\ (exists data, cartData = Some data /\ normalizeCart data <> [])
      /\ truthy shippingAddress = true
      /\ shippingAddress
         = if String.eqb address EmptyString then get_opt user "address" else JStr address).
Proof.
  split.
  - unfold drawer_handleCheckout.
    destruct (truthy user) eqn:Eu, (present token) eqn:Et; cbn [negb orb]; try discriminate.
    destruct cartItems as [|i l]; [discriminate|].
    destruct (Z.eqb_spec (Z.of_nat (length (i :: l))) 0) as [E|_]; [cbn in E; lia|].
    unfold or. destruct (truthy (get user "address")) eqn:Ea; [|discriminate].
    cbn [negb]. rewrite Ea. intros H. inversion H; subst. repeat split; try discriminate.
    exact Ea.
  - unfold profile_handleCheckout.
    destruct (present token) eqn:Et; cbn [negb]; [|discriminate].
    destruct cartData as [data|]; [|discriminate].
    change (bool_decide (is_Some (Some data))) with true. cbn [negb orb].
    destruct (normalizeCart data) as [|i l] eqn:En; [discriminate|].
    destruct (Z.eqb_spec (Z.of_nat (length (i :: l))) 0) as [E|_]; [cbn in E; lia|].
    unfold or. cbn [truthy].
    destruct (String.eqb_spec address EmptyString) as [Ea|Ea].
    + subst address. cbn [negb andb String.eqb].
      destruct (truthy (get_opt user "address")) eqn:Eua; [|discriminate]. cbn [negb].
      intros H. inversion H; subst.
      split; [reflexivity|]. split; [reflexivity|].
      split; [exists data; split; [reflexivity|rewrite En; discriminate]|].
      split; [exact Eua|reflexivity].
    + destruct (String.eqb address EmptyString) eqn:Eb;
        [apply String.eqb_eq in Eb; contradiction|]. cbn [negb andb].
      rewrite andb_false_r. cbn [truthy]. rewrite ?Eb. cbn [negb].
      intros H. inversion H; subst.
      split; [reflexivity|]. split; [reflexivity|].
      split; [exists data; split; [reflexivity|rewrite En; discriminate]|].
      split; [cbn; rewrite Eb; reflexivity|reflexivity].
Qed.

(** X26: the cart that the profile page stores yields the same lines
    as the cart provider reads from the same response; and the profile
    page's quantity control sends an update only with a token and a
    quantity of at least one, so it never stores a non-positive quantity
    (and, unlike the provider's updateQuantity, never removes the line). *)
Theorem profile_cart_agrees (res : CartAPIResponse) (token : option string)
    (itemId : string) (q : Z) :
  normalizeCart (stored_cart res) = normalizeCart res
  /\ (forall c, profile_handleUpdateQuantity token itemId q = Some c ->
      present token = true /\ 1 <= q /\ c = cartApi.updateCart itemId q (the token)
      /\ ~ sends_nonpositive c).
Proof.
  split.
  - unfold stored_cart, normalizeCart. destruct res as [[c|] i]; reflexivity.
  - intros c. unfold profile_handleUpdateQuantity.
    destruct (present token); cbn [negb]; [|discriminate].
    destruct (Z.ltb_spec q 1) as [Hq|Hq]; [discriminate|]. intros E. inversion E; subst.
    repeat split; [lia|]. cbn. lia.
Qed.

End CheckoutFacts.

Lemma checkout_guards_witness :
  let reader := JS.JObj [("id", JS.JNum 1); ("address", JS.JStr "12 Hang Bai, Ha Noi")] in
  let data := Scenario.cart_with [Scenario.dune_line] in
  (JS.truthy reader = true /\ JS.present (Some Scenario.bearer) = true
   /\ Scenario.bearer = Cart.the (Some Scenario.bearer)
   /\ [Scenario.dune_line] <> []
   /\ JS.JStr "12 Hang Bai, Ha Noi" = JS.get reader "address"
   /\ JS.truthy (JS.JStr "12 Hang Bai, Ha Noi") = true)
  /\ (JS.present (Some Scenario.bearer) = true
      /\ Scenario.bearer = Cart.the (Some Scenario.bearer)
      /\ (exists d, Some data = Some d /\ Cart.normalizeCart d <> [])
      /\ JS.truthy (JS.JStr "7 Trang Tien") = true
      /\ JS.JStr "7 Trang Tien"
         = if String.eqb "7 Trang Tien" EmptyString then JS.get_opt reader "address"
           else JS.JStr "7 Trang Tien").
Proof.
  intros reader data.
  destruct (checkout_guards reader (Some Scenario.bearer) [Scenario.dune_line] (Some data)
              "7 Trang Tien" (JS.JStr "12 Hang Bai, Ha Noi") Scenario.bearer) as (Hdrawer & _).
  destruct (checkout_guards reader (Some Scenario.bearer) [Scenario.dune_line] (Some data)
              "7 Trang Tien" (JS.JStr "7 Trang Tien") Scenario.bearer) as (_ & Hprofile).
  split; [apply Hdrawer; reflexivity|apply Hprofile; reflexivity].
Defined.

Lemma profile_cart_agrees_witness :
  let res := Cart.mkResponse (Some (Cart.mkCartObject [Scenario.dune_line]))
                             (Some [Scenario.emma_line]) in
  Cart.normalizeCart (Storefront.stored_cart res) = Cart.normalizeCart res
  /\ (JS.present (Some Scenario.bearer) = true /\ (1 <= 2)%Z
      /\ cartApi.updateCart "7" 2 Scenario.bearer
         = cartApi.updateCart "7" 2 (Cart.the (Some Scenario.bearer))
      /\ ~ Cart.sends_nonpositive (cartApi.updateCart "7" 2 Scenario.bearer)).
Proof.
  intros res.
  destruct (profile_cart_agrees res (Some Scenario.bearer) "7" 2) as (Hsame & Hsent).
  split; [exact Hsame|]. apply Hsent. reflexivity.
Defined.

(* ===================================================================== *)
(** * Cart provider: the loading flag under overlapping refreshes *)
(* ===================================================================== *)

Section RefreshLoading.
Import JS Cart.
Local Open Scope Z_scope.

(** X27: the loading flag is a plain boolean, not a count of requests in
    flight.  With two signed-in refreshes in flight it is true, and as
    soon as the first of them settles, resolved or rejected, it is false
    although the request of the second has not even been answered. *)
Theorem loading_cleared_by_first_settled (rA rB : Render) (st : State) (replyA : Settled) :
  truthy (user rA) = true -> present (token rA) = true ->
  truthy (user rB) = true -> present (token rB) = true ->
  exists kA kB st1 st2,
    advance (refreshCart rA) st = (Sent (cartApi.getCart (the (token rA))) kA, st1)
    /\ advance (refreshCart rB) st1 = (Sent (cartApi.getCart (the (token rB))) kB, st2)
    /\ loading st2 = true
    /\ fst (advance (kA replyA) st2) = Finished (inr tt)
    /\ loading (snd (advance (kA replyA) st2)) = false.
Proof.
  intros HuA HtA HuB HtB. unfold refreshCart. rewrite HuA, HtA, HuB, HtB. cbn.
  do 4 eexists. split; [reflexivity|]. split; [reflexivity|]. split; [reflexivity|].
  destruct replyA; split; reflexivity.
Qed.

End RefreshLoading.

Lemma loading_cleared_by_first_settled_witness :
  let r := Scenario.signed_in Scenario.idle in
  exists kA kB st1 st2,
    Cart.advance (Cart.refreshCart r) Scenario.idle
    = (Cart.Sent (cartApi.getCart (Cart.the (Cart.token r))) kA, st1)
    /\ Cart.advance (Cart.refreshCart r) st1
       = (Cart.Sent (cartApi.getCart (Cart.the (Cart.token r))) kB, st2)
    /\ Cart.loading st2 = true
    /\ fst (Cart.advance (kA (inl JS.NetworkError)) st2) = Cart.Finished (inr tt)
    /\ Cart.loading (snd (Cart.advance (kA (inl JS.NetworkError)) st2)) = false.
Proof.
  intros r.
  apply (loading_cleared_by_first_settled r r Scenario.idle (inl JS.NetworkError));
    reflexivity.
Defined.
